(** * Tmux-Orchestrator: the integrated auto-responder and its permission presets

    A shallow embedding of [permission_presets.py] and of the class
    [IntegratedAutoResponder] of [integrated_auto_responder.py], followed by
    the properties of the classifier, the responder, the monitor loop, the
    response log and the preset tables.

    Conventions of the embedding:
    - a Python [dict] with a fixed set of string keys is a record whose
      fields are options ([None]: the key is absent, so that [.get(k, d)]
      is [default d]); a dict that is iterated ([granular_controls]) is an
      association list in insertion order;
    - a Python exception is a value of [exn]; code that may raise returns a
      [res]; methods of the responder run in the monad [M] over [state];
    - everything the process obtains from outside (regular-expression
      matching, the [tmux] subprocesses, the file system, the clock and
      [time.sleep]) comes from an environment [Env], whose answers may
      depend on the history of the calls made so far; what the process
      prints is left out;
    - a configuration file is a [json] value, whatever its type; the
      methods are modelled on the configurations whose entries have the
      types of the built-in presets ([config_of_json] reads a value as
      one). *)

From Stdlib Require Import QArith.
From stdpp Require Import base numbers strings list gmap.
From Stdlib Require Import Ascii String DecimalString.

Open Scope Z_scope.
Open Scope string_scope.

(** ** Exceptions and results *)

Inductive exn : Type :=
| CalledProcessError (cmd : list string) (returncode : Z)
| ValueError (msg : string)
| ReError (msg : string)
| OtherException (name : string).

Inductive res (A : Type) : Type :=
| Ok (a : A)
| Raise (e : exn).

Arguments Ok {A} a.
Arguments Raise {A} e.

Definition res_bind {A B : Type} (r : res A) (k : A -> res B) : res B :=
  match r with
  | Ok a => k a
  | Raise e => Raise e
  end.

(** ** Strings as Python uses them here *)

Module PyStr.

Definition chars (s : string) : list ascii := list_ascii_of_string s.
Definition of_chars (l : list ascii) : string := string_of_list_ascii l.

(** [str(n)] and the [{n}] of an f-string, for an integer. *)
Definition of_Z (n : Z) : string := NilZero.string_of_int (Z.to_int n).

(** The characters [str.strip()] removes and [\s] matches (ASCII). *)
Definition is_space (c : ascii) : bool :=
  let n := nat_of_ascii c in
  (Nat.eqb n 32 || (Nat.leb 9 n && Nat.leb n 13))%bool.

Fixpoint lstrip (l : list ascii) : list ascii :=
  match l with
  | c :: l' => if is_space c then lstrip l' else l
  | [] => []
  end.

Definition strip (s : string) : string :=
  of_chars (rev (lstrip (rev (lstrip (chars s))))).

(** [s.split('\n')]: never empty, [""] splits into [[""]]. *)
Fixpoint split_lines_aux (cur : list ascii) (l : list ascii) : list string :=
  match l with
  | [] => [of_chars (rev cur)]
  | c :: l' =>
      if Ascii.eqb c "010"%char
      then of_chars (rev cur) :: split_lines_aux [] l'
      else split_lines_aux (c :: cur) l'
  end.

Definition split_lines (s : string) : list string := split_lines_aux [] (chars s).

Definition digit_val (c : ascii) : option Z :=
  let n := nat_of_ascii c in
  if (Nat.leb 48 n && Nat.leb n 57)%bool then Some (Z.of_nat (n - 48)) else None.

(** The digits of [int(s)]: decimal digits, single underscores allowed
    between two digits. [prev] tells whether the last character read was
    a digit. *)
Fixpoint digits (acc : Z) (prev : bool) (l : list ascii) : option Z :=
  match l with
  | [] => if prev then Some acc else None
  | c :: l' =>
      match digit_val c with
      | Some d => digits (10 * acc + d) true l'
      | None =>
          if (Ascii.eqb c "_"%char && prev)%bool then digits acc false l' else None
      end
  end.

(** [int(s)] for a string: surrounding white space, an optional sign and
    decimal digits; [ValueError] otherwise. *)
Definition int (s : string) : res Z :=
  let body := chars (strip s) in
  let parsed :=
    match body with
    | "-"%char :: l => Z.opp <$> digits 0 false l
    | "+"%char :: l => digits 0 false l
    | l => digits 0 false l
    end in
  match parsed with
  | Some n => Ok n
  | None => Raise (ValueError ("invalid literal for int() with base 10: " +:+ s))
  end.

(** [os.path.join(a, b)] for a relative [b]. *)
Definition path_join (a b : string) : string :=
  match rev (chars a) with
  | [] => b
  | c :: _ => if Ascii.eqb c "/"%char then a +:+ b else a +:+ "/" +:+ b
  end.

(** [sub in s] *)
Fixpoint contains (sub s : string) : bool :=
  (String.prefix sub s
   || match s with
      | String _ s' => contains sub s'
      | EmptyString => false
      end)%bool.

(** [c.lower()] on ASCII, the folding [re.IGNORECASE] applies. *)
Definition lower (c : ascii) : ascii :=
  let n := nat_of_ascii c in
  if (Nat.leb 65 n && Nat.leb n 90)%bool then ascii_of_nat (n + 32) else c.

End PyStr.

(** ** Regular expressions

    [re.search] is library code: the responder is verified against any
    matcher [re_search] of the environment. [Re.search] below is an
    executable matcher for the part of the syntax that the built-in tables
    use (literal characters, escaped punctuation, [\s], [\d], [.], and the
    postfix [*], [+], [?]); it serves to run the responder on concrete
    texts. *)

Module Re.

Record flags : Type := { IGNORECASE : bool; MULTILINE : bool }.

Inductive atom : Type :=
| Lit (c : ascii)
| Space
| Digit
| AnyChar.

Inductive quant : Type := One | Star | Plus | Opt.

Definition item : Type := (atom * quant)%type.

Definition is_alnum (c : ascii) : bool :=
  let n := nat_of_ascii c in
  ((Nat.leb 48 n && Nat.leb n 57) || (Nat.leb 65 n && Nat.leb n 90)
   || (Nat.leb 97 n && Nat.leb n 122))%bool.

Definition quant_of (c : ascii) : option quant :=
  if Ascii.eqb c "*"%char then Some Star
  else if Ascii.eqb c "+"%char then Some Plus
  else if Ascii.eqb c "?"%char then Some Opt
  else None.

Definition is_meta (c : ascii) : bool :=
  existsb (Ascii.eqb c) (PyStr.chars "()[]{}|^$").

Definition escape (c : ascii) : option atom :=
  if Ascii.eqb c "s"%char then Some Space
  else if Ascii.eqb c "d"%char then Some Digit
  else if Ascii.eqb c "n"%char then Some (Lit "010"%char)
  else if Ascii.eqb c "t"%char then Some (Lit "009"%char)
  else if is_alnum c then None
  else Some (Lit c).

(** [parse acc l]: the items read so far are [acc], most recent first. *)
Fixpoint parse (acc : list item) (l : list ascii) : res (list item) :=
  match l with
  | [] => Ok (rev acc)
  | c :: l' =>
      if Ascii.eqb c "\"%char then
        match l' with
        | [] => Raise (ReError "bad escape (end of pattern)")
        | e :: l'' =>
            match escape e with
            | Some a => parse ((a, One) :: acc) l''
            | None => Raise (ReError "bad escape")
            end
        end
      else
        match quant_of c with
        | Some q =>
            match acc with
            | (a, One) :: acc' => parse ((a, q) :: acc') l'
            | (_, _) :: _ => Raise (ReError "multiple repeat")
            | [] => Raise (ReError "nothing to repeat")
            end
        | None =>
            if is_meta c then Raise (ReError "syntax outside the modelled fragment")
            else if Ascii.eqb c "."%char then parse ((AnyChar, One) :: acc) l'
            else parse ((Lit c, One) :: acc) l'
        end
  end.

Definition atom_ok (fl : flags) (a : atom) (c : ascii) : bool :=
  match a with
  | Lit x =>
      if IGNORECASE fl then Ascii.eqb (PyStr.lower x) (PyStr.lower c) else Ascii.eqb x c
  | Space => PyStr.is_space c
  | Digit => bool_decide (is_Some (PyStr.digit_val c))
  | AnyChar => negb (Ascii.eqb c "010"%char)
  end.

(** Does the pattern match a prefix of [s]? *)
Fixpoint match_here (fl : flags) (its : list item) (s : list ascii) : bool :=
  match its with
  | [] => true
  | (a, q) :: r =>
      let many :=
        fix many (s : list ascii) : bool :=
          (match_here fl r s
           || match s with
              | c :: s' => atom_ok fl a c && many s'
              | [] => false
              end)%bool in
      match q with
      | One =>
          match s with
          | c :: s' => (atom_ok fl a c && match_here fl r s')%bool
          | [] => false
          end
      | Opt =>
          (match_here fl r s
           || match s with
              | c :: s' => atom_ok fl a c && match_here fl r s'
              | [] => false
              end)%bool
      | Star => many s
      | Plus =>
          match s with
          | c :: s' => (atom_ok fl a c && many s')%bool
          | [] => false
          end
      end
  end.

(** Does the pattern match somewhere in [s]? *)
Fixpoint search_from (fl : flags) (its : list item) (s : list ascii) : bool :=
  (match_here fl its s
   || match s with
      | _ :: s' => search_from fl its s'
      | [] => false
      end)%bool.

Definition search (fl : flags) (pattern content : string) : res bool :=
  res_bind (parse [] (PyStr.chars pattern))
           (fun its => Ok (search_from fl its (PyStr.chars content))).

End Re.

Definition I_flags : Re.flags := {| Re.IGNORECASE := true; Re.MULTILINE := false |}.
Definition IM_flags : Re.flags := {| Re.IGNORECASE := true; Re.MULTILINE := true |}.

(** ** The configuration dictionaries *)

(** One entry of ["granular_controls"]. *)
Record CategoryConfig : Type := {
  cc_enabled : option bool;
  cc_description : option string;
  cc_patterns : option (list string);
  cc_response : option string
}.

(** The ["safety_controls"] dictionary. *)
Record SafetyControls : Type := {
  skip_dangerous_operations : option bool;
  dangerous_patterns : option (list string);
  require_manual_approval : option (list string)
}.

(** The ["auto_responder"] dictionary. *)
Record AutoResponder : Type := {
  ar_enabled : option bool;
  ar_check_interval : option Q;
  ar_response_delay : option Q;
  ar_log_responses : option bool;
  ar_granular_controls : option (list (string * CategoryConfig));
  ar_safety_controls : option SafetyControls
}.

(** The top-level configuration: [{}] or [{"auto_responder": ...}]. *)
Record Config : Type := { auto_responder : option AutoResponder }.

(** [d[key]] / [key in d] on a dictionary kept in insertion order. *)
Fixpoint assoc {V : Type} (key : string) (d : list (string * V)) : option V :=
  match d with
  | [] => None
  | (k, v) :: d' => if String.eqb k key then Some v else assoc key d'
  end.

Definition keys {V : Type} (d : list (string * V)) : list string := map fst d.

(** [x in l] for a list of strings. *)
Definition str_in (x : string) (l : list string) : bool := existsb (String.eqb x) l.

(** [", ".join(l)] *)
Fixpoint join (sep : string) (l : list string) : string :=
  match l with
  | [] => ""
  | [x] => x
  | x :: l' => x +:+ sep +:+ join sep l'
  end.

(** ** permission_presets.py *)

Module PermissionPresets.

Record Control : Type := {
  description : string;
  patterns : list string;
  response : string;
  enabled_in : list string
}.

Definition GRANULAR_CONTROLS : list (string * Control) :=
  [ ("file_operations",
     {| description := "File creation, editing, saving";
        patterns := [ "Apply these changes\?"; "Save file\?"; "Create file\?";
                      "Overwrite file\?"; "Write to file\?" ];
        response := "1";
        enabled_in := [ "pm_orchestrator"; "safe_development"; "autonomous_agent" ] |});
    ("command_execution",
     {| description := "Shell commands and script execution";
        patterns := [ "Execute this command\?"; "Run this script\?";
                      "Execute in terminal\?"; "Run command\?" ];
        response := "1";
        enabled_in := [ "autonomous_agent" ] |});
    ("general_confirmations",
     {| description := "General yes/no confirmations";
        patterns := [ "1\. yes\s*2\. no"; "Confirm\?\s*\(yes/no\)";
                      "Continue\?\s*\(y/n\)"; "Proceed\?\s*\(yes/no\)" ];
        response := "1";
        enabled_in := [ "pm_orchestrator"; "safe_development"; "conservative";
                        "autonomous_agent" ] |});
    ("persistent_choices",
     {| description := "Yes and don't ask again options";
        patterns := [ "1\. yes\s*2\. yes and don't ask again\s*3\. no" ];
        response := "2";
        enabled_in := [ "autonomous_agent" ] |});
    ("continue_operations",
     {| description := "Continue with current operation";
        patterns := [ "Do you want to continue\?"; "Do you want to proceed\?";
                      "Continue with this action\?" ];
        response := "1";
        enabled_in := [ "pm_orchestrator"; "safe_development"; "autonomous_agent" ] |});
    ("package_management",
     {| description := "Package installations and updates";
        patterns := [ "Install package\?"; "Update dependencies\?";
                      "Add to package\.json\?"; "Install npm package\?" ];
        response := "1";
        enabled_in := [ "autonomous_agent" ] |});
    ("git_operations",
     {| description := "Git commits, pushes, and repository operations";
        patterns := [ "Commit changes\?"; "Push to repository\?"; "Create branch\?";
                      "Merge branch\?" ];
        response := "1";
        enabled_in := [] |}) ].

Definition SAFETY_CONTROLS : SafetyControls :=
  {| skip_dangerous_operations := Some true;
     dangerous_patterns :=
       Some [ "delete"; "remove"; "rm -rf"; "DROP TABLE"; "DELETE FROM";
              "truncate"; "format"; "destroy"; "purge" ];
     require_manual_approval :=
       Some [ "production"; "prod"; "live"; "master"; "main branch" ] |}.

Record PresetInfo : Type := {
  pi_description : string;
  perfect_for : string;
  risk_level : string;
  check_interval : Q;
  response_delay : Q
}.

Definition PRESET_INFO : list (string * PresetInfo) :=
  [ ("pm_orchestrator",
     {| pi_description := "PM Orchestrator Preset";
        perfect_for := "Project management, team coordination, oversight";
        risk_level := "LOW-MEDIUM ⚠️";
        check_interval := 2.0; response_delay := 0.5 |});
    ("safe_development",
     {| pi_description := "Safe Development Preset";
        perfect_for := "Daily coding, file editing, basic development";
        risk_level := "LOW ✅";
        check_interval := 2.0; response_delay := 0.5 |});
    ("conservative",
     {| pi_description := "Conservative Preset";
        perfect_for := "Learning, testing, high-security environments";
        risk_level := "VERY LOW 🔒";
        check_interval := 3.0; response_delay := 1.0 |});
    ("autonomous_agent",
     {| pi_description := "Autonomous Agent Preset";
        perfect_for := "Overnight development, autonomous agents, CI/CD";
        risk_level := "MEDIUM ⚠️";
        check_interval := 1.5; response_delay := 0.3 |}) ].

(** The entry that the loop of [generate_preset_config] builds for one
    control. *)
Definition preset_control (preset_name : string) (control_config : Control)
  : CategoryConfig :=
  {| cc_enabled := Some (str_in preset_name (enabled_in control_config));
     cc_description := Some (description control_config);
     cc_patterns := Some (patterns control_config);
     cc_response := Some (response control_config) |}.

Definition generate_preset_config (preset_name : string) : res Config :=
  match assoc preset_name PRESET_INFO with
  | None =>
      let available := join ", " (keys PRESET_INFO) in
      Raise (ValueError ("Unknown preset '" +:+ preset_name +:+ "'. Available: "
                         +:+ available))
  | Some preset_info =>
      let granular_controls :=
        map (fun '(control_name, control_config) =>
               (control_name, preset_control preset_name control_config))
            GRANULAR_CONTROLS in
      Ok {| auto_responder :=
              Some {| ar_enabled := Some true;
                      ar_check_interval := Some (check_interval preset_info);
                      ar_response_delay := Some (response_delay preset_info);
                      ar_log_responses := Some true;
                      ar_granular_controls := Some granular_controls;
                      ar_safety_controls := Some SAFETY_CONTROLS |} |}
  end.

(** The legacy functions. *)
Definition safe_development (_ : unit) : res Config :=
  generate_preset_config "safe_development".
Definition autonomous_agent (_ : unit) : res Config :=
  generate_preset_config "autonomous_agent".
Definition conservative (_ : unit) : res Config :=
  generate_preset_config "conservative".
Definition pm_orchestrator (_ : unit) : res Config :=
  generate_preset_config "pm_orchestrator".

Definition PRESETS : list (string * (unit -> res Config)) :=
  [ ("safe_development", safe_development);
    ("autonomous_agent", autonomous_agent);
    ("conservative", conservative);
    ("pm_orchestrator", pm_orchestrator) ].

Definition get_preset (name : string) : res Config :=
  match assoc name PRESETS with
  | Some f => f tt
  | None => generate_preset_config name
  end.

End PermissionPresets.

(** ** The environment of the process *)

(** What the process does to the outside, in the order it happens. *)
Inductive event : Type :=
| Run (argv : list string)            (* subprocess.run(argv, ...) *)
| PathExists (path : string)          (* os.path.exists(path) *)
| Sleep (secs : Q)                    (* time.sleep(secs) *)
| Save (path : string) (cfg : Config) (* json.dump(self.config, open(path, 'w')) *).

(** How a subprocess ends: it exits with a return code and its captured
    standard output, or [subprocess.run] raises before that (the program
    cannot be launched, its output cannot be decoded). *)
Inductive proc_outcome : Type :=
| Exited (returncode : Z) (stdout : string)
| NotRun (e : exn).

Class Env : Type := {
  (** [re.search(pattern, content, flags) is not None], or [re.error] *)
  re_search : Re.flags -> string -> string -> res bool;
  (** the outcome of running [argv], after the events so far *)
  run_process : list event -> list string -> proc_outcome;
  (** [os.path.exists] *)
  path_exists : list event -> string -> bool;
  (** what [time.sleep(secs)] raises, when it does not sleep: [ValueError]
      for a negative length, [OverflowError] for a length that the clock of
      the platform cannot hold *)
  sleep_error : Q -> option exn;
  (** [datetime.now().isoformat()] *)
  now_isoformat : list event -> string;
  (** [str(e)] of an exception *)
  str_exn : exn -> string
}.

(** ** integrated_auto_responder.py: the state of an IntegratedAutoResponder *)

Definition loc : Type := nat.

Record LogEntry : Type := {
  le_timestamp : string;
  le_session : string;
  le_window : Z;
  le_response : string;
  le_status : string;
  le_category : string;
  le_description : string
}.

(** The dictionary returned by [check_for_confirmation_prompt]. *)
Record PromptInfo : Type := {
  p_response : string;
  p_category : string;
  p_description : string;
  p_pattern_matched : string
}.

(** The fields of [self], the store in which the configuration dictionary
    lives ([self.config] is a reference to it), and the history of the
    process. *)
Record state : Type := {
  config_path : string;
  config : loc;
  store : gmap loc Config;
  running : bool;
  response_log : list LogEntry;
  script_dir : string;
  history : list event
}.

Definition set_store (f : gmap loc Config -> gmap loc Config) (st : state) : state :=
  {| config_path := config_path st; config := config st; store := f (store st);
     running := running st; response_log := response_log st;
     script_dir := script_dir st; history := history st |}.

Definition set_running (b : bool) (st : state) : state :=
  {| config_path := config_path st; config := config st; store := store st;
     running := b; response_log := response_log st;
     script_dir := script_dir st; history := history st |}.

Definition set_response_log (l : list LogEntry) (st : state) : state :=
  {| config_path := config_path st; config := config st; store := store st;
     running := running st; response_log := l;
     script_dir := script_dir st; history := history st |}.

Definition set_history (h : list event) (st : state) : state :=
  {| config_path := config_path st; config := config st; store := store st;
     running := running st; response_log := response_log st;
     script_dir := script_dir st; history := h |}.

Definition empty_config : Config := {| auto_responder := None |}.

Definition empty_auto_responder : AutoResponder :=
  {| ar_enabled := None; ar_check_interval := None; ar_response_delay := None;
     ar_log_responses := None; ar_granular_controls := None;
     ar_safety_controls := None |}.

Definition empty_safety_controls : SafetyControls :=
  {| skip_dangerous_operations := None; dangerous_patterns := None;
     require_manual_approval := None |}.

(** The dictionary [self.config] refers to. A reference held by a
    responder always points into the store; the default is never used. *)
Definition read_config (st : state) : Config :=
  default empty_config (store st !! config st).

(** [cfg.get("auto_responder", {})] *)
Definition get_auto_responder (cfg : Config) : AutoResponder :=
  default empty_auto_responder (auto_responder cfg).

(** ** The monad of the methods: state and exceptions *)

Definition M (A : Type) : Type := state -> res A * state.

Definition ret {A : Type} (a : A) : M A := fun st => (Ok a, st).

Definition raise {A : Type} (e : exn) : M A := fun st => (Raise e, st).

Definition bind {A B : Type} (m : M A) (k : A -> M B) : M B :=
  fun st =>
    match m st with
    | (Ok a, st') => k a st'
    | (Raise e, st') => (Raise e, st')
    end.

Notation "x <- m ;; k" := (bind m (fun x => k))
  (at level 20, m at level 99, k at level 200, only parsing).
Notation "m ;; k" := (bind m (fun _ => k))
  (at level 100, k at level 200, only parsing, right associativity).

(** [try: body except <the exceptions [catches] accepts> as e: handler e] *)
Definition try_except {A : Type} (body : M A) (catches : exn -> bool)
  (handler : exn -> M A) : M A :=
  fun st =>
    match body st with
    | (Ok a, st') => (Ok a, st')
    | (Raise e, st') => if catches e then handler e st' else (Raise e, st')
    end.

(** A computation that only reads the state. *)
Definition lift {A : Type} (f : state -> res A) : M A := fun st => (f st, st).

Definition is_CalledProcessError (e : exn) : bool :=
  match e with
  | CalledProcessError _ _ => true
  | _ => false
  end.

(** Every member of [exn] is an [Exception]. *)
Definition is_Exception (e : exn) : bool := true.

Definition emit (ev : event) : M unit :=
  fun st => (Ok tt, set_history (history st ++ [ev]) st).

(** ** integrated_auto_responder.py: the methods *)

Section Methods.

Context `{env : Env}.

(** [subprocess.run(argv, check=check, ...).stdout]: with [check=True] a
    non-zero return code raises [CalledProcessError]. *)
Definition subprocess_run (argv : list string) (check : bool) : M string :=
  fun st =>
    let st' := set_history (history st ++ [Run argv]) st in
    match run_process (history st) argv with
    | Exited returncode stdout =>
        if (check && negb (Z.eqb returncode 0))%bool
        then (Raise (CalledProcessError argv returncode), st')
        else (Ok stdout, st')
    | NotRun e => (Raise e, st')
    end.

Definition os_path_exists (path : string) : M bool :=
  fun st =>
    (Ok (path_exists (history st) path),
     set_history (history st ++ [PathExists path]) st).

(** [time.sleep(secs)]: the call is made, and it raises when the length
    is one that [time.sleep] rejects. *)
Definition time_sleep (secs : Q) : M unit :=
  fun st =>
    let st' := set_history (history st ++ [Sleep secs]) st in
    match sleep_error secs with
    | Some e => (Raise e, st')
    | None => (Ok tt, st')
    end.

Definition is_enabled (st : state) : bool :=
  default false (ar_enabled (get_auto_responder (read_config st))).

(** [f"{session_name}:{window_index}"] *)
Definition target_of (session_name : string) (window_index : Z) : string :=
  session_name +:+ ":" +:+ PyStr.of_Z window_index.

(** [[int(w) for w in l if w]] *)
Fixpoint ints_of (l : list string) : res (list Z) :=
  match l with
  | [] => Ok []
  | w :: l' =>
      if String.eqb w "" then ints_of l'
      else res_bind (PyStr.int w) (fun n => res_bind (ints_of l') (fun ns => Ok (n :: ns)))
  end.

Definition list_windows_cmd (session_name : string) : list string :=
  ["tmux"; "list-windows"; "-t"; session_name; "-F"; "#{window_index}"].

Definition capture_cmd (session_name : string) (window_index lines : Z) : list string :=
  ["tmux"; "capture-pane"; "-t"; target_of session_name window_index;
   "-p"; "-S"; "-" +:+ PyStr.of_Z lines].

Definition send_keys_cmd (target keys : string) : list string :=
  ["tmux"; "send-keys"; "-t"; target; keys].

Definition get_session_windows (session_name : string) : M (list Z) :=
  try_except
    (stdout <- subprocess_run (list_windows_cmd session_name) true ;;
     lift (fun _ => ints_of (PyStr.split_lines (PyStr.strip stdout))))
    is_CalledProcessError
    (fun _ => ret []).

Definition capture_window_content (session_name : string) (window_index : Z)
  (lines : Z) : M string :=
  try_except
    (subprocess_run (capture_cmd session_name window_index lines) true)
    is_CalledProcessError
    (fun _ => ret "").

(** [for pattern in patterns: if re.search(pattern, content, flags): ...]:
    the first pattern that matches, if the search of no earlier pattern
    raises. *)
Fixpoint first_match (fl : Re.flags) (patterns : list string) (content : string)
  : res (option string) :=
  match patterns with
  | [] => Ok None
  | pattern :: patterns' =>
      match re_search fl pattern content with
      | Raise e => Raise e
      | Ok true => Ok (Some pattern)
      | Ok false => first_match fl patterns' content
      end
  end.

(** [cfg.get("auto_responder", {}).get("safety_controls", {})] *)
Definition get_safety_controls (cfg : Config) : SafetyControls :=
  default empty_safety_controls (ar_safety_controls (get_auto_responder cfg)).

Definition is_dangerous_operation (cfg : Config) (content : string) : res bool :=
  let safety_controls := get_safety_controls cfg in
  if negb (default true (skip_dangerous_operations safety_controls)) then Ok false
  else
    let dangerous := default [] (dangerous_patterns safety_controls) in
    let manual_approval_patterns :=
      default [] (require_manual_approval safety_controls) in
    match first_match I_flags dangerous content with
    | Raise e => Raise e
    | Ok (Some _) => Ok true
    | Ok None =>
        match first_match I_flags manual_approval_patterns content with
        | Raise e => Raise e
        | Ok (Some _) => Ok true
        | Ok None => Ok false
        end
    end.

(** The loop of [check_for_confirmation_prompt] over
    [granular_controls.items()]. *)
Fixpoint check_categories (granular_controls : list (string * CategoryConfig))
  (content : string) : res (option PromptInfo) :=
  match granular_controls with
  | [] => Ok None
  | (category_name, category_config) :: rest =>
      if negb (default false (cc_enabled category_config))
      then check_categories rest content
      else
        match first_match IM_flags (default [] (cc_patterns category_config)) content with
        | Raise e => Raise e
        | Ok (Some pattern) =>
            Ok (Some {| p_response := default "1" (cc_response category_config);
                        p_category := category_name;
                        p_description := default "" (cc_description category_config);
                        p_pattern_matched := pattern |})
        | Ok None => check_categories rest content
        end
  end.

(** A category that the loop passes over: it is disabled, or none of its
    patterns matches. *)
Definition passed_over (content : string) (entry : string * CategoryConfig) : Prop :=
  default false (cc_enabled (snd entry)) = false \/
  first_match IM_flags (default [] (cc_patterns (snd entry))) content = Ok None.

Definition get_granular_controls (cfg : Config) : list (string * CategoryConfig) :=
  default [] (ar_granular_controls (get_auto_responder cfg)).

Definition logging (st : state) : bool :=
  default true (ar_log_responses (get_auto_responder (read_config st))).

Definition log_response (session_name : string) (window_index : Z)
  (response status category description : string) : M unit :=
  fun st =>
    if negb (logging st)
    then (Ok tt, st)
    else
      let log_entry :=
        {| le_timestamp := now_isoformat (history st);
           le_session := session_name;
           le_window := window_index;
           le_response := response;
           le_status := status;
           le_category := category;
           le_description := description |} in
      (Ok tt, set_response_log (response_log st ++ [log_entry]) st).

Definition check_for_confirmation_prompt (session_name : string) (window_index : Z)
  : M (option PromptInfo) :=
  content <- capture_window_content session_name window_index 20 ;;
  if String.eqb content "" then ret None
  else
    dangerous <- lift (fun st => is_dangerous_operation (read_config st) content) ;;
    if dangerous : bool then
      log_response session_name window_index "SKIPPED" "Dangerous operation detected"
                   "" "" ;;
      ret None
    else
      lift (fun st => check_categories (get_granular_controls (read_config st)) content).

Definition send_script_of (st : state) : string :=
  PyStr.path_join (script_dir st) "send-claude-message.sh".

Definition get_response_delay (st : state) : Q :=
  default 0.5%Q (ar_response_delay (get_auto_responder (read_config st))).

Definition send_response (session_name : string) (window_index : Z)
  (response : string) : M bool :=
  send_script <- lift (fun st => Ok (send_script_of st)) ;;
  let target := target_of session_name window_index in
  try_except
    (script <- os_path_exists send_script ;;
     method <- (if script : bool then
                  subprocess_run [send_script; target; response] true ;;
                  ret "send-claude-message.sh"
                else
                  subprocess_run (send_keys_cmd target response) false ;;
                  delay <- lift (fun st => Ok (get_response_delay st)) ;;
                  time_sleep delay ;;
                  subprocess_run (send_keys_cmd target "Enter") false ;;
                  ret "direct tmux") ;;
     log_response session_name window_index response ("Success via " +:+ method) "" "" ;;
     ret true)
    is_CalledProcessError
    (fun e =>
       log_response session_name window_index response ("Error: " +:+ str_exn e) "" "" ;;
       ret false).

(** The body of the [for window_index in windows] loop, after the
    [if not self.running: break] test. *)
Definition process_window (session_name : string) (window_index : Z) : M unit :=
  prompt_info <- check_for_confirmation_prompt session_name window_index ;;
  match prompt_info with
  | Some info =>
      success <- send_response session_name window_index (p_response info) ;;
      if success : bool then
        log_response session_name window_index (p_response info) "Auto-approved"
                     (p_category info) (p_description info)
      else ret tt
  | None => ret tt
  end.

Fixpoint monitor_windows (session_name : string) (windows : list Z) : M unit :=
  match windows with
  | [] => ret tt
  | window_index :: windows' =>
      fun st =>
        if negb (running st) then (Ok tt, st)
        else (process_window session_name window_index ;;
              monitor_windows session_name windows') st
  end.

(** The body of the [while] loop: one tick. *)
Definition monitor_tick (session_name : string) (check_interval : Q) : M unit :=
  try_except
    (windows <- get_session_windows session_name ;;
     monitor_windows session_name windows ;;
     time_sleep check_interval)
    is_Exception
    (fun _ => time_sleep check_interval).

Inductive loop_end : Type := LoopExit | OutOfFuel.

Fixpoint monitor_loop (fuel : nat) (session_name : string) (check_interval : Q)
  : M loop_end :=
  match fuel with
  | O => ret OutOfFuel
  | S fuel' =>
      fun st =>
        if (running st && is_enabled st)%bool
        then (monitor_tick session_name check_interval ;;
              monitor_loop fuel' session_name check_interval) st
        else (Ok LoopExit, st)
  end.

Definition get_check_interval (st : state) : Q :=
  default 2.0%Q (ar_check_interval (get_auto_responder (read_config st))).

(** [monitor_session], run for at most [fuel] ticks. *)
Definition monitor_session (fuel : nat) (session_name : string) : M loop_end :=
  check_interval <- lift (fun st => Ok (get_check_interval st)) ;;
  monitor_loop fuel session_name check_interval.

(** *** Changing the configuration *)

(** [self.config[...] = ...]: the dictionary [self.config] refers to is
    updated where it is; the reference stays. *)
Definition update_config (f : Config -> Config) : M unit :=
  fun st => (Ok tt, set_store (fun s => <[config st := f (read_config st)]> s) st).

(** [if "auto_responder" not in self.config: self.config["auto_responder"] = {}] *)
Definition ensure_auto_responder (cfg : Config) : Config :=
  match auto_responder cfg with
  | Some _ => cfg
  | None => {| auto_responder := Some empty_auto_responder |}
  end.

Definition with_enabled (b : bool) (ar : AutoResponder) : AutoResponder :=
  {| ar_enabled := Some b; ar_check_interval := ar_check_interval ar;
     ar_response_delay := ar_response_delay ar;
     ar_log_responses := ar_log_responses ar;
     ar_granular_controls := ar_granular_controls ar;
     ar_safety_controls := ar_safety_controls ar |}.

Definition with_granular_controls (gc : list (string * CategoryConfig))
  (ar : AutoResponder) : AutoResponder :=
  {| ar_enabled := ar_enabled ar; ar_check_interval := ar_check_interval ar;
     ar_response_delay := ar_response_delay ar;
     ar_log_responses := ar_log_responses ar;
     ar_granular_controls := Some gc;
     ar_safety_controls := ar_safety_controls ar |}.

(** [self.config["auto_responder"]["enabled"] = b] *)
Definition set_enabled (b : bool) (cfg : Config) : Config :=
  {| auto_responder := Some (with_enabled b (get_auto_responder cfg)) |}.

(** [if "granular_controls" not in ...: ...["granular_controls"] = {}] *)
Definition ensure_granular_controls (cfg : Config) : Config :=
  match ar_granular_controls (get_auto_responder cfg) with
  | Some _ => cfg
  | None => {| auto_responder := Some (with_granular_controls [] (get_auto_responder cfg)) |}
  end.

Definition category_with_enabled (b : bool) (c : CategoryConfig) : CategoryConfig :=
  {| cc_enabled := Some b; cc_description := cc_description c;
     cc_patterns := cc_patterns c; cc_response := cc_response c |}.

(** [d[category]["enabled"] = b], for a key of [d]. *)
Fixpoint set_item_enabled (category : string) (b : bool)
  (d : list (string * CategoryConfig)) : list (string * CategoryConfig) :=
  match d with
  | [] => []
  | (k, v) :: d' =>
      if String.eqb k category then (k, category_with_enabled b v) :: d'
      else (k, v) :: set_item_enabled category b d'
  end.

Definition set_category_enabled (category : string) (b : bool) (cfg : Config) : Config :=
  {| auto_responder :=
       Some (with_granular_controls
               (set_item_enabled category b (get_granular_controls cfg))
               (get_auto_responder cfg)) |}.

(** The failure of the write is caught and printed. *)
Definition save_config : M unit :=
  fun st => emit (Save (config_path st) (read_config st)) st.

Definition stop : M unit := fun st => (Ok tt, set_running false st).

Definition enable : M unit :=
  update_config ensure_auto_responder ;;
  update_config (set_enabled true) ;;
  save_config.

Definition disable : M unit :=
  update_config ensure_auto_responder ;;
  update_config (set_enabled false) ;;
  save_config ;;
  stop.

Definition set_category (b : bool) (category : string) : M bool :=
  update_config ensure_auto_responder ;;
  update_config ensure_granular_controls ;;
  known <- lift (fun st => Ok (str_in category (keys (get_granular_controls (read_config st))))) ;;
  if known : bool then
    update_config (set_category_enabled category b) ;;
    save_config ;;
    ret true
  else ret false.

Definition enable_category (category : string) : M bool := set_category true category.

Definition disable_category (category : string) : M bool := set_category false category.

(** *** Status *)

Record CategoryStatus : Type := {
  cs_enabled : bool;
  cs_description : string;
  cs_patterns_count : nat
}.

Definition list_categories (st : state) : list (string * CategoryStatus) :=
  map (fun '(category, cfg) =>
         (category,
          {| cs_enabled := default false (cc_enabled cfg);
             cs_description := default "" (cc_description cfg);
             cs_patterns_count := List.length (default [] (cc_patterns cfg)) |}))
      (get_granular_controls (read_config st)).

(** [l[-n:]] *)
Definition last_n {A : Type} (n : nat) (l : list A) : list A :=
  drop (List.length l - n) l.

(** [s_config] is the live ["auto_responder"] dictionary of the
    configuration at that reference, not a copy. *)
Record Status : Type := {
  s_enabled : bool;
  s_running : bool;
  s_recent_responses : list LogEntry;
  s_categories : list (string * CategoryStatus);
  s_config : loc
}.

Definition get_status (st : state) : Status :=
  {| s_enabled := is_enabled st;
     s_running := running st;
     s_recent_responses := last_n 10 (response_log st);
     s_categories := list_categories st;
     s_config := config st |}.

End Methods.

(** ** [send_response], one call to the outside at a time

    Two monitor threads started for the same session run [send_response]
    for the same window at the same time. Each execution is cut at its
    calls to the outside ([os.path.exists], [subprocess.run],
    [time.sleep]) and at its writes to the log; between two such steps the
    other thread may run. *)

Section SendSteps.

Context `{env : Env}.

Inductive pc : Type :=
| PcStart
| PcRunScript (send_script : string)
| PcSendKeys
| PcSleep
| PcSendEnter
| PcLogSuccess (method : string)
| PcLogError (e : exn)
| PcDone (r : res bool).

(** Where an exception raised inside the [try] leads. *)
Definition on_raise (e : exn) : pc :=
  if is_CalledProcessError e then PcLogError e else PcDone (Raise e).

Definition after {A : Type} (r : res A * state) (next : A -> pc) : pc * state :=
  match r with
  | (Ok a, st') => (next a, st')
  | (Raise e, st') => (on_raise e, st')
  end.

Definition send_step (session_name : string) (window_index : Z) (response : string)
  (p : pc) (st : state) : pc * state :=
  let target := target_of session_name window_index in
  match p with
  | PcStart =>
      after (os_path_exists (send_script_of st) st)
            (fun script : bool => if script then PcRunScript (send_script_of st) else PcSendKeys)
  | PcRunScript send_script =>
      after (subprocess_run [send_script; target; response] true st)
            (fun _ => PcLogSuccess "send-claude-message.sh")
  | PcSendKeys =>
      after (subprocess_run (send_keys_cmd target response) false st)
            (fun _ => PcSleep)
  | PcSleep =>
      after (time_sleep (get_response_delay st) st) (fun _ => PcSendEnter)
  | PcSendEnter =>
      after (subprocess_run (send_keys_cmd target "Enter") false st)
            (fun _ => PcLogSuccess "direct tmux")
  | PcLogSuccess method =>
      after (log_response session_name window_index response
                          ("Success via " +:+ method) "" "" st)
            (fun _ => PcDone (Ok true))
  | PcLogError e =>
      match log_response session_name window_index response
                         ("Error: " +:+ str_exn e) "" "" st with
      | (Ok _, st') => (PcDone (Ok false), st')
      | (Raise e', st') => (PcDone (Raise e'), st')
      end
  | PcDone r => (PcDone r, st)
  end.

Fixpoint send_steps (n : nat) (session_name : string) (window_index : Z)
  (response : string) (p : pc) (st : state) : pc * state :=
  match n with
  | O => (p, st)
  | S n' =>
      let '(p', st') := send_step session_name window_index response p st in
      send_steps n' session_name window_index response p' st'
  end.

(** One execution of [send_response]: where it is, and the events it has
    caused itself. *)
Record thread : Type := {
  t_response : string;
  t_pc : pc;
  t_events : list event
}.

Definition thread_start (response : string) : thread :=
  {| t_response := response; t_pc := PcStart; t_events := [] |}.

(** One step of a thread on the shared state; the events the step adds
    to the history are the thread's. *)
Definition thread_step (session_name : string) (window_index : Z) (t : thread)
  (st : state) : thread * state :=
  let '(p', st') := send_step session_name window_index (t_response t) (t_pc t) st in
  ({| t_response := t_response t; t_pc := p';
      t_events := t_events t ++ drop (List.length (history st)) (history st') |},
   st').

(** The two executions under a schedule: [true] lets the first thread
    make its next step, [false] the second. *)
Fixpoint interleave (sched : list bool) (session_name : string) (window_index : Z)
  (t1 t2 : thread) (st : state) : thread * thread * state :=
  match sched with
  | [] => (t1, t2, st)
  | true :: sched' =>
      let '(t1', st') := thread_step session_name window_index t1 st in
      interleave sched' session_name window_index t1' t2 st'
  | false :: sched' =>
      let '(t2', st') := thread_step session_name window_index t2 st in
      interleave sched' session_name window_index t1 t2' st'
  end.

Definition is_Run (ev : event) : bool :=
  match ev with
  | Run _ => true
  | _ => false
  end.

(** The calls of a thread to [subprocess.run]. *)
Definition adapter_calls (t : thread) : list event := filter is_Run (t_events t).

Definition finished (t : thread) : bool :=
  match t_pc t with
  | PcDone _ => true
  | _ => false
  end.

End SendSteps.

(** ** Notions used to state the properties *)

(** [extends st st']: from [st] to [st'] the fields of the responder and
    the configuration are the same, and the log and the history have only
    been added to at the end. *)
Definition extends (st st' : state) : Prop :=
  config_path st' = config_path st /\
  config st' = config st /\
  store st' = store st /\
  running st' = running st /\
  script_dir st' = script_dir st /\
  response_log st `prefix_of` response_log st' /\
  history st `prefix_of` history st'.

Definition extending {A : Type} (m : M A) : Prop :=
  forall st, extends st (snd (m st)).

(** The state after [subprocess.run(argv)]. *)
Definition after_run (argv : list string) (st : state) : state :=
  set_history (history st ++ [Run argv]) st.

(** A subprocess that ran and reported a failure. *)
Definition exit_failure (o : proc_outcome) : Prop :=
  exists returncode stdout, o = Exited returncode stdout /\ returncode <> 0.

(** A sequence of calls of [log_response]. *)
Fixpoint log_all `{env : Env} (calls : list (string * Z * string * string)) : M unit :=
  match calls with
  | [] => ret tt
  | (session_name, window_index, response, status) :: calls' =>
      log_response session_name window_index response status "" "" ;;
      log_all calls'
  end.

(** The loop over the windows of a tick while other threads use the same
    responder: [others w] is what they do between the previous window and
    window [w]. *)
Fixpoint monitor_windows_with `{env : Env} (others : Z -> M unit)
  (session_name : string) (windows : list Z) : M unit :=
  match windows with
  | [] => ret tt
  | window_index :: windows' =>
      fun st =>
        match others window_index st with
        | (_, st1) =>
            if negb (running st1) then (Ok tt, st1)
            else (process_window session_name window_index ;;
                  monitor_windows_with others session_name windows') st1
        end
  end.

(** The events of a thread begin with its look for the script and the
    call that sends its response to the window: the script, or
    [send-keys] with the response. *)
Definition has_sent (script target : string) (t : thread) : Prop :=
  exists argv rest,
    t_events t = PathExists script :: Run argv :: rest /\
    (argv = [script; target; t_response t] \/
     argv = send_keys_cmd target (t_response t)).

(** A program counter past the first [subprocess.run]; an exception that
    has ended the execution is not a [CalledProcessError], which the
    method catches. *)
Definition past_send (p : pc) : Prop :=
  match p with
  | PcStart | PcRunScript _ | PcSendKeys => False
  | PcDone (Raise e) => is_CalledProcessError e = false
  | _ => True
  end.

(** How far a thread has come, by its [t_pc]: up to its first
    [subprocess.run] it has at most looked for the script; past it, it has
    sent. *)
Definition progress (script target : string) (t : thread) : Prop :=
  match t_pc t with
  | PcStart => t_events t = []
  | PcRunScript send_script => send_script = script /\ t_events t = [PathExists script]
  | PcSendKeys => t_events t = [PathExists script]
  | p => past_send p /\ has_sent script target t
  end.

(** An execution of [send_response response] that is over: it has looked
    for the script, has made the call that sends [response] to the
    window, and has ended with [True], with [False] or with an exception
    that is not a [CalledProcessError]. *)
Definition sent_and_done (script target response : string) (t : thread) : Prop :=
  exists argv rest r,
    t_events t = PathExists script :: Run argv :: rest /\
    (argv = [script; target; response] \/ argv = send_keys_cmd target response) /\
    t_pc t = PcDone r /\
    (r = Ok true \/ r = Ok false \/
     exists e, r = Raise e /\ is_CalledProcessError e = false).

(** The steps an execution has left at most. *)
Definition remaining (p : pc) : nat :=
  match p with
  | PcStart => 5
  | PcSendKeys => 4
  | PcSleep => 3
  | PcRunScript _ | PcSendEnter => 2
  | PcLogSuccess _ | PcLogError _ => 1
  | PcDone _ => 0
  end.

(** The number of steps a schedule gives to the first thread ([true])
    or to the second ([false]). *)
Definition turns (b : bool) (sched : list bool) : nat :=
  List.length (List.filter (Bool.eqb b) sched).

(** ** Environments and configurations to run the responder on *)

(** What CPython's [time.sleep] raises: the length is first converted to
    nanoseconds in a signed 64-bit integer, then tested for its sign. *)
Definition sleep_error_of (secs : Q) : option exn :=
  let longest := 9223372036.854775807%Q in
  if negb (Qle_bool (- longest)%Q secs && Qle_bool secs longest)
  then Some (OtherException "OverflowError")
  else if negb (Qle_bool 0 secs)
  then Some (ValueError "sleep length must be non-negative")
  else None.

(** An environment whose regular expressions are those of [Re] and whose
    [time.sleep] is CPython's, with a given behaviour of the subprocesses
    and of the file system. *)
Definition env_of (run : list event -> list string -> proc_outcome)
  (exists_ : list event -> string -> bool) : Env :=
  {| re_search := Re.search;
     run_process := run;
     path_exists := exists_;
     sleep_error := sleep_error_of;
     now_isoformat := fun h => "T" +:+ PyStr.of_Z (Z.of_nat (List.length h));
     str_exn := fun e =>
       match e with
       | CalledProcessError cmd rc =>
           "Command " +:+ join " " cmd +:+ " returned non-zero exit status "
           +:+ PyStr.of_Z rc
       | ValueError msg => msg
       | ReError msg => msg
       | OtherException name => name
       end |}.

(** A responder whose configuration is [cfg], at reference [0]. *)
Definition state_of (cfg : Config) : state :=
  {| config_path := "auto_responder_config.json";
     config := 0%nat;
     store := {[ 0%nat := cfg ]};
     running := true;
     response_log := [];
     script_dir := "/opt/orchestrator";
     history := [] |}.

(** The configuration of a built-in preset. *)
Definition preset_config (name : string) : Config :=
  match PermissionPresets.get_preset name with
  | Ok cfg => cfg
  | Raise _ => empty_config
  end.

(** A configuration as a file may give it: the check interval and the
    response delay are negative. *)
Definition hasty_config : Config :=
  {| auto_responder :=
       Some {| ar_enabled := Some true;
               ar_check_interval := Some (-1)%Q;
               ar_response_delay := Some (-0.5)%Q;
               ar_log_responses := Some true;
               ar_granular_controls :=
                 ar_granular_controls
                   (get_auto_responder (preset_config "pm_orchestrator"));
               ar_safety_controls := Some PermissionPresets.SAFETY_CONTROLS |} |}.

(** A configuration as a file may give it: the safety check is switched
    off, production needs manual approval, file operations are answered. *)
Definition unguarded_config : Config :=
  {| auto_responder :=
       Some {| ar_enabled := Some true;
               ar_check_interval := Some 2.0%Q;
               ar_response_delay := Some 0.5%Q;
               ar_log_responses := Some true;
               ar_granular_controls :=
                 Some [ ("file_operations",
                         {| cc_enabled := Some true;
                            cc_description := Some "File creation, editing, saving";
                            cc_patterns := Some [ "Apply these changes\?" ];
                            cc_response := Some "1" |}) ];
               ar_safety_controls :=
                 Some {| skip_dangerous_operations := Some false;
                         dangerous_patterns := Some [ "rm -rf" ];
                         require_manual_approval := Some [ "production" ] |} |} |}.

Definition newline : string := String "010"%char "".

(** A [tmux] that lists [windows], shows [screen target] in the pane
    [target] and accepts every other command; there is no
    [send-claude-message.sh]. *)
Definition tmux_env (windows : string) (screen : string -> proc_outcome) : Env :=
  env_of (fun _ argv =>
            match argv with
            | "tmux" :: "list-windows" :: _ => Exited 0 windows
            | "tmux" :: "capture-pane" :: "-t" :: target :: _ => screen target
            | _ => Exited 0 ""
            end)
         (fun _ _ => false).

(** One window, number 1, showing [text]. *)
Definition one_window (text : string) : Env :=
  tmux_env "1" (fun _ => Exited 0 text).

(** Two windows that both show a git prompt. *)
Definition git_prompts : Env :=
  tmux_env ("1" +:+ newline +:+ "2" +:+ newline) (fun _ => Exited 0 "Commit changes?").

(** Windows 1 and 2; the pane of window 1 is gone, so that its capture
    exits with an error status, and window 2 shows a prompt. *)
Definition first_pane_gone : Env :=
  tmux_env ("1" +:+ newline +:+ "2" +:+ newline)
           (fun target =>
              if String.eqb target "dev:1" then Exited 1 "can't find pane: 1"
              else Exited 0 "Apply these changes? (yes/no)").

(** No [tmux] is installed: [subprocess.run] cannot launch it. *)
Definition no_tmux : Env :=
  env_of (fun _ _ => NotRun (OtherException "FileNotFoundError")) (fun _ _ => false).

(** A [tmux] that fails every command. *)
Definition dead_tmux : Env :=
  env_of (fun _ _ => Exited 1 "no server running") (fun _ _ => false).

(** Two windows, both showing a prompt; [send-claude-message.sh] is there
    but cannot be executed. *)
Definition script_not_executable : Env :=
  env_of (fun _ argv =>
            match argv with
            | "tmux" :: "list-windows" :: _ => Exited 0 ("1" +:+ newline +:+ "2" +:+ newline)
            | "tmux" :: "capture-pane" :: _ => Exited 0 "Apply these changes? (yes/no)"
            | "tmux" :: _ => Exited 0 ""
            | _ => NotRun (OtherException "PermissionError")
            end)
         (fun _ _ => true).

(** The same two windows with a [send-claude-message.sh] that exits with
    an error status. *)
Definition script_fails : Env :=
  env_of (fun _ argv =>
            match argv with
            | "tmux" :: "list-windows" :: _ => Exited 0 ("1" +:+ newline +:+ "2" +:+ newline)
            | "tmux" :: "capture-pane" :: _ => Exited 0 "Apply these changes? (yes/no)"
            | "tmux" :: _ => Exited 0 ""
            | _ => Exited 2 "cannot reach the pane"
            end)
         (fun _ _ => true).

(** The same two windows with a [send-claude-message.sh] that works. *)
Definition script_works : Env :=
  env_of (fun _ argv =>
            match argv with
            | "tmux" :: "list-windows" :: _ => Exited 0 ("1" +:+ newline +:+ "2" +:+ newline)
            | "tmux" :: "capture-pane" :: _ => Exited 0 "Apply these changes? (yes/no)"
            | _ => Exited 0 ""
            end)
         (fun _ _ => true).

(** Another thread enables [git_operations] before window 2 is looked at. *)
Definition enable_git_before_2 `{env : Env} (w : Z) : M unit :=
  if Z.eqb w 2 then enable_category "git_operations" ;; ret tt else ret tt.

(** The two threads take turns, five steps each. *)
Definition alternating : list bool :=
  [true; false; true; false; true; false; true; false; true; false].

(** ** integrated_auto_responder.py: loading the configuration *)

(** A value as [json.load] returns it. A dictionary has distinct keys, in
    the order of the file; [JNonFinite] stands for [NaN], [Infinity] and
    [-Infinity], which [json.load] reads as numbers. *)
#[warnings="-register-all"] Inductive json : Type :=
| JNull
| JBool (b : bool)
| JNumber (q : Q)
| JNonFinite
| JString (s : string)
| JArray (items : list json)
| JObject (members : list (string * json)).

(** How [with open(self.config_path, 'r') as f: json.load(f)] ends. *)
Inductive file_outcome : Type :=
| FileNotFoundError
| JSONDecodeError (msg : string)
| Loaded (all_configs : json)
| OpenRaises (e : exn).

(** [key in v], for a string [key]: a key of a dictionary, an item of a
    list, a part of a string; the other values are not iterable. *)
Definition py_in (key : string) (v : json) : res bool :=
  match v with
  | JObject members => Ok (str_in key (keys members))
  | JArray items =>
      Ok (existsb (fun item => match item with
                               | JString s => String.eqb s key
                               | _ => false
                               end) items)
  | JString s => Ok (PyStr.contains key s)
  | JNull | JBool _ | JNumber _ | JNonFinite => Raise (OtherException "TypeError")
  end.

(** [v[key]], for a string [key]: only a dictionary is indexed by a
    string. *)
Definition py_getitem (v : json) (key : string) : res json :=
  match v with
  | JObject members =>
      match assoc key members with
      | Some x => Ok x
      | None => Raise (OtherException "KeyError")
      end
  | _ => Raise (OtherException "TypeError")
  end.

(** *** Reading a value as a configuration

    The methods of the responder are modelled on configurations whose
    entries have the types that [generate_preset_config] gives them. A
    value of the file is read as such a configuration when it is a
    dictionary and each of the entries below, if present, has its type;
    other entries are not looked at. *)

Definition as_bool (v : json) : option bool :=
  match v with JBool b => Some b | _ => None end.

Definition as_number (v : json) : option Q :=
  match v with JNumber q => Some q | _ => None end.

Definition as_string (v : json) : option string :=
  match v with JString s => Some s | _ => None end.

Definition as_strings (v : json) : option (list string) :=
  match v with JArray items => mapM as_string items | _ => None end.

Definition as_object (v : json) : option (list (string * json)) :=
  match v with JObject members => Some members | _ => None end.

(** The entry [key] of a dictionary, read with [read]: [Some None] when
    the key is absent, [None] when its value is not what [read] expects. *)
Definition field {A : Type} (read : json -> option A) (key : string)
  (members : list (string * json)) : option (option A) :=
  match assoc key members with
  | None => Some None
  | Some v => Some <$> read v
  end.

Definition category_of_json (v : json) : option CategoryConfig :=
  members ← as_object v;
  enabled ← field as_bool "enabled" members;
  description ← field as_string "description" members;
  patterns ← field as_strings "patterns" members;
  response ← field as_string "response" members;
  Some {| cc_enabled := enabled; cc_description := description;
          cc_patterns := patterns; cc_response := response |}.

Definition controls_of_json (v : json) : option (list (string * CategoryConfig)) :=
  members ← as_object v;
  mapM (fun '(name, c) => pair name <$> category_of_json c) members.

Definition safety_of_json (v : json) : option SafetyControls :=
  members ← as_object v;
  skip ← field as_bool "skip_dangerous_operations" members;
  dangerous ← field as_strings "dangerous_patterns" members;
  manual ← field as_strings "require_manual_approval" members;
  Some {| skip_dangerous_operations := skip; dangerous_patterns := dangerous;
          require_manual_approval := manual |}.

Definition auto_responder_of_json (v : json) : option AutoResponder :=
  members ← as_object v;
  enabled ← field as_bool "enabled" members;
  check_interval ← field as_number "check_interval" members;
  response_delay ← field as_number "response_delay" members;
  log_responses ← field as_bool "log_responses" members;
  granular_controls ← field controls_of_json "granular_controls" members;
  safety_controls ← field safety_of_json "safety_controls" members;
  Some {| ar_enabled := enabled; ar_check_interval := check_interval;
          ar_response_delay := response_delay; ar_log_responses := log_responses;
          ar_granular_controls := granular_controls;
          ar_safety_controls := safety_controls |}.

Definition config_of_json (v : json) : option Config :=
  members ← as_object v;
  ar ← field auto_responder_of_json "auto_responder" members;
  Some {| auto_responder := ar |}.

(** The dictionary of [get_default_config], as far as the record of the
    ["auto_responder"] dictionary goes; its entries ["patterns"] and
    ["responses"], which no method reads, follow. *)
Definition get_default_config : Config :=
  {| auto_responder :=
       Some {| ar_enabled := Some false;
               ar_check_interval := Some 2.0%Q;
               ar_response_delay := Some 0.5%Q;
               ar_log_responses := Some true;
               ar_granular_controls := None;
               ar_safety_controls := None |} |}.

Definition default_confirmation_prompts : list string :=
  [ "1\.\s*yes\s*2\.\s*no"; "Confirm\?\s*\(yes/no\)"; "Continue\?\s*\(y/n\)";
    "Proceed\?\s*\(yes/no\)" ].

Definition default_skip_patterns : list string :=
  [ "delete"; "remove"; "rm -rf"; "DROP TABLE"; "DELETE FROM" ].

Definition default_responses : list (string * string) :=
  [ ("default", "1"); ("yes_and_dont_ask", "2") ].

(** [importable]: whether [from permission_presets import get_preset]
    succeeds. *)
Definition get_preset_config (importable : bool) (preset : string) : res Config :=
  if negb importable then Ok get_default_config
  else
    match PermissionPresets.get_preset preset with
    | Ok cfg => Ok cfg
    | Raise (ValueError _) => Ok get_default_config
    | Raise e => Raise e
    end.

(** What [load_config] returns: a value of the file as it is, or the
    dictionary of [get_preset_config]. *)
Inductive loaded : Type :=
| FromFile (v : json)
| FromPreset (cfg : Config).

(** Of the exceptions raised in the [try], [FileNotFoundError] and
    [JSONDecodeError] are caught; the [TypeError] of [in] and of indexing
    is not. *)
Definition load_config (file : file_outcome) (importable : bool) (preset : string)
  : res loaded :=
  match file with
  | Loaded all_configs =>
      res_bind (py_in preset all_configs)
        (fun found : bool =>
           if found then res_bind (py_getitem all_configs preset) (fun v => Ok (FromFile v))
           else
             res_bind (py_in "auto_responder" all_configs)
               (fun single : bool =>
                  if single then Ok (FromFile all_configs)
                  else res_bind (get_preset_config importable preset)
                                (fun cfg => Ok (FromPreset cfg))))
  | FileNotFoundError | JSONDecodeError _ =>
      res_bind (get_preset_config importable preset) (fun cfg => Ok (FromPreset cfg))
  | OpenRaises e => Raise e
  end.

(** The file gives no configuration: it is missing or cannot be parsed,
    or what it holds has neither the preset nor ["auto_responder"] in
    it. *)
Definition no_entry (file : file_outcome) (preset : string) : Prop :=
  match file with
  | FileNotFoundError | JSONDecodeError _ => True
  | Loaded all_configs =>
      py_in preset all_configs = Ok false /\
      py_in "auto_responder" all_configs = Ok false
  | OpenRaises _ => False
  end.

(** The values that are not iterable: [None], [True] and [False], and
    the numbers. *)
Definition scalar (v : json) : bool :=
  match v with
  | JNull | JBool _ | JNumber _ | JNonFinite => true
  | _ => false
  end.

(** The configuration that the methods find in what was loaded. *)
Definition config_of (v : loaded) : option Config :=
  match v with
  | FromFile v => config_of_json v
  | FromPreset cfg => Some cfg
  end.

(** [IntegratedAutoResponder(config_path, preset)], in a module that lies
    in [dir]. The constructor keeps whatever [load_config] returns;
    [None] stands for a responder whose [self.config] is not a
    configuration of the types above, which [state] does not describe. *)
Definition init (path preset dir : string) (file : file_outcome) (importable : bool)
  : res (option state) :=
  res_bind (load_config file importable preset)
           (fun v =>
              Ok ((fun cfg =>
                     {| config_path := path;
                        config := 0%nat;
                        store := {[ 0%nat := cfg ]};
                        running := false;
                        response_log := [];
                        script_dir := dir;
                        history := [] |}) <$> config_of v)).

(** The thread that [start_for_session] starts runs [monitor_session]. *)
Definition start_for_session (session_name : string) : M bool :=
  fun st =>
    if negb (is_enabled st) then (Ok false, st)
    else (Ok true, set_running true st).

(** Another thread calls [stop] before window [w] is looked at. *)
Definition stop_before (w : Z) (window_index : Z) : M unit :=
  if Z.eqb window_index w then stop else ret tt.

(** ** permission_presets.py: the listing *)

Module Listing.

Import PermissionPresets.

(** The [enabled_controls] that [list_presets] collects for a preset. *)
Definition enabled_controls (name : string) : list string :=
  map fst (filter (fun entry => str_in name (enabled_in (snd entry))) GRANULAR_CONTROLS).

(** [s * n] *)
Fixpoint str_times (s : string) (n : nat) : string :=
  match n with
  | O => ""
  | S n' => s +:+ str_times s n'
  end.

(** The lines [list_presets] prints for one preset. *)
Definition preset_lines (name : string) (info : PresetInfo) : list string :=
  [ newline +:+ "📋 " +:+ name;
    "   " +:+ pi_description info;
    "   Perfect for: " +:+ perfect_for info;
    "   Risk Level: " +:+ risk_level info;
    match enabled_controls name with
    | [] => "   ✅ Enabled: general_confirmations only"
    | enabled => "   ✅ Enabled: " +:+ join ", " enabled
    end ].

(** What [list_presets] prints, one string for each [print]. *)
Definition list_presets : list string :=
  "🎯 Available Permission Presets:" :: str_times "=" 40 ::
  List.concat (map (fun '(name, info) => preset_lines name info) PRESET_INFO).

End Listing.

(** ** More notions used to state the properties *)

(** The record that [log_response] writes in the state [st]. *)
Definition log_entry_of `{env : Env} (st : state) (session : string) (window : Z)
  (response status category description : string) : LogEntry :=
  {| le_timestamp := now_isoformat (history st);
     le_session := session; le_window := window;
     le_response := response; le_status := status;
     le_category := category; le_description := description |}.

(** [m] writes nothing to the log when logging is off. *)
Definition silent {A : Type} (m : M A) : Prop :=
  forall st, logging st = false -> response_log (snd (m st)) = response_log st.

(** The events of [evs] are not captures of any pane. *)
Definition no_capture (evs : list event) : Prop :=
  forall session window lines, ~ In (Run (capture_cmd session window lines)) evs.

(** [evs] consists of one stretch for each window, in order: the capture
    of the window, then events that are not captures. *)
Fixpoint captured_in_order (session : string) (windows : list Z) (evs : list event)
  : Prop :=
  match windows with
  | [] => evs = []
  | w :: windows' =>
      exists answer rest,
        evs = (Run (capture_cmd session w 20) :: answer ++ rest)%list /\
        no_capture answer /\
        captured_in_order session windows' rest
  end.

(** What [send_response] adds to the history: the look for the script and
    the call of the script, or of [send-keys]: the response alone when
    that call raises; the response and the pause when [time.sleep]
    raises; else the response, the pause and [Enter]. *)
Definition send_events (script target response : string) (evs : list event) : Prop :=
  evs = [PathExists script; Run [script; target; response]] \/
  evs = [PathExists script; Run (send_keys_cmd target response)] \/
  exists delay,
    evs = [PathExists script; Run (send_keys_cmd target response); Sleep delay] \/
    evs = [PathExists script; Run (send_keys_cmd target response); Sleep delay;
           Run (send_keys_cmd target "Enter")].

(** * Properties *)

(** ** Dictionaries and lists of patterns *)

Lemma assoc_map {V W : Type} (f : V -> W) (key : string) (d : list (string * V)) :
  assoc key (map (fun '(k, v) => (k, f v)) d) = f <$> assoc key d.
Proof.
  induction d as [|[k v] d IH]; cbn [assoc map]; [reflexivity|].
  destruct (String.eqb k key); [reflexivity|exact IH].
Qed.

Lemma keys_map {V W : Type} (f : V -> W) (d : list (string * V)) :
  keys (map (fun '(k, v) => (k, f v)) d) = keys d.
Proof.
  unfold keys. induction d as [|[k v] d IH]; cbn [map fst]; [reflexivity|].
  f_equal. exact IH.
Qed.

Lemma assoc_In {V : Type} (key : string) (d : list (string * V)) (v : V) :
  assoc key d = Some v -> In (key, v) d.
Proof.
  induction d as [|[k w] d IH]; cbn [assoc]; [discriminate|].
  destruct (String.eqb_spec k key) as [->|Hne].
  - intros [= ->]. left. reflexivity.
  - intros Hd. right. exact (IH Hd).
Qed.

Lemma str_in_true (x : string) (l : list string) : str_in x l = true <-> In x l.
Proof.
  unfold str_in. rewrite existsb_exists. split.
  - intros (y & Hy & Heq). apply String.eqb_eq in Heq. subst y. exact Hy.
  - intros Hx. exists x. split; [exact Hx|apply String.eqb_refl].
Qed.

Section ClassifierFacts.

Context `{env : Env}.



Lemma first_match_None (fl : Re.flags) (patterns : list string) (content : string) :
  first_match fl patterns content = Ok None <->
  Forall (fun q => re_search fl q content = Ok false) patterns.
Proof.
  induction patterns as [|q patterns IH]; cbn [first_match].
  - split; [constructor|reflexivity].
  - destruct (re_search fl q content) as [[|]|e] eqn:Hq.
    + split; [discriminate|]. intros Hall. inversion Hall; congruence.
    + rewrite IH. split; [intros Hall; constructor; assumption|].
      intros Hall. inversion Hall; assumption.
    + split; [discriminate|]. intros Hall. inversion Hall; congruence.
Qed.

(** If some pattern of the list matches, [first_match] does not come back
    empty-handed: it returns a pattern or raises. *)
Lemma first_match_Exists (fl : Re.flags) (patterns : list string) (content : string) :
  Exists (fun q => re_search fl q content = Ok true) patterns ->
  first_match fl patterns content <> Ok None.
Proof.
  intros Hex Hnone. apply first_match_None in Hnone.
  apply Exists_exists in Hex as (q & Hin & Hq).
  rewrite Forall_forall in Hnone. specialize (Hnone q Hin). congruence.
Qed.

(** Whether every pattern of a list is a valid expression can be
    computed. *)
Lemma valid_patterns (fl : Re.flags) (patterns : list string) (content : string) :
  forallb (fun q => match re_search fl q content with
                    | Ok _ => true
                    | Raise _ => false
                    end) patterns = true ->
  Forall (fun q => exists b, re_search fl q content = Ok b) patterns.
Proof.
  induction patterns as [|q patterns IH]; cbn [forallb]; [constructor|].
  intros Hall. apply andb_true_iff in Hall as [Hq Hrest].
  constructor; [|exact (IH Hrest)].
  destruct (re_search fl q content) as [b|e]; [exists b; reflexivity|discriminate].
Qed.


Lemma check_categories_Some (granular : list (string * CategoryConfig))
  (content : string) (info : PromptInfo) :
  check_categories granular content = Ok (Some info) ->
  exists (before : list (string * CategoryConfig)) cc after,
    granular = (before ++ (p_category info, cc) :: after)%list /\
    Forall (passed_over content) before /\
    default false (cc_enabled cc) = true /\
    first_match IM_flags (default [] (cc_patterns cc)) content
      = Ok (Some (p_pattern_matched info)) /\
    p_response info = default "1" (cc_response cc) /\
    p_description info = default "" (cc_description cc).
Proof.
  induction granular as [|[k c] granular IH]; cbn [check_categories]; [discriminate|].
  destruct (default false (cc_enabled c)) eqn:Hen; cbn [negb].
  - destruct (first_match IM_flags (default [] (cc_patterns c)) content)
      as [[p|]|e] eqn:Hfm; [| |discriminate].
    + intros [= <-]. exists [], c, granular. cbn. repeat split; auto.
    + intros Hrest. destruct (IH Hrest) as (before & cc & after & -> & Hb & Hrest').
      exists ((k, c) :: before), cc, after. repeat split; try apply Hrest'.
      constructor; [right; exact Hfm|exact Hb].
  - intros Hrest. destruct (IH Hrest) as (before & cc & after & -> & Hb & Hrest').
    exists ((k, c) :: before), cc, after. repeat split; try apply Hrest'.
    constructor; [left; exact Hen|exact Hb].
Qed.

Lemma first_match_valid (fl : Re.flags) (patterns : list string) (content : string) :
  Forall (fun q => exists b, re_search fl q content = Ok b) patterns ->
  exists r, first_match fl patterns content = Ok r.
Proof.
  induction 1 as [|q patterns [b Hq] _ IH]; cbn [first_match]; [eexists; reflexivity|].
  rewrite Hq. destruct b; [eexists; reflexivity|exact IH].
Qed.



End ClassifierFacts.

(** ** The preset tables *)

Section Presets.

Import PermissionPresets.

Lemma get_preset_generate (name : string) :
  get_preset name = generate_preset_config name.
Proof.
  unfold get_preset, PRESETS. cbn [assoc].
  repeat match goal with
         | |- context [String.eqb ?s name] =>
             destruct (String.eqb_spec s name) as [<-|_]; [reflexivity|]
         end.
  reflexivity.
Qed.

Lemma generate_preset_config_Ok (name : string) (cfg : Config) :
  generate_preset_config name = Ok cfg ->
  exists info,
    assoc name PRESET_INFO = Some info /\
    get_granular_controls cfg =
      map (fun '(c, ctl) => (c, preset_control name ctl)) GRANULAR_CONTROLS /\
    get_auto_responder cfg =
      {| ar_enabled := Some true;
         ar_check_interval := Some (check_interval info);
         ar_response_delay := Some (response_delay info);
         ar_log_responses := Some true;
         ar_granular_controls :=
           Some (map (fun '(c, ctl) => (c, preset_control name ctl)) GRANULAR_CONTROLS);
         ar_safety_controls := Some SAFETY_CONTROLS |}.
Proof.
  unfold generate_preset_config.
  destruct (assoc name PRESET_INFO) as [info|]; [|discriminate].
  intros [= <-]. exists info. repeat split; reflexivity.
Qed.

Lemma generate_preset_config_known (name : string) :
  str_in name (keys PRESET_INFO) = true ->
  exists info, assoc name PRESET_INFO = Some info.
Proof.
  intros Hin. apply str_in_true in Hin. cbn in Hin.
  destruct Hin as [<-|[<-|[<-|[<-|[]]]]]; eexists; reflexivity.
Qed.

Lemma generate_preset_config_unknown (name : string) :
  str_in name (keys PRESET_INFO) = false ->
  exists msg, get_preset name = Raise (ValueError msg).
Proof.
  intros Hout. rewrite get_preset_generate. unfold generate_preset_config.
  destruct (assoc name PRESET_INFO) as [info|] eqn:Hinfo; [|eexists; reflexivity].
  apply assoc_In in Hinfo. apply (in_map fst) in Hinfo. cbn [fst] in Hinfo.
  apply str_in_true in Hinfo. unfold keys in Hout. congruence.
Qed.

(** C8. Every name of [PRESET_INFO] resolves, through [get_preset] as
    through [generate_preset_config], to one configuration, the same each
    time: its categories are those of the shared table, in the order of
    the table, and each has the enabled flag "the name is one of the
    category's [enabled_in]", the patterns, the response and the
    description of the table. Every other name raises [ValueError], each
    time. *)
Theorem preset_resolution_deterministic (name : string) :
  (str_in name (keys PRESET_INFO) = true ->
   exists cfg,
     get_preset name = Ok cfg /\
     generate_preset_config name = Ok cfg /\
     (forall second, get_preset name = Ok second -> second = cfg) /\
     keys (get_granular_controls cfg) = keys GRANULAR_CONTROLS /\
     forall category control,
       assoc category GRANULAR_CONTROLS = Some control ->
       exists c,
         assoc category (get_granular_controls cfg) = Some c /\
         cc_enabled c = Some (str_in name (enabled_in control)) /\
         (default false (cc_enabled c) = true <-> In name (enabled_in control)) /\
         cc_patterns c = Some (patterns control) /\
         cc_response c = Some (response control) /\
         cc_description c = Some (description control)) /\
  (str_in name (keys PRESET_INFO) = false ->
   exists msg,
     get_preset name = Raise (ValueError msg) /\
     generate_preset_config name = Raise (ValueError msg)).
Proof.
  split; intros Hname.
  - destruct (generate_preset_config_known name Hname) as [pinfo Hp].
    destruct (generate_preset_config name) as [cfg|e] eqn:Hcfg;
      [|unfold generate_preset_config in Hcfg; rewrite Hp in Hcfg; discriminate].
    exists cfg. rewrite get_preset_generate, Hcfg.
    split; [reflexivity|]. split; [reflexivity|].
    split; [intros second [= <-]; reflexivity|].
    apply generate_preset_config_Ok in Hcfg as (info & _ & -> & _).
    split; [apply (keys_map (preset_control name))|].
    intros category control Hc.
    rewrite (assoc_map (preset_control name)), Hc.
    exists (preset_control name control). cbn.
    repeat split; try reflexivity; apply str_in_true.
  - destruct (generate_preset_config_unknown name Hname) as [msg Hmsg].
    exists msg. split; [exact Hmsg|]. rewrite <- get_preset_generate. exact Hmsg.
Qed.


End Presets.

Lemma preset_resolution_deterministic_witness :
  exists cfg,
    PermissionPresets.get_preset "conservative" = Ok cfg /\
    map (fun entry => (fst entry, cc_enabled (snd entry), cc_response (snd entry)))
        (get_granular_controls cfg)
      = [ ("file_operations", Some false, Some "1");
          ("command_execution", Some false, Some "1");
          ("general_confirmations", Some true, Some "1");
          ("persistent_choices", Some false, Some "2");
          ("continue_operations", Some false, Some "1");
          ("package_management", Some false, Some "1");
          ("git_operations", Some false, Some "1") ].
Proof.
  destruct (preset_resolution_deterministic "conservative") as [Hknown _].
  destruct (Hknown eq_refl) as (cfg & Hget & _ & Hsame & _).
  exists cfg. split; [exact Hget|].
  rewrite <- (Hsame (preset_config "conservative") eq_refl). reflexivity.
Defined.


(** ** The classifier *)

Section Classifier.

Context `{env : Env}.

Lemma capture_window_content_state (session : string) (window lines : Z)
  (st st1 : state) (r : res string) :
  capture_window_content session window lines st = (r, st1) ->
  st1 = set_history (history st ++ [Run (capture_cmd session window lines)]) st.
Proof.
  unfold capture_window_content, try_except, subprocess_run, ret.
  destruct (run_process (history st) (capture_cmd session window lines))
    as [rc out|e].
  - destruct (true && negb (Z.eqb rc 0))%bool; cbn; congruence.
  - destruct (is_CalledProcessError e); congruence.
Qed.

Lemma log_response_Ok (session : string) (window : Z)
  (response status category description : string) (st : state) :
  exists st',
    log_response session window response status category description st = (Ok tt, st') /\
    history st' = history st /\ store st' = store st /\ config st' = config st /\
    running st' = running st.
Proof.
  unfold log_response.
  destruct (negb _); eexists; (split; [reflexivity|]); repeat split.
Qed.

Lemma log_response_appends (session : string) (window : Z)
  (response status category description : string) (st : state) :
  logging st = true ->
  log_response session window response status category description st =
    (Ok tt,
     set_response_log
       (response_log st ++
        [{| le_timestamp := now_isoformat (history st);
            le_session := session; le_window := window;
            le_response := response; le_status := status;
            le_category := category; le_description := description |}]) st).
Proof.
  unfold log_response. intros ->. reflexivity.
Qed.

Lemma log_response_off (session : string) (window : Z)
  (response status category description : string) (st : state) :
  logging st = false ->
  log_response session window response status category description st = (Ok tt, st).
Proof.
  unfold log_response. intros ->. reflexivity.
Qed.

(** What [check_for_confirmation_prompt] and [process_window] do once the
    safety check does not come back with [False]: no answer, and nothing
    is sent. *)
Lemma safety_hit_skips (session : string) (window : Z) (st st1 : state)
  (content : string) :
  capture_window_content session window 20 st = (Ok content, st1) ->
  is_dangerous_operation (read_config st1) content <> Ok false ->
  exists r st2,
    check_for_confirmation_prompt session window st = (r, st2) /\
    (forall info, r <> Ok (Some info)) /\
    process_window session window st = (res_bind r (fun _ => Ok tt), st2) /\
    history st2 = (history st ++ [Run (capture_cmd session window 20)])%list /\
    (content <> "" ->
     is_dangerous_operation (read_config st1) content = Ok true ->
     r = Ok None /\
     st2 = snd (log_response session window "SKIPPED" "Dangerous operation detected"
                             "" "" st1)).
Proof.
  intros Hcap Hdanger.
  pose proof (capture_window_content_state _ _ _ _ _ _ Hcap) as Hst1.
  unfold process_window, check_for_confirmation_prompt, bind. rewrite Hcap.
  destruct (String.eqb_spec content "") as [Hempty|Hfull].
  - exists (Ok None), st1. cbn. rewrite Hst1. repeat split; try discriminate;
      intros; congruence.
  - unfold lift.
    destruct (is_dangerous_operation (read_config st1) content) as [[|]|e] eqn:Hd.
    + destruct (log_response_Ok session window "SKIPPED" "Dangerous operation detected"
                                "" "" st1) as (st2 & Hlog & Hh & _).
      exists (Ok None), st2. rewrite Hlog. cbn.
      repeat split; try discriminate.
      rewrite Hh, Hst1. reflexivity.
    + contradiction.
    + exists (Raise e), st1. cbn. rewrite Hst1. repeat split; discriminate.
Qed.

Lemma is_dangerous_operation_dangerous (cfg : Config) (content : string) :
  default true (skip_dangerous_operations (get_safety_controls cfg)) = true ->
  List.Exists (fun q => re_search I_flags q content = Ok true)
              (default [] (dangerous_patterns (get_safety_controls cfg))) ->
  is_dangerous_operation cfg content <> Ok false.
Proof.
  intros Hflag Hex. unfold is_dangerous_operation. rewrite Hflag. cbn [negb].
  pose proof (first_match_Exists _ _ _ Hex) as Hfm.
  destruct (first_match I_flags _ content) as [[p|]|e]; congruence.
Qed.

Lemma is_dangerous_operation_dangerous_true (cfg : Config) (content : string) :
  default true (skip_dangerous_operations (get_safety_controls cfg)) = true ->
  List.Exists (fun q => re_search I_flags q content = Ok true)
              (default [] (dangerous_patterns (get_safety_controls cfg))) ->
  Forall (fun q => exists b, re_search I_flags q content = Ok b)
         (default [] (dangerous_patterns (get_safety_controls cfg))) ->
  is_dangerous_operation cfg content = Ok true.
Proof.
  intros Hflag Hex Hvalid. unfold is_dangerous_operation. rewrite Hflag. cbn [negb].
  pose proof (first_match_Exists _ _ _ Hex) as Hfm.
  destruct (first_match I_flags _ content) as [[p|]|e] eqn:Hres; [reflexivity|congruence|].
  exfalso. clear Hfm Hex.
  induction Hvalid as [|q l [b Hq] _ IH]; cbn [first_match] in Hres; [discriminate|].
  rewrite Hq in Hres. destruct b; [discriminate|]. exact (IH Hres).
Qed.

(** C1. With [skip_dangerous_operations] set (or absent, which counts as
    set) and a captured text that one of the dangerous patterns matches,
    [check_for_confirmation_prompt] never returns an answer, whatever the
    categories are, and processing the window makes no call to tmux
    beyond the capture itself. When the text is not empty and every
    dangerous pattern is a valid expression, the result is [None] and the
    capture is logged as skipped. *)
Theorem dangerous_text_is_never_answered (session : string) (window : Z)
  (st st1 : state) (content : string) :
  capture_window_content session window 20 st = (Ok content, st1) ->
  default true (skip_dangerous_operations (get_safety_controls (read_config st1))) = true ->
  List.Exists (fun q => re_search I_flags q content = Ok true)
              (default [] (dangerous_patterns (get_safety_controls (read_config st1)))) ->
  exists r st2,
    check_for_confirmation_prompt session window st = (r, st2) /\
    (forall info, r <> Ok (Some info)) /\
    process_window session window st = (res_bind r (fun _ => Ok tt), st2) /\
    history st2 = (history st ++ [Run (capture_cmd session window 20)])%list /\
    (content <> "" ->
     Forall (fun q => exists b, re_search I_flags q content = Ok b)
            (default [] (dangerous_patterns (get_safety_controls (read_config st1)))) ->
     r = Ok None /\
     st2 = snd (log_response session window "SKIPPED" "Dangerous operation detected"
                             "" "" st1)).
Proof.
  intros Hcap Hflag Hex.
  destruct (safety_hit_skips session window st st1 content Hcap
              (is_dangerous_operation_dangerous _ _ Hflag Hex))
    as (r & st2 & Hcheck & Hnone & Hproc & Hhist & Hlog).
  exists r, st2. repeat split; try assumption.
  - apply Hlog; [assumption|].
    apply is_dangerous_operation_dangerous_true; assumption.
  - apply Hlog; [assumption|].
    apply is_dangerous_operation_dangerous_true; assumption.
Qed.


Lemma is_dangerous_operation_manual (cfg : Config) (content : string) :
  default true (skip_dangerous_operations (get_safety_controls cfg)) = true ->
  List.Exists (fun q => re_search I_flags q content = Ok true)
              (default [] (require_manual_approval (get_safety_controls cfg))) ->
  is_dangerous_operation cfg content <> Ok false.
Proof.
  intros Hflag Hex. unfold is_dangerous_operation. rewrite Hflag. cbn [negb].
  pose proof (first_match_Exists _ _ _ Hex) as Hfm.
  destruct (first_match I_flags (default [] (dangerous_patterns _)) content)
    as [[p|]|e]; [discriminate| |discriminate].
  destruct (first_match I_flags _ content) as [[p|]|e]; congruence.
Qed.

Lemma is_dangerous_operation_manual_true (cfg : Config) (content : string) :
  default true (skip_dangerous_operations (get_safety_controls cfg)) = true ->
  List.Exists (fun q => re_search I_flags q content = Ok true)
              (default [] (require_manual_approval (get_safety_controls cfg))) ->
  Forall (fun q => exists b, re_search I_flags q content = Ok b)
         (default [] (dangerous_patterns (get_safety_controls cfg))) ->
  Forall (fun q => exists b, re_search I_flags q content = Ok b)
         (default [] (require_manual_approval (get_safety_controls cfg))) ->
  is_dangerous_operation cfg content = Ok true.
Proof.
  intros Hflag Hex Hdanger Hmanual. unfold is_dangerous_operation.
  rewrite Hflag. cbn [negb].
  destruct (first_match_valid _ _ _ Hdanger) as [[p|] ->]; [reflexivity|].
  pose proof (first_match_Exists _ _ _ Hex) as Hfm.
  destruct (first_match_valid _ _ _ Hmanual) as [[p|] Hres]; rewrite Hres in *;
    [reflexivity|congruence].
Qed.

(** C4, as the code has it. With [skip_dangerous_operations] set (or
    absent), a captured text that one of the [require_manual_approval]
    patterns matches is never answered and nothing is sent for it,
    whatever the categories are; when the text is not empty and the
    safety patterns are valid expressions, the result is [None] and the
    capture is recorded as a dangerous pattern is: one record with the
    response "SKIPPED" while logging is on, none while it is off. With
    the flag false the safety check reports nothing for any text: neither
    list is scanned. *)
Theorem manual_approval_depends_on_flag (session : string) (window : Z)
  (st st1 : state) (content : string) :
  capture_window_content session window 20 st = (Ok content, st1) ->
  List.Exists (fun q => re_search I_flags q content = Ok true)
              (default [] (require_manual_approval (get_safety_controls (read_config st1)))) ->
  (default true (skip_dangerous_operations (get_safety_controls (read_config st1))) = true ->
   exists r st2,
     check_for_confirmation_prompt session window st = (r, st2) /\
     (forall info, r <> Ok (Some info)) /\
     process_window session window st = (res_bind r (fun _ => Ok tt), st2) /\
     history st2 = (history st ++ [Run (capture_cmd session window 20)])%list /\
     (content <> "" ->
      Forall (fun q => exists b, re_search I_flags q content = Ok b)
             (default [] (dangerous_patterns (get_safety_controls (read_config st1)))) ->
      Forall (fun q => exists b, re_search I_flags q content = Ok b)
             (default [] (require_manual_approval (get_safety_controls (read_config st1)))) ->
      r = Ok None /\
      st2 = snd (log_response session window "SKIPPED" "Dangerous operation detected"
                              "" "" st1) /\
      (logging st = true ->
       response_log st2
         = (response_log st ++
            [log_entry_of st1 session window "SKIPPED" "Dangerous operation detected"
                          "" ""])%list) /\
      (logging st = false -> response_log st2 = response_log st))) /\
  (default true (skip_dangerous_operations (get_safety_controls (read_config st1))) = false ->
   (forall text, is_dangerous_operation (read_config st1) text = Ok false) /\
   check_for_confirmation_prompt session window st =
     (if String.eqb content "" then Ok None
      else check_categories (get_granular_controls (read_config st1)) content, st1)).
Proof.
  intros Hcap Hex. split.
  - intros Hflag.
    destruct (safety_hit_skips session window st st1 content Hcap
                (is_dangerous_operation_manual _ _ Hflag Hex))
      as (r & st2 & Hcheck & Hnone & Hproc & Hhist & Hskip).
    exists r, st2. repeat split; try assumption.
    all: pose proof (capture_window_content_state _ _ _ _ _ _ Hcap) as Hst1.
    all: (destruct Hskip as [Hr Hst2];
          [assumption|apply is_dangerous_operation_manual_true; assumption|]).
    + exact Hr.
    + exact Hst2.
    + intros Hon. assert (logging st1 = true) as Hon1 by (rewrite Hst1; exact Hon).
      rewrite Hst2, (log_response_appends _ _ _ _ _ _ _ Hon1), Hst1. reflexivity.
    + intros Hoff. assert (logging st1 = false) as Hoff1 by (rewrite Hst1; exact Hoff).
      rewrite Hst2, (log_response_off _ _ _ _ _ _ _ Hoff1), Hst1. reflexivity.
  - intros Hflag.
    assert (forall text, is_dangerous_operation (read_config st1) text = Ok false) as Hoff.
    { intros text. unfold is_dangerous_operation. rewrite Hflag. reflexivity. }
    split; [exact Hoff|].
    unfold check_for_confirmation_prompt, bind. rewrite Hcap.
    destruct (String.eqb content ""); [reflexivity|].
    unfold lift. rewrite Hoff. reflexivity.
Qed.

End Classifier.

Lemma dangerous_text_is_never_answered_witness :
  let env := one_window "Apply these changes? rm -rf /data (yes/no)" in
  let st := state_of (preset_config "autonomous_agent") in
  exists r st2,
    check_for_confirmation_prompt "dev" 1 st = (r, st2) /\
    r = Ok None /\
    process_window "dev" 1 st = (Ok tt, st2) /\
    history st2 = [Run (capture_cmd "dev" 1 20)] /\
    map le_status (response_log st2) = ["Dangerous operation detected"].
Proof.
  intros env st.
  destruct (@dangerous_text_is_never_answered env "dev" 1 st
              (snd (capture_window_content "dev" 1 20 st))
              "Apply these changes? rm -rf /data (yes/no)")
    as (r & st2 & Hcheck & _ & Hproc & Hhist & Hlog).
  - vm_compute. reflexivity.
  - reflexivity.
  - do 2 apply Exists_cons_tl. apply Exists_cons_hd. vm_compute. reflexivity.
  - destruct Hlog as [-> ->].
    + discriminate.
    + apply valid_patterns. vm_compute. reflexivity.
    + eexists _, _. split; [exact Hcheck|]. split; [reflexivity|].
      split; [exact Hproc|]. split; vm_compute; reflexivity.
Defined.


Lemma manual_approval_depends_on_flag_witness :
  let env := one_window "Deploy to production? (yes/no)" in
  let st := state_of (preset_config "pm_orchestrator") in
  exists st2,
    check_for_confirmation_prompt "dev" 1 st = (Ok None, st2) /\
    history st2 = [Run (capture_cmd "dev" 1 20)] /\
    map (fun entry => (le_response entry, le_status entry)) (response_log st2)
      = [("SKIPPED", "Dangerous operation detected")].
Proof.
  intros env st.
  destruct (@manual_approval_depends_on_flag env "dev" 1 st
              (snd (capture_window_content "dev" 1 20 st))
              "Deploy to production? (yes/no)") as [Hon _].
  - vm_compute. reflexivity.
  - apply Exists_cons_hd. vm_compute. reflexivity.
  - destruct (Hon eq_refl) as (r & st2 & Hcheck & _ & _ & Hhist & Hlog).
    destruct Hlog as (-> & _ & Hentry & _).
    + discriminate.
    + apply valid_patterns. vm_compute. reflexivity.
    + apply valid_patterns. vm_compute. reflexivity.
    + exists st2. split; [exact Hcheck|]. split; [exact Hhist|].
      rewrite (Hentry eq_refl). reflexivity.
Defined.

(** C4, as stated, fails: with [skip_dangerous_operations] false, a text
    that a [require_manual_approval] pattern matches is answered, and the
    answer is sent. *)
Lemma manual_approval_not_scanned_when_flag_off :
  let text := "Deploy to production. Apply these changes? (yes/no)" in
  let env := one_window text in
  let st := state_of unguarded_config in
  require_manual_approval (get_safety_controls (read_config st)) = Some ["production"] /\
  re_search I_flags "production" text = Ok true /\
  fst (check_for_confirmation_prompt "dev" 1 st) =
    Ok (Some {| p_response := "1";
                p_category := "file_operations";
                p_description := "File creation, editing, saving";
                p_pattern_matched := "Apply these changes\?" |}) /\
  history (snd (process_window "dev" 1 st)) =
    [ Run (capture_cmd "dev" 1 20);
      PathExists "/opt/orchestrator/send-claude-message.sh";
      Run (send_keys_cmd "dev:1" "1");
      Sleep 0.5%Q;
      Run (send_keys_cmd "dev:1" "Enter") ].
Proof.
  cbv zeta. repeat split; vm_compute; reflexivity.
Qed.


(** ** What the methods leave alone *)

Section Frame.

Context `{env : Env}.

Lemma extends_refl (st : state) : extends st st.
Proof. unfold extends. repeat split; reflexivity. Qed.

Lemma extends_trans (st1 st2 st3 : state) :
  extends st1 st2 -> extends st2 st3 -> extends st1 st3.
Proof.
  unfold extends.
  intros (Ha & Hb & Hc & Hd & He & Hl & Hh) (Ha' & Hb' & Hc' & Hd' & He' & Hl' & Hh').
  repeat split; try congruence; etrans; eassumption.
Qed.

Lemma extends_read_config (st st' : state) :
  extends st st' -> read_config st' = read_config st.
Proof.
  intros (_ & Hc & Hs & _). unfold read_config. rewrite Hc, Hs. reflexivity.
Qed.

Lemma extends_is_enabled (st st' : state) :
  extends st st' -> is_enabled st' = is_enabled st.
Proof.
  intros Hext. unfold is_enabled. rewrite (extends_read_config _ _ Hext). reflexivity.
Qed.

Lemma extends_history_In (st st' : state) (ev : event) :
  extends st st' -> In ev (history st) -> In ev (history st').
Proof.
  intros (_ & _ & _ & _ & _ & _ & [k Hk]) Hin. rewrite Hk.
  apply in_or_app. left. exact Hin.
Qed.

Lemma extends_set_history (st : state) (evs : list event) :
  extends st (set_history (history st ++ evs) st).
Proof.
  unfold extends. cbn. repeat split; try reflexivity. apply prefix_app_r. reflexivity.
Qed.

Lemma extends_set_response_log (st : state) (entries : list LogEntry) :
  extends st (set_response_log (response_log st ++ entries) st).
Proof.
  unfold extends. cbn. repeat split; try reflexivity. apply prefix_app_r. reflexivity.
Qed.

Lemma extending_ret {A : Type} (a : A) : extending (ret a).
Proof. intros st. apply extends_refl. Qed.

Lemma extending_lift {A : Type} (f : state -> res A) : extending (lift f).
Proof. intros st. apply extends_refl. Qed.

(** The rest of a computation, from the state its first part leaves. *)
Lemma bind_extends {A B : Type} (m : M A) (k : A -> M B) (st : state) :
  (forall a, extending (k a)) ->
  extends (snd (m st)) (snd (bind m k st)).
Proof.
  intros Hk. unfold bind. destruct (m st) as [[a|e] st']; cbn [snd].
  - apply Hk.
  - apply extends_refl.
Qed.

Lemma extending_bind {A B : Type} (m : M A) (k : A -> M B) :
  extending m -> (forall a, extending (k a)) -> extending (bind m k).
Proof.
  intros Hm Hk st. eapply extends_trans; [apply Hm|]. apply bind_extends. exact Hk.
Qed.

Lemma extending_try_except {A : Type} (body : M A) (catches : exn -> bool)
  (handler : exn -> M A) :
  extending body -> (forall e, extending (handler e)) ->
  extending (try_except body catches handler).
Proof.
  intros Hbody Hhandler st. unfold try_except.
  specialize (Hbody st). destruct (body st) as [[a|e] st']; cbn [snd] in *.
  - exact Hbody.
  - destruct (catches e); [|exact Hbody].
    eapply extends_trans; [exact Hbody|]. apply Hhandler.
Qed.

Lemma extending_emit (ev : event) : extending (emit ev).
Proof. intros st. apply extends_set_history. Qed.

(** [time.sleep] leaves its call in the history, whether it raises or
    not. *)
Lemma time_sleep_state (secs : Q) (st : state) :
  snd (time_sleep secs st) = set_history (history st ++ [Sleep secs]) st.
Proof. unfold time_sleep. destruct (sleep_error secs); reflexivity. Qed.

Lemma time_sleep_accepted (secs : Q) (st : state) :
  sleep_error secs = None ->
  time_sleep secs st = (Ok tt, set_history (history st ++ [Sleep secs]) st).
Proof. unfold time_sleep. intros ->. reflexivity. Qed.

Lemma time_sleep_rejected (secs : Q) (e : exn) (st : state) :
  sleep_error secs = Some e ->
  time_sleep secs st = (Raise e, set_history (history st ++ [Sleep secs]) st).
Proof. unfold time_sleep. intros ->. reflexivity. Qed.

Lemma extending_time_sleep (secs : Q) : extending (time_sleep secs).
Proof. intros st. rewrite time_sleep_state. apply extends_set_history. Qed.

Lemma subprocess_run_state (argv : list string) (check : bool) (st : state) :
  snd (subprocess_run argv check st) = after_run argv st.
Proof.
  unfold subprocess_run.
  destruct (run_process (history st) argv) as [rc out|e]; [|reflexivity].
  destruct (check && negb (Z.eqb rc 0))%bool; reflexivity.
Qed.

Lemma extending_subprocess_run (argv : list string) (check : bool) :
  extending (subprocess_run argv check).
Proof. intros st. rewrite subprocess_run_state. apply extends_set_history. Qed.

Lemma extending_os_path_exists (path : string) : extending (os_path_exists path).
Proof. intros st. apply extends_set_history. Qed.

Lemma extending_log_response (session : string) (window : Z)
  (response status category description : string) :
  extending (log_response session window response status category description).
Proof.
  intros st. unfold log_response. destruct (negb _); cbn [snd].
  - apply extends_refl.
  - apply extends_set_response_log.
Qed.

Lemma extending_capture_window_content (session : string) (window lines : Z) :
  extending (capture_window_content session window lines).
Proof.
  apply extending_try_except; [apply extending_subprocess_run|].
  intros e. apply extending_ret.
Qed.

Lemma extending_get_session_windows (session : string) :
  extending (get_session_windows session).
Proof.
  apply extending_try_except.
  - apply extending_bind; [apply extending_subprocess_run|].
    intros out. apply extending_lift.
  - intros e. apply extending_ret.
Qed.

Lemma extending_check_for_confirmation_prompt (session : string) (window : Z) :
  extending (check_for_confirmation_prompt session window).
Proof.
  apply extending_bind; [apply extending_capture_window_content|].
  intros content. destruct (String.eqb content ""); [apply extending_ret|].
  apply extending_bind; [apply extending_lift|].
  intros [|]; [|apply extending_lift].
  apply extending_bind; [apply extending_log_response|].
  intros _. apply extending_ret.
Qed.

Lemma extending_send_response (session : string) (window : Z) (response : string) :
  extending (send_response session window response).
Proof.
  apply extending_bind; [apply extending_lift|]. intros send_script.
  apply extending_try_except.
  - apply extending_bind; [apply extending_os_path_exists|]. intros script.
    apply extending_bind.
    + destruct script.
      * apply extending_bind; [apply extending_subprocess_run|].
        intros _. apply extending_ret.
      * apply extending_bind; [apply extending_subprocess_run|]. intros _.
        apply extending_bind; [apply extending_lift|]. intros delay.
        apply extending_bind; [apply extending_time_sleep|]. intros _.
        apply extending_bind; [apply extending_subprocess_run|]. intros _.
        apply extending_ret.
    + intros method. apply extending_bind; [apply extending_log_response|].
      intros _. apply extending_ret.
  - intros e. apply extending_bind; [apply extending_log_response|].
    intros _. apply extending_ret.
Qed.

Lemma extending_process_window (session : string) (window : Z) :
  extending (process_window session window).
Proof.
  apply extending_bind; [apply extending_check_for_confirmation_prompt|].
  intros [info|]; [|apply extending_ret].
  apply extending_bind; [apply extending_send_response|].
  intros [|]; [apply extending_log_response|apply extending_ret].
Qed.

Lemma extending_monitor_windows (session : string) (windows : list Z) :
  extending (monitor_windows session windows).
Proof.
  induction windows as [|w windows IH]; cbn [monitor_windows].
  - apply extending_ret.
  - intros st. destruct (negb (running st)); [apply extends_refl|].
    apply extending_bind; [apply extending_process_window|].
    intros _. exact IH.
Qed.

Lemma extending_monitor_tick (session : string) (check_interval : Q) :
  extending (monitor_tick session check_interval).
Proof.
  apply extending_try_except.
  - apply extending_bind; [apply extending_get_session_windows|]. intros windows.
    apply extending_bind; [apply extending_monitor_windows|]. intros _.
    apply extending_time_sleep.
  - intros e. apply extending_time_sleep.
Qed.

Lemma extending_monitor_loop (fuel : nat) (session : string) (check_interval : Q) :
  extending (monitor_loop fuel session check_interval).
Proof.
  induction fuel as [|fuel IH]; cbn [monitor_loop].
  - apply extending_ret.
  - intros st. destruct (running st && is_enabled st)%bool; [|apply extends_refl].
    apply extending_bind; [apply extending_monitor_tick|].
    intros _. exact IH.
Qed.

End Frame.

(** ** The tmux wrappers *)

Section Wrappers.

Context `{env : Env}.

Lemma get_session_windows_failure (session : string) (st : state) :
  exit_failure (run_process (history st) (list_windows_cmd session)) ->
  get_session_windows session st = (Ok [], after_run (list_windows_cmd session) st).
Proof.
  intros (rc & out & Hrun & Hrc).
  unfold get_session_windows, try_except, bind, subprocess_run. rewrite Hrun.
  apply Z.eqb_neq in Hrc. rewrite Hrc. reflexivity.
Qed.

Lemma get_session_windows_no_window (session : string) (st : state) :
  run_process (history st) (list_windows_cmd session) = Exited 0 "" ->
  get_session_windows session st = (Ok [], after_run (list_windows_cmd session) st).
Proof.
  intros Hrun.
  unfold get_session_windows, try_except, bind, subprocess_run. rewrite Hrun.
  reflexivity.
Qed.

Lemma capture_window_content_failure (session : string) (window lines : Z) (st : state) :
  exit_failure (run_process (history st) (capture_cmd session window lines)) ->
  capture_window_content session window lines st
    = (Ok "", after_run (capture_cmd session window lines) st).
Proof.
  intros (rc & out & Hrun & Hrc).
  unfold capture_window_content, try_except, subprocess_run. rewrite Hrun.
  apply Z.eqb_neq in Hrc. rewrite Hrc. reflexivity.
Qed.

Lemma capture_window_content_blank (session : string) (window lines : Z) (st : state) :
  run_process (history st) (capture_cmd session window lines) = Exited 0 "" ->
  capture_window_content session window lines st
    = (Ok "", after_run (capture_cmd session window lines) st).
Proof.
  intros Hrun.
  unfold capture_window_content, try_except, subprocess_run. rewrite Hrun.
  reflexivity.
Qed.

(** The wrappers catch [CalledProcessError] and nothing else. *)
Lemma capture_window_content_raises (session : string) (window lines : Z) (st : state)
  (e : exn) :
  run_process (history st) (capture_cmd session window lines) = NotRun e ->
  is_CalledProcessError e = false ->
  capture_window_content session window lines st
    = (Raise e, after_run (capture_cmd session window lines) st).
Proof.
  intros Hrun Hother.
  unfold capture_window_content, try_except, subprocess_run. rewrite Hrun, Hother.
  reflexivity.
Qed.

Lemma empty_capture_is_ignored (session : string) (window : Z) (st st1 : state) :
  capture_window_content session window 20 st = (Ok "", st1) ->
  check_for_confirmation_prompt session window st = (Ok None, st1) /\
  process_window session window st = (Ok tt, st1).
Proof.
  intros Hcap.
  unfold process_window, check_for_confirmation_prompt, bind. rewrite Hcap.
  split; reflexivity.
Qed.

(** What the comprehension over the lines of the listing raises is the
    [ValueError] of [int]. *)
Lemma ints_of_raises (l : list string) (e : exn) :
  ints_of l = Raise e -> exists msg, e = ValueError msg.
Proof.
  induction l as [|w l IH]; cbn [ints_of]; [discriminate|].
  destruct (String.eqb w ""); [exact IH|].
  unfold PyStr.int.
  destruct (match PyStr.chars (PyStr.strip w) with
            | [] => _
            | c :: l0 => _
            end) as [n|]; cbn [res_bind].
  - destruct (ints_of l) as [ns|e']; cbn [res_bind]; [discriminate|].
    intros [= <-]. apply IH. reflexivity.
  - intros [= <-]. eexists. reflexivity.
Qed.

(** An exception of [subprocess.run] that is not a [CalledProcessError]
    passes through the wrappers, and so does the [ValueError] of [int] on
    a line of the listing that is not a number. *)
Lemma get_session_windows_raises (session : string) (st : state) (e : exn) :
  run_process (history st) (list_windows_cmd session) = NotRun e ->
  is_CalledProcessError e = false ->
  get_session_windows session st = (Raise e, after_run (list_windows_cmd session) st).
Proof.
  intros Hrun Hother.
  unfold get_session_windows, try_except, bind, subprocess_run. rewrite Hrun, Hother.
  reflexivity.
Qed.

Lemma get_session_windows_not_a_number (session : string) (st : state) (out : string)
  (e : exn) :
  run_process (history st) (list_windows_cmd session) = Exited 0 out ->
  ints_of (PyStr.split_lines (PyStr.strip out)) = Raise e ->
  get_session_windows session st = (Raise e, after_run (list_windows_cmd session) st).
Proof.
  intros Hrun Hints.
  unfold get_session_windows, try_except, bind, subprocess_run, lift. rewrite Hrun.
  cbn [Z.eqb negb andb]. rewrite Hints.
  destruct (ints_of_raises _ _ Hints) as [msg ->]. reflexivity.
Qed.

(** C9, as the code has it. When the tmux command exits with an error
    status, [get_session_windows] returns the empty list and
    [capture_window_content] the empty string, without raising, and in
    the very state in which a session without windows, or an empty pane,
    would leave the responder; for an empty capture
    [check_for_confirmation_prompt] returns [None] at once, and
    processing the window sends nothing and logs nothing. The wrappers
    catch nothing else: when [subprocess.run] raises another exception
    (tmux cannot be launched), or a line of the listing is not a number,
    the exception leaves the wrapper, and that of a capture leaves
    [check_for_confirmation_prompt] and the processing of the window. *)
Theorem tmux_failure_reads_as_empty (session : string) (window : Z) (st : state) :
  (exit_failure (run_process (history st) (list_windows_cmd session)) \/
   run_process (history st) (list_windows_cmd session) = Exited 0 "" ->
   get_session_windows session st = (Ok [], after_run (list_windows_cmd session) st)) /\
  (exit_failure (run_process (history st) (capture_cmd session window 20)) \/
   run_process (history st) (capture_cmd session window 20) = Exited 0 "" ->
   capture_window_content session window 20 st
     = (Ok "", after_run (capture_cmd session window 20) st) /\
   check_for_confirmation_prompt session window st
     = (Ok None, after_run (capture_cmd session window 20) st) /\
   process_window session window st
     = (Ok tt, after_run (capture_cmd session window 20) st) /\
   response_log (after_run (capture_cmd session window 20) st) = response_log st /\
   history (after_run (capture_cmd session window 20) st)
     = (history st ++ [Run (capture_cmd session window 20)])%list) /\
  (forall e,
      run_process (history st) (list_windows_cmd session) = NotRun e ->
      is_CalledProcessError e = false ->
      get_session_windows session st
        = (Raise e, after_run (list_windows_cmd session) st)) /\
  (forall out e,
      run_process (history st) (list_windows_cmd session) = Exited 0 out ->
      ints_of (PyStr.split_lines (PyStr.strip out)) = Raise e ->
      get_session_windows session st
        = (Raise e, after_run (list_windows_cmd session) st) /\
      exists msg, e = ValueError msg) /\
  (forall e,
      run_process (history st) (capture_cmd session window 20) = NotRun e ->
      is_CalledProcessError e = false ->
      capture_window_content session window 20 st
        = (Raise e, after_run (capture_cmd session window 20) st) /\
      check_for_confirmation_prompt session window st
        = (Raise e, after_run (capture_cmd session window 20) st) /\
      process_window session window st
        = (Raise e, after_run (capture_cmd session window 20) st)).
Proof.
  split; [|split; [|split; [|split]]].
  - intros [Hfail|Hnone].
    + apply get_session_windows_failure. exact Hfail.
    + apply get_session_windows_no_window. exact Hnone.
  - intros Hcases.
    assert (capture_window_content session window 20 st
              = (Ok "", after_run (capture_cmd session window 20) st)) as Hcap.
    { destruct Hcases as [Hfail|Hblank].
      - apply capture_window_content_failure. exact Hfail.
      - apply capture_window_content_blank. exact Hblank. }
    destruct (empty_capture_is_ignored _ _ _ _ Hcap) as [Hcheck Hproc].
    repeat split; assumption.
  - intros e. apply get_session_windows_raises.
  - intros out e Hrun Hints.
    split; [apply (get_session_windows_not_a_number _ _ _ _ Hrun Hints)|].
    apply (ints_of_raises _ _ Hints).
  - intros e Hrun Hother.
    pose proof (capture_window_content_raises session window 20 st e Hrun Hother) as Hcap.
    split; [exact Hcap|].
    unfold process_window, check_for_confirmation_prompt, bind. rewrite Hcap.
    split; reflexivity.
Qed.

End Wrappers.

Lemma tmux_failure_reads_as_empty_witness :
  let st := state_of (preset_config "pm_orchestrator") in
  fst (@get_session_windows dead_tmux "dev" st) = Ok [] /\
  fst (@capture_window_content dead_tmux "dev" 1 20 st) = Ok "" /\
  @process_window dead_tmux "dev" 1 st = (Ok tt, after_run (capture_cmd "dev" 1 20) st) /\
  (exists msg,
      fst (@get_session_windows (tmux_env "no server running" (fun _ => Exited 0 ""))
             "dev" st)
        = Raise (ValueError msg)) /\
  fst (@process_window no_tmux "dev" 1 st) = Raise (OtherException "FileNotFoundError").
Proof.
  intros st.
  destruct (@tmux_failure_reads_as_empty dead_tmux "dev" 1 st) as (Hlist & Hcap & _).
  destruct (@tmux_failure_reads_as_empty
              (tmux_env "no server running" (fun _ => Exited 0 "")) "dev" 1 st)
    as (_ & _ & _ & Hint & _).
  destruct (@tmux_failure_reads_as_empty no_tmux "dev" 1 st) as (_ & _ & _ & _ & Hraise).
  assert (forall argv, exit_failure (@run_process dead_tmux (history st) argv)) as Hdead.
  { intros argv. exists 1, "no server running". split; [reflexivity|discriminate]. }
  rewrite (Hlist (or_introl (Hdead _))).
  destruct (Hcap (or_introl (Hdead _))) as (-> & _ & -> & _).
  destruct (Hint "no server running"
              (ValueError "invalid literal for int() with base 10: no server running")
              eq_refl eq_refl) as [-> _].
  destruct (Hraise (OtherException "FileNotFoundError") eq_refl eq_refl) as (_ & _ & ->).
  repeat split. eexists. reflexivity.
Defined.

(** C9, as stated, fails: the wrappers are not total. When tmux cannot be
    launched, [subprocess.run] raises [FileNotFoundError], which neither
    wrapper catches: both raise, and so does the processing of a window. *)
Lemma wrappers_raise_when_tmux_cannot_be_launched :
  let env := no_tmux in
  let st := state_of (preset_config "pm_orchestrator") in
  run_process (history st) (list_windows_cmd "dev")
    = NotRun (OtherException "FileNotFoundError") /\
  fst (get_session_windows "dev" st) = Raise (OtherException "FileNotFoundError") /\
  fst (capture_window_content "dev" 1 20 st) = Raise (OtherException "FileNotFoundError") /\
  fst (process_window "dev" 1 st) = Raise (OtherException "FileNotFoundError").
Proof.
  cbv zeta. repeat split; vm_compute; reflexivity.
Qed.

(** ** The response log *)

Section ResponseLog.

Context `{env : Env}.

Lemma log_all_length (calls : list (string * Z * string * string)) (st : state) :
  logging st = true ->
  fst (log_all calls st) = Ok tt /\
  List.length (response_log (snd (log_all calls st)))
    = (List.length (response_log st) + List.length calls)%nat /\
  response_log st `prefix_of` response_log (snd (log_all calls st)).
Proof.
  revert st. induction calls as [|[[[s w] r] status] calls IH]; intros st Hon.
  - cbn. repeat split; [lia|reflexivity].
  - cbn [log_all]. unfold bind. rewrite (log_response_appends _ _ _ _ _ _ _ Hon).
    match goal with |- context [log_all calls ?st1] =>
      destruct (IH st1) as (Hok & Hlen & Hpre); [exact Hon|] end.
    split; [exact Hok|]. split.
    + rewrite Hlen. cbn. rewrite length_app. cbn. lia.
    + etrans; [|exact Hpre]. cbn. apply prefix_app_r. reflexivity.
Qed.

Lemma last_n_length {A : Type} (n : nat) (l : list A) :
  (List.length (last_n n l) <= n)%nat.
Proof. unfold last_n. rewrite length_drop. lia. Qed.

(** C7, as the code has it. While logging is enabled (it is by default)
    [log_response] adds exactly one record at the end of [response_log]
    and keeps every earlier record; after a sequence of [n] calls the log
    is [n] records longer; a tick of the monitor removes nothing from the
    log either. Only the view of [get_status] is bounded: it shows the
    last ten records. *)
Theorem response_log_only_grows (st : state) :
  (forall session window response status category description,
      logging st = true ->
      exists entry,
        log_response session window response status category description st
          = (Ok tt, set_response_log (response_log st ++ [entry]) st) /\
        le_response entry = response /\ le_status entry = status) /\
  (forall calls,
      logging st = true ->
      List.length (response_log (snd (log_all calls st)))
        = (List.length (response_log st) + List.length calls)%nat /\
      response_log st `prefix_of` response_log (snd (log_all calls st))) /\
  (forall session check_interval,
      response_log st
        `prefix_of` response_log (snd (monitor_tick session check_interval st))) /\
  (List.length (s_recent_responses (get_status st)) <= 10)%nat /\
  s_recent_responses (get_status st) `suffix_of` response_log st.
Proof.
  split; [|split; [|split; [|split]]].
  - intros session window response status category description Hon.
    eexists. split; [apply log_response_appends; exact Hon|]. split; reflexivity.
  - intros calls Hon. apply log_all_length. exact Hon.
  - intros session check_interval.
    apply (extending_monitor_tick session check_interval st).
  - apply last_n_length.
  - cbn. unfold last_n. apply suffix_drop.
Qed.

End ResponseLog.

Lemma response_log_only_grows_witness :
  let env := dead_tmux in
  let st := state_of (preset_config "pm_orchestrator") in
  List.length (response_log (snd (log_all [("dev", 1, "1", "Auto-approved");
                                           ("dev", 2, "1", "Auto-approved")] st))) = 2%nat.
Proof.
  intros env st.
  destruct (@response_log_only_grows env st) as (_ & Hall & _).
  destruct (Hall [("dev", 1, "1", "Auto-approved"); ("dev", 2, "1", "Auto-approved")] eq_refl)
    as [Hlen _].
  exact Hlen.
Defined.

(** C7, as stated, fails: no cap bounds the log. With the configuration
    of a built-in preset, [cap + 1] calls of [log_response] leave
    [cap + 1] records. *)
Lemma response_log_has_no_cap :
  let env := dead_tmux in
  let st := state_of (preset_config "pm_orchestrator") in
  ~ exists cap : nat,
      forall calls, (List.length (response_log (snd (log_all calls st))) <= cap)%nat.
Proof.
  intros env st [cap Hcap].
  specialize (Hcap (repeat ("dev", 1, "1", "Auto-approved") (S cap))).
  destruct (@log_all_length env (repeat ("dev", 1, "1", "Auto-approved") (S cap)) st eq_refl)
    as (_ & Hlen & _).
  rewrite Hlen, repeat_length in Hcap. cbn in Hcap. lia.
Qed.

(** ** The monitor loop *)

Section Monitor.

Context `{env : Env}.

(** How a tick ends depends on [time.sleep] alone: whatever is raised
    in the tick is caught, and the handler sleeps; what the sleep of the
    handler raises leaves the tick. *)
Lemma monitor_tick_result (session : string) (check_interval : Q) (st : state) :
  fst (monitor_tick session check_interval st)
    = match sleep_error check_interval with
      | None => Ok tt
      | Some e => Raise e
      end.
Proof.
  unfold monitor_tick, try_except.
  destruct (bind _ _ st) as [[[]|e0] st0] eqn:Hbody.
  - unfold bind in Hbody.
    destruct (get_session_windows session st) as [[windows|e1] st1]; [|discriminate].
    destruct (monitor_windows session windows st1) as [[[]|e2] st2]; [|discriminate].
    unfold time_sleep in Hbody. destruct (sleep_error check_interval); [discriminate|].
    reflexivity.
  - unfold is_Exception, time_sleep. destruct (sleep_error check_interval); reflexivity.
Qed.

Lemma monitor_tick_Ok (session : string) (check_interval : Q) (st : state) :
  sleep_error check_interval = None ->
  exists st', monitor_tick session check_interval st = (Ok tt, st') /\ extends st st'.
Proof.
  intros Hsleep.
  pose proof (extending_monitor_tick session check_interval st) as Hext.
  pose proof (monitor_tick_result session check_interval st) as Hres.
  rewrite Hsleep in Hres.
  destruct (monitor_tick session check_interval st) as [r st']. cbn [fst snd] in *.
  exists st'. split; [congruence|exact Hext].
Qed.

Lemma monitor_tick_Raise (session : string) (check_interval : Q) (st : state) (e : exn) :
  sleep_error check_interval = Some e ->
  exists st', monitor_tick session check_interval st = (Raise e, st') /\ extends st st'.
Proof.
  intros Hsleep.
  pose proof (extending_monitor_tick session check_interval st) as Hext.
  pose proof (monitor_tick_result session check_interval st) as Hres.
  rewrite Hsleep in Hres.
  destruct (monitor_tick session check_interval st) as [r st']. cbn [fst snd] in *.
  exists st'. split; [congruence|exact Hext].
Qed.

Lemma monitor_loop_goes_on (fuel : nat) (session : string) (check_interval : Q)
  (st : state) :
  sleep_error check_interval = None ->
  running st = true -> is_enabled st = true ->
  fst (monitor_loop fuel session check_interval st) = Ok OutOfFuel.
Proof.
  intros Hsleep. revert st.
  induction fuel as [|fuel IH]; intros st Hrun Hen; [reflexivity|].
  cbn [monitor_loop]. rewrite Hrun, Hen. cbn [andb]. unfold bind.
  destruct (monitor_tick_Ok session check_interval st Hsleep) as (st' & -> & Hext).
  apply IH.
  - destruct Hext as (_ & _ & _ & -> & _). exact Hrun.
  - rewrite (extends_is_enabled _ _ Hext). exact Hen.
Qed.

(** With a check interval that [time.sleep] rejects, the first tick is
    the last: the exception leaves the loop. *)
Lemma monitor_loop_dies (fuel : nat) (session : string) (check_interval : Q)
  (st : state) (e : exn) :
  sleep_error check_interval = Some e ->
  running st = true -> is_enabled st = true ->
  fst (monitor_loop (S fuel) session check_interval st) = Raise e.
Proof.
  intros Hsleep Hrun Hen.
  cbn [monitor_loop]. rewrite Hrun, Hen. cbn [andb]. unfold bind.
  destruct (monitor_tick_Raise session check_interval st e Hsleep) as (st' & -> & _).
  reflexivity.
Qed.

Lemma monitor_windows_app (session : string) (done rest : list Z) (st st1 : state) :
  monitor_windows session done st = (Ok tt, st1) ->
  monitor_windows session (done ++ rest) st = monitor_windows session rest st1.
Proof.
  revert st. induction done as [|w done IH]; intros st; cbn [app monitor_windows].
  - unfold ret. intros [= ->]. reflexivity.
  - destruct (running st) eqn:Hrun; cbn [negb].
    + unfold bind. destruct (process_window session w st) as [[[]|e] st0]; [|discriminate].
      apply IH.
    + intros [= <-]. destruct rest as [|w' rest]; cbn [monitor_windows]; [reflexivity|].
      rewrite Hrun. reflexivity.
Qed.

Lemma monitor_windows_raise (session : string) (w : Z) (rest : list Z)
  (st st1 : state) (e : exn) :
  running st = true ->
  process_window session w st = (Raise e, st1) ->
  monitor_windows session (w :: rest) st = (Raise e, st1).
Proof.
  intros Hrun Hproc. cbn [monitor_windows]. rewrite Hrun. cbn [negb].
  unfold bind. rewrite Hproc. reflexivity.
Qed.

(** A window that is processed without an exception is followed by the
    next one. *)
Lemma monitor_windows_next (session : string) (w : Z) (rest : list Z) (st st1 : state) :
  running st = true ->
  process_window session w st = (Ok tt, st1) ->
  monitor_windows session (w :: rest) st = monitor_windows session rest st1.
Proof.
  intros Hrun Hproc. cbn [monitor_windows]. rewrite Hrun. cbn [negb].
  unfold bind. rewrite Hproc. reflexivity.
Qed.

(** The script that exits with an error status: [send_response] logs the
    error and returns [False]. *)
Lemma send_response_script_failure (session : string) (window : Z) (response : string)
  (st : state) :
  path_exists (history st) (send_script_of st) = true ->
  exit_failure
    (run_process (history st ++ [PathExists (send_script_of st)])
                 [send_script_of st; target_of session window; response]) ->
  exists st',
    send_response session window response st = (Ok false, st') /\
    history st'
      = (history st ++
         [ PathExists (send_script_of st);
           Run [send_script_of st; target_of session window; response] ])%list.
Proof.
  intros Hscript (rc & out & Hrun & Hrc).
  unfold send_response, bind, lift, try_except, os_path_exists. rewrite Hscript.
  unfold subprocess_run at 1. cbn [history set_history]. rewrite Hrun.
  apply Z.eqb_neq in Hrc. rewrite Hrc. cbn [andb negb is_CalledProcessError].
  match goal with |- context [log_response ?s ?w ?r ?u ?c ?d ?x] =>
    destruct (log_response_Ok s w r u c d x) as (st2 & -> & Hh & _) end.
  eexists. split; [reflexivity|]. cbn [snd ret]. rewrite Hh. cbn.
  rewrite <- app_assoc. reflexivity.
Qed.

Lemma process_window_captures (session : string) (window : Z) (st : state) :
  In (Run (capture_cmd session window 20))
     (history (snd (process_window session window st))).
Proof.
  unfold process_window.
  eapply extends_history_In.
  { apply bind_extends. intros [info|]; [|apply extending_ret].
    apply extending_bind; [apply extending_send_response|].
    intros [|]; [apply extending_log_response|apply extending_ret]. }
  unfold check_for_confirmation_prompt.
  eapply extends_history_In.
  { apply bind_extends. intros content.
    destruct (String.eqb content ""); [apply extending_ret|].
    apply extending_bind; [apply extending_lift|].
    intros [|]; [|apply extending_lift].
    apply extending_bind; [apply extending_log_response|].
    intros _. apply extending_ret. }
  destruct (capture_window_content session window 20 st) as [r st1] eqn:Hcap.
  rewrite (capture_window_content_state _ _ _ _ _ _ Hcap). cbn.
  apply in_or_app. right. left. reflexivity.
Qed.

(** C5, as the code has it. Within a tick, a tmux command that exits
    with an error status is contained in the window it was run for: a
    capture that fails reads as empty, a send script that fails makes
    [send_response] return [False], and the loop goes on with the next
    window. Any other exception raised while a window is processed ends
    the tick at that window: the tick is then the pause of the handler,
    in the state the window left, and the windows after it are not looked
    at. The handler encloses the whole tick, and what ends the loop is
    [time.sleep] alone: when it accepts the check interval no tick raises
    and the loop goes on for as long as it is running and enabled; when
    it rejects it, the sleep of the handler raises and the first tick
    ends the loop. *)
Theorem tick_failure_containment (session : string) (check_interval : Q) (st : state) :
  (forall w rest,
      running st = true ->
      exit_failure (run_process (history st) (capture_cmd session w 20)) ->
      process_window session w st = (Ok tt, after_run (capture_cmd session w 20) st) /\
      monitor_windows session (w :: rest) st
        = monitor_windows session rest (after_run (capture_cmd session w 20) st)) /\
  (forall w rest info st1,
      running st = true ->
      check_for_confirmation_prompt session w st = (Ok (Some info), st1) ->
      path_exists (history st1) (send_script_of st1) = true ->
      exit_failure
        (run_process (history st1 ++ [PathExists (send_script_of st1)])
                     [send_script_of st1; target_of session w; p_response info]) ->
      exists st2,
        send_response session w (p_response info) st1 = (Ok false, st2) /\
        process_window session w st = (Ok tt, st2) /\
        monitor_windows session (w :: rest) st = monitor_windows session rest st2) /\
  (forall done w rest st0 st1 st2 e,
      get_session_windows session st = (Ok (done ++ w :: rest)%list, st0) ->
      monitor_windows session done st0 = (Ok tt, st1) ->
      running st1 = true ->
      process_window session w st1 = (Raise e, st2) ->
      monitor_windows session (done ++ w :: rest) st0 = (Raise e, st2) /\
      monitor_tick session check_interval st = time_sleep check_interval st2) /\
  (sleep_error check_interval = None ->
   (exists st', monitor_tick session check_interval st = (Ok tt, st') /\ extends st st') /\
   forall fuel,
     running st = true -> is_enabled st = true ->
     fst (monitor_loop fuel session check_interval st) = Ok OutOfFuel) /\
  (forall e,
      sleep_error check_interval = Some e ->
      (exists st', monitor_tick session check_interval st = (Raise e, st') /\
                   extends st st') /\
      forall fuel,
        running st = true -> is_enabled st = true ->
        fst (monitor_loop (S fuel) session check_interval st) = Raise e).
Proof.
  split; [|split; [|split; [|split]]].
  - intros w rest Hrun Hfail.
    pose proof (capture_window_content_failure session w 20 st Hfail) as Hcap.
    destruct (empty_capture_is_ignored _ _ _ _ Hcap) as [_ Hproc].
    split; [exact Hproc|]. apply monitor_windows_next; assumption.
  - intros w rest info st1 Hrun Hcheck Hscript Hfail.
    destruct (send_response_script_failure session w (p_response info) st1 Hscript Hfail)
      as (st2 & Hsend & _).
    assert (process_window session w st = (Ok tt, st2)) as Hproc.
    { unfold process_window, bind. rewrite Hcheck, Hsend. reflexivity. }
    exists st2. split; [exact Hsend|]. split; [exact Hproc|].
    apply monitor_windows_next; assumption.
  - intros done w rest st0 st1 st2 e Hlist Hdone Hrun Hproc.
    assert (monitor_windows session (done ++ w :: rest) st0 = (Raise e, st2)) as Hloop.
    { rewrite (monitor_windows_app session done (w :: rest) st0 st1 Hdone).
      apply monitor_windows_raise; assumption. }
    split; [exact Hloop|].
    unfold monitor_tick, try_except, bind. rewrite Hlist, Hloop. reflexivity.
  - intros Hsleep. split; [apply monitor_tick_Ok; exact Hsleep|].
    intros fuel. apply monitor_loop_goes_on. exact Hsleep.
  - intros e Hsleep. split; [apply monitor_tick_Raise; exact Hsleep|].
    intros fuel. apply monitor_loop_dies. exact Hsleep.
Qed.

End Monitor.

Lemma tick_failure_containment_witness :
  let st := state_of (preset_config "pm_orchestrator") in
  filter is_Run (history (snd (@monitor_windows first_pane_gone "dev" [1; 2] st)))
    = [ Run (capture_cmd "dev" 1 20);
        Run (capture_cmd "dev" 2 20);
        Run (send_keys_cmd "dev:2" "1");
        Run (send_keys_cmd "dev:2" "Enter") ] /\
  filter is_Run (history (snd (@monitor_windows script_fails "dev" [1; 2] st)))
    = [ Run (capture_cmd "dev" 1 20);
        Run ["/opt/orchestrator/send-claude-message.sh"; "dev:1"; "1"];
        Run (capture_cmd "dev" 2 20);
        Run ["/opt/orchestrator/send-claude-message.sh"; "dev:2"; "1"] ] /\
  fst (@monitor_loop first_pane_gone 2 "dev" 2.0%Q st) = Ok OutOfFuel /\
  history (snd (@monitor_tick script_not_executable "dev" 2.0%Q st))
    = [ Run (list_windows_cmd "dev");
        Run (capture_cmd "dev" 1 20);
        PathExists "/opt/orchestrator/send-claude-message.sh";
        Run ["/opt/orchestrator/send-claude-message.sh"; "dev:1"; "1"];
        Sleep 2.0%Q ] /\
  fst (@monitor_loop first_pane_gone 2 "dev" (-1)%Q st)
    = Raise (ValueError "sleep length must be non-negative").
Proof.
  intros st.
  destruct (@tick_failure_containment first_pane_gone "dev" 2.0%Q st)
    as (Hcapture & _ & _ & Hgoes & _).
  destruct (@tick_failure_containment script_fails "dev" 2.0%Q st)
    as (_ & Hscript & _).
  destruct (@tick_failure_containment script_not_executable "dev" 2.0%Q st)
    as (_ & _ & Hends & _).
  destruct (@tick_failure_containment first_pane_gone "dev" (-1)%Q st)
    as (_ & _ & _ & _ & Hdies).
  split; [|split; [|split; [|split]]].
  - assert (@exit_failure
              (@run_process first_pane_gone (history st) (capture_cmd "dev" 1 20)))
      as Hfail.
    { exists 1, "can't find pane: 1". split; [reflexivity|discriminate]. }
    destruct (Hcapture 1 [2] eq_refl Hfail) as [_ Hnext].
    rewrite Hnext. vm_compute. reflexivity.
  - destruct (Hscript 1 [2]
                {| p_response := "1"; p_category := "file_operations";
                   p_description := "File creation, editing, saving";
                   p_pattern_matched := "Apply these changes\?" |}
                (snd (@check_for_confirmation_prompt script_fails "dev" 1 st)))
      as (st2 & _ & Hproc & Hnext).
    + reflexivity.
    + vm_compute. reflexivity.
    + reflexivity.
    + exists 2, "cannot reach the pane". split; [reflexivity|discriminate].
    + rewrite Hnext.
      assert (st2 = snd (@process_window script_fails "dev" 1 st)) as ->
        by (rewrite Hproc; reflexivity).
      vm_compute. reflexivity.
  - apply (Hgoes eq_refl); reflexivity.
  - destruct (Hends [] 1 [2]
                (snd (@get_session_windows script_not_executable "dev" st))
                (snd (@get_session_windows script_not_executable "dev" st))
                (snd (@process_window script_not_executable "dev" 1
                        (snd (@get_session_windows script_not_executable "dev" st))))
                (OtherException "PermissionError")) as [_ Htick].
    + vm_compute. reflexivity.
    + vm_compute. reflexivity.
    + reflexivity.
    + vm_compute. reflexivity.
    + rewrite Htick. vm_compute. reflexivity.
  - destruct (Hdies (ValueError "sleep length must be non-negative") eq_refl)
      as [_ Hloop].
    apply (Hloop 1%nat); reflexivity.
Defined.

(** C5, as stated, fails. Windows 1 and 2 both show a prompt that the
    preset answers; [send-claude-message.sh] exists but cannot be
    executed, so that answering window 1 raises [PermissionError]. The
    tick ends there: window 2 is neither captured nor answered, although
    the tick itself returns normally. With a script that works the same
    tick answers both windows. *)
Lemma failure_in_one_window_ends_the_tick :
  let st := state_of (preset_config "pm_orchestrator") in
  fst (@get_session_windows script_not_executable "dev" st) = Ok [1; 2] /\
  fst (@process_window script_not_executable "dev" 1
         (snd (@get_session_windows script_not_executable "dev" st)))
    = Raise (OtherException "PermissionError") /\
  fst (@monitor_tick script_not_executable "dev" 2.0%Q st) = Ok tt /\
  filter is_Run (history (snd (@monitor_tick script_not_executable "dev" 2.0%Q st)))
    = [ Run (list_windows_cmd "dev");
        Run (capture_cmd "dev" 1 20);
        Run ["/opt/orchestrator/send-claude-message.sh"; "dev:1"; "1"] ] /\
  filter is_Run (history (snd (@monitor_tick script_works "dev" 2.0%Q st)))
    = [ Run (list_windows_cmd "dev");
        Run (capture_cmd "dev" 1 20);
        Run ["/opt/orchestrator/send-claude-message.sh"; "dev:1"; "1"];
        Run (capture_cmd "dev" 2 20);
        Run ["/opt/orchestrator/send-claude-message.sh"; "dev:2"; "1"] ].
Proof.
  cbv zeta. repeat split; vm_compute; reflexivity.
Qed.

(** ** Changing the configuration *)

Section Configuration.

Context `{env : Env}.

Lemma read_config_update (f : Config -> Config) (st : state) :
  read_config (snd (update_config f st)) = f (read_config st).
Proof.
  unfold update_config, read_config. cbn. rewrite lookup_insert_eq. reflexivity.
Qed.

Lemma update_config_spec (f : Config -> Config) (st : state) :
  update_config f st
    = (Ok tt, set_store (fun s => <[config st := f (read_config st)]> s) st).
Proof. reflexivity. Qed.

Lemma get_granular_controls_ensure (cfg : Config) :
  get_granular_controls (ensure_granular_controls (ensure_auto_responder cfg))
    = get_granular_controls cfg.
Proof.
  unfold ensure_granular_controls, ensure_auto_responder, get_granular_controls,
    get_auto_responder.
  destruct cfg as [[ar|]]; cbn.
  - destruct (ar_granular_controls ar) eqn:Hgc; cbn; [rewrite Hgc|]; reflexivity.
  - reflexivity.
Qed.

Lemma set_category_known (b : bool) (category : string) (st : state) :
  str_in category (keys (get_granular_controls (read_config st))) = true ->
  exists st',
    set_category b category st = (Ok true, st') /\
    config st' = config st /\
    running st' = running st /\
    response_log st' = response_log st /\
    store st' !! config st
      = Some (set_category_enabled category b
                (ensure_granular_controls (ensure_auto_responder (read_config st)))).
Proof.
  intros Hknown. unfold set_category, bind.
  rewrite update_config_spec.
  set (st1 := set_store _ st).
  assert (read_config st1 = ensure_auto_responder (read_config st)) as Hr1.
  { apply (read_config_update ensure_auto_responder st). }
  rewrite update_config_spec.
  set (st2 := set_store _ st1).
  assert (read_config st2 = ensure_granular_controls (ensure_auto_responder (read_config st)))
    as Hr2.
  { rewrite <- Hr1. apply (read_config_update ensure_granular_controls st1). }
  unfold lift. rewrite Hr2, get_granular_controls_ensure, Hknown.
  rewrite update_config_spec.
  set (st3 := set_store _ st2).
  unfold save_config, emit, ret. eexists. split; [reflexivity|].
  cbn. repeat split. rewrite lookup_insert_eq, Hr2. reflexivity.
Qed.

Lemma get_granular_controls_set_category (category : string) (b : bool) (cfg : Config) :
  get_granular_controls (set_category_enabled category b cfg)
    = set_item_enabled category b (get_granular_controls cfg).
Proof. reflexivity. Qed.

Lemma config_ref_enable (st : state) :
  config (snd (enable st)) = config st /\ is_enabled (snd (enable st)) = true.
Proof.
  unfold enable, bind. rewrite !update_config_spec.
  unfold save_config, emit. cbn [snd fst]. split; [reflexivity|].
  unfold is_enabled, read_config. cbn. rewrite lookup_insert_eq. reflexivity.
Qed.

Lemma config_ref_disable (st : state) :
  config (snd (disable st)) = config st /\ is_enabled (snd (disable st)) = false /\
  running (snd (disable st)) = false.
Proof.
  unfold disable, bind. rewrite !update_config_spec.
  unfold save_config, emit, stop. cbn [snd fst]. split; [reflexivity|].
  unfold is_enabled, read_config. cbn. rewrite lookup_insert_eq. split; reflexivity.
Qed.

(** C6, as the code has it. [enable], [disable], [enable_category] and
    [disable_category] keep the reference [self.config] and change the
    dictionary it refers to: after [enable_category] or
    [disable_category] of a known category the dictionary at the old
    reference has the new flag, and a window that the monitor looks at
    after the call, in the same tick or a later one, is classified with
    the new flag. *)
Theorem configuration_is_updated_in_place (st : state) (category : string) (b : bool) :
  config (snd (enable st)) = config st /\
  is_enabled (snd (enable st)) = true /\
  config (snd (disable st)) = config st /\
  is_enabled (snd (disable st)) = false /\
  (str_in category (keys (get_granular_controls (read_config st))) = true ->
   exists st',
     set_category b category st = (Ok true, st') /\
     config st' = config st /\
     store st' !! config st
       = Some (set_category_enabled category b
                 (ensure_granular_controls (ensure_auto_responder (read_config st)))) /\
     get_granular_controls (read_config st')
       = set_item_enabled category b (get_granular_controls (read_config st)) /\
     forall session window content st1,
       capture_window_content session window 20 st' = (Ok content, st1) ->
       content <> "" ->
       is_dangerous_operation (read_config st') content = Ok false ->
       check_for_confirmation_prompt session window st'
         = (check_categories
              (set_item_enabled category b (get_granular_controls (read_config st)))
              content, st1)).
Proof.
  split; [apply config_ref_enable|]. split; [apply config_ref_enable|].
  split; [apply config_ref_disable|]. split; [apply config_ref_disable|].
  intros Hknown.
  destruct (set_category_known b category st Hknown)
    as (st' & Hset & Hconfig & _ & _ & Hstore).
  assert (get_granular_controls (read_config st')
            = set_item_enabled category b (get_granular_controls (read_config st)))
    as Hgc.
  { assert (read_config st'
              = set_category_enabled category b
                  (ensure_granular_controls (ensure_auto_responder (read_config st))))
      as -> by (unfold read_config at 1; rewrite Hconfig, Hstore; reflexivity).
    rewrite get_granular_controls_set_category. f_equal.
    apply get_granular_controls_ensure. }
  exists st'. repeat split; try assumption.
  intros session window content st1 Hcap Hfull Hsafe.
  pose proof (capture_window_content_state _ _ _ _ _ _ Hcap) as Hst1.
  assert (read_config st1 = read_config st') as Hsame by (rewrite Hst1; reflexivity).
  unfold check_for_confirmation_prompt, bind. rewrite Hcap.
  destruct (String.eqb_spec content "") as [?|_]; [contradiction|].
  unfold lift. rewrite Hsame, Hsafe. cbv beta iota. rewrite Hsame, Hgc. reflexivity.
Qed.

Lemma monitor_windows_with_nobody (session : string) (windows : list Z) (st : state) :
  monitor_windows_with (fun _ => ret tt) session windows st
    = monitor_windows session windows st.
Proof.
  revert st. induction windows as [|w windows IH]; intros st; [reflexivity|].
  cbn [monitor_windows_with monitor_windows]. unfold ret at 1.
  destruct (negb (running st)); [reflexivity|].
  unfold bind. destruct (process_window session w st) as [[[]|e] st1]; [apply IH|reflexivity].
Qed.

End Configuration.

Lemma configuration_is_updated_in_place_witness :
  let env := git_prompts in
  let st := state_of (preset_config "pm_orchestrator") in
  exists st',
    enable_category "git_operations" st = (Ok true, st') /\
    config st' = config st /\
    cc_enabled <$> assoc "git_operations" (get_granular_controls (read_config st'))
      = Some (Some true).
Proof.
  intros env st.
  destruct (@configuration_is_updated_in_place env st "git_operations" true)
    as (_ & _ & _ & _ & Hknown).
  destruct (Hknown eq_refl) as (st' & Hset & Hconfig & _ & Hgc & _).
  exists st'. split; [exact Hset|]. split; [exact Hconfig|].
  rewrite Hgc. reflexivity.
Defined.

(** C6, as stated, fails: [enable_category] changes the dictionary that
    the reference in use refers to, and a tick that is under way sees the
    change. Window 1 and window 2 show the same git prompt; another thread
    calls [enable_category("git_operations")] between the two: window 1 is
    left alone and window 2 is answered, in one tick. *)
Lemma enable_category_is_seen_mid_tick :
  let env := git_prompts in
  let st := state_of (preset_config "pm_orchestrator") in
  let st' := snd (enable_category "git_operations" st) in
  config st' = config st /\
  cc_enabled <$> assoc "git_operations"
                   (get_granular_controls (default empty_config (store st !! config st)))
    = Some (Some false) /\
  cc_enabled <$> assoc "git_operations"
                   (get_granular_controls (default empty_config (store st' !! config st)))
    = Some (Some true) /\
  filter is_Run (history (snd (monitor_windows_with enable_git_before_2 "dev" [1; 2] st)))
    = [ Run (capture_cmd "dev" 1 20);
        Run (capture_cmd "dev" 2 20);
        Run (send_keys_cmd "dev:2" "1");
        Run (send_keys_cmd "dev:2" "Enter") ] /\
  filter is_Run (history (snd (monitor_windows "dev" [1; 2] st)))
    = [ Run (capture_cmd "dev" 1 20); Run (capture_cmd "dev" 2 20) ].
Proof.
  cbv zeta. repeat split; vm_compute; reflexivity.
Qed.

(** ** Two executions of [send_response] at once *)

Section InFlight.

Context `{env : Env}.

(** Cutting [send_response] into steps loses nothing: run alone, the
    steps give the result and the state of the method. *)
Lemma send_steps_send_response (session : string) (window : Z) (response : string)
  (st : state) :
  send_steps 5 session window response PcStart st
    = (PcDone (fst (send_response session window response st)),
       snd (send_response session window response st)).
Proof.
  unfold send_response, bind, lift, try_except.
  cbn [send_steps send_step]. unfold after, os_path_exists.
  destruct (path_exists (history st) (send_script_of st)).
  - change (send_script_of (set_history ?h st)) with (send_script_of st).
    cbn [send_step]. unfold after.
    destruct (subprocess_run _ true _) as [[out|e] st1].
    + cbn [send_step]. unfold after, ret.
      destruct (log_response_Ok session window response
                  ("Success via " +:+ "send-claude-message.sh") "" "" st1)
        as (st2 & -> & _).
      reflexivity.
    + unfold on_raise. destruct (is_CalledProcessError e); [|reflexivity].
      cbn [send_step]. unfold ret.
      destruct (log_response_Ok session window response
                  ("Error: " +:+ str_exn e) "" "" st1) as (st2 & -> & _).
      reflexivity.
  - cbn [send_step]. unfold after.
    destruct (subprocess_run _ false _) as [[out|e] st1].
    + cbn [send_step]. unfold after, lift.
      destruct (time_sleep (get_response_delay st1) st1) as [[[]|e] st2].
      * cbn [send_step]. unfold after.
        destruct (subprocess_run _ false _) as [[out'|e] st3].
        -- cbn [send_step]. unfold after, ret.
           destruct (log_response_Ok session window response
                       ("Success via " +:+ "direct tmux") "" "" st3) as (st4 & -> & _).
           reflexivity.
        -- unfold on_raise. destruct (is_CalledProcessError e); [|reflexivity].
           cbn [send_step]. unfold ret.
           destruct (log_response_Ok session window response
                       ("Error: " +:+ str_exn e) "" "" st3) as (st4 & -> & _).
           reflexivity.
      * unfold on_raise. destruct (is_CalledProcessError e); [|reflexivity].
        cbn [send_step]. unfold ret.
        destruct (log_response_Ok session window response
                    ("Error: " +:+ str_exn e) "" "" st2) as (st3 & -> & _).
        reflexivity.
    + unfold on_raise. destruct (is_CalledProcessError e); [|reflexivity].
      cbn [send_step]. unfold ret.
      destruct (log_response_Ok session window response
                  ("Error: " +:+ str_exn e) "" "" st1) as (st2 & -> & _).
      reflexivity.
Qed.


(** One step of a thread: what it adds to the history and to its own
    events, by where it is. The response and the directory of the script
    stay. *)
Lemma thread_step_events (session : string) (window : Z) (t : thread) (st : state) :
  exists evs,
    history (snd (thread_step session window t st)) = (history st ++ evs)%list /\
    t_events (fst (thread_step session window t st)) = (t_events t ++ evs)%list /\
    t_response (fst (thread_step session window t st)) = t_response t /\
    script_dir (snd (thread_step session window t st)) = script_dir st /\
    evs = match t_pc t with
          | PcStart => [PathExists (send_script_of st)]
          | PcRunScript send_script =>
              [Run [send_script; target_of session window; t_response t]]
          | PcSendKeys => [Run (send_keys_cmd (target_of session window) (t_response t))]
          | PcSleep => [Sleep (get_response_delay st)]
          | PcSendEnter => [Run (send_keys_cmd (target_of session window) "Enter")]
          | _ => []
          end.
Proof.
  assert (forall (argv : list string) (check : bool) (next : string -> pc),
             snd (after (subprocess_run argv check st) next) = after_run argv st)
    as Hrun.
  { intros argv check next. pose proof (subprocess_run_state argv check st) as Hst.
    unfold after. destruct (subprocess_run argv check st) as [[out|e] st1];
      cbn [snd] in Hst |- *; exact Hst. }
  assert (forall l k : list event, drop (List.length l) (l ++ k) = k) as Hdrop.
  { intros l k. apply drop_app_length. }
  unfold thread_step. destruct t as [response p events]. cbn [t_pc t_response t_events].
  destruct (send_step session window response p st) as [p' st'] eqn:Hstep.
  cbn [fst snd t_events t_response].
  assert (st' = snd (send_step session window response p st)) as Hst'
    by (rewrite Hstep; reflexivity).
  clear Hstep. eexists. split; [|split; [|split; [reflexivity|split; [|reflexivity]]]].
  - subst st'. destruct p; cbn [send_step]; rewrite ?Hrun; try reflexivity.
    + unfold after; destruct (time_sleep _ st) as [[[]|e] st1] eqn:Hs;
        pose proof (time_sleep_state (get_response_delay st) st) as Hst;
        rewrite Hs in Hst; cbn [snd] in Hst |- *; subst st1; reflexivity.
    + unfold after.
      match goal with |- context [log_response ?s ?w ?r ?u ?c ?d st] =>
        destruct (log_response_Ok s w r u c d st) as (st2 & -> & Hh & _) end.
      cbn [snd]. rewrite Hh, app_nil_r. reflexivity.
    + match goal with |- context [log_response ?s ?w ?r ?u ?c ?d st] =>
        destruct (log_response_Ok s w r u c d st) as (st2 & -> & Hh & _) end.
      cbn [snd]. rewrite Hh, app_nil_r. reflexivity.
    + cbn [snd]. rewrite app_nil_r. reflexivity.
  - subst st'. f_equal. destruct p; cbn [send_step]; rewrite ?Hrun;
      try (cbn; rewrite Hdrop; reflexivity).
    + unfold after; destruct (time_sleep _ st) as [[[]|e] st1] eqn:Hs;
        pose proof (time_sleep_state (get_response_delay st) st) as Hst;
        rewrite Hs in Hst; cbn [snd] in Hst |- *; subst st1; cbn; rewrite Hdrop;
        reflexivity.
    + unfold after.
      match goal with |- context [log_response ?s ?w ?r ?u ?c ?d st] =>
        destruct (log_response_Ok s w r u c d st) as (st2 & -> & Hh & _) end.
      cbn [snd]. rewrite Hh, drop_all. reflexivity.
    + match goal with |- context [log_response ?s ?w ?r ?u ?c ?d st] =>
        destruct (log_response_Ok s w r u c d st) as (st2 & -> & Hh & _) end.
      cbn [snd]. rewrite Hh, drop_all. reflexivity.
    + cbn [snd]. rewrite drop_all. reflexivity.
  - subst st'.
    assert (forall s w r u c d, script_dir (snd (log_response s w r u c d st)) = script_dir st)
      as Hlog.
    { intros. apply (extending_log_response s w r u c d st). }
    destruct p; cbn [send_step]; rewrite ?Hrun; try reflexivity.
    + unfold after; destruct (time_sleep _ st) as [[[]|e] st1] eqn:Hs;
        pose proof (time_sleep_state (get_response_delay st) st) as Hst;
        rewrite Hs in Hst; cbn [snd] in Hst |- *; subst st1; reflexivity.
    + unfold after.
      match goal with |- context [log_response ?s ?w ?r ?u ?c ?d st] =>
        specialize (Hlog s w r u c d);
        destruct (log_response s w r u c d st) as [[[]|e'] st2] end; exact Hlog.
    + match goal with |- context [log_response ?s ?w ?r ?u ?c ?d st] =>
        specialize (Hlog s w r u c d);
        destruct (log_response s w r u c d st) as [[[]|e'] st2] end; exact Hlog.
Qed.


Lemma past_send_on_raise (e : exn) : past_send (on_raise e).
Proof.
  unfold on_raise. destruct (is_CalledProcessError e) eqn:He; [exact I|exact He].
Qed.

Lemma past_send_after {A : Type} (r : res A * state) (next : A -> pc) :
  (forall a, past_send (next a)) -> past_send (fst (after r next)).
Proof.
  intros Hnext. unfold after. destruct r as [[a|e] st1]; cbn [fst].
  - apply Hnext.
  - apply past_send_on_raise.
Qed.

(** One step of a thread: where it leads, and that it takes one of the
    steps the thread has left. *)
Lemma thread_step_pc (session : string) (window : Z) (t : thread) (st : state) :
  match t_pc t with
  | PcStart =>
      t_pc (fst (thread_step session window t st)) = PcRunScript (send_script_of st) \/
      t_pc (fst (thread_step session window t st)) = PcSendKeys
  | PcDone r => t_pc (fst (thread_step session window t st)) = PcDone r
  | _ => past_send (t_pc (fst (thread_step session window t st)))
  end /\
  (remaining (t_pc (fst (thread_step session window t st)))
   <= remaining (t_pc t) - 1)%nat.
Proof.
  assert (forall e, remaining (on_raise e) <= 1)%nat as Hraise.
  { intros e. unfold on_raise. destruct (is_CalledProcessError e); cbn; lia. }
  assert (forall {A : Type} (r : res A * state) (next : A -> pc) (n : nat),
             (1 <= n)%nat -> (forall a, remaining (next a) <= n)%nat ->
             (remaining (fst (after r next)) <= n)%nat) as Hafter.
  { intros A r next n Hn Hnext. unfold after. destruct r as [[a|e] st1]; cbn [fst].
    - apply Hnext.
    - specialize (Hraise e). lia. }
  unfold thread_step. destruct t as [response p events]. cbn [t_pc t_response t_events].
  destruct (send_step session window response p st) as [p' st'] eqn:Hstep.
  cbn [fst t_pc].
  assert (p' = fst (send_step session window response p st)) as ->
    by (rewrite Hstep; reflexivity).
  clear Hstep.
  destruct p; cbn [send_step remaining].
  - unfold after, os_path_exists.
    destruct (path_exists (history st) (send_script_of st)); cbn; split; auto; lia.
  - split; [apply past_send_after; intros; exact I|].
    apply Hafter; [lia|]. intros _. cbn. lia.
  - split; [apply past_send_after; intros; exact I|].
    apply Hafter; [lia|]. intros _. cbn. lia.
  - split; [apply past_send_after; intros; exact I|].
    apply Hafter; [lia|]. intros _. cbn. lia.
  - split; [apply past_send_after; intros; exact I|].
    apply Hafter; [lia|]. intros _. cbn. lia.
  - match goal with |- context [log_response ?s ?w ?r ?u ?c ?d st] =>
      destruct (log_response_Ok s w r u c d st) as (st2 & -> & _) end.
    cbn. split; [exact I|lia].
  - match goal with |- context [log_response ?s ?w ?r ?u ?c ?d st] =>
      destruct (log_response_Ok s w r u c d st) as (st2 & -> & _) end.
    cbn. split; [exact I|lia].
  - cbn. split; [reflexivity|lia].
Qed.

Lemma has_sent_app (script target : string) (t t' : thread) (evs : list event) :
  t_events t' = (t_events t ++ evs)%list ->
  t_response t' = t_response t ->
  has_sent script target t -> has_sent script target t'.
Proof.
  intros Hev Hresp (argv & rest & Hold & Hargv).
  exists argv, (rest ++ evs)%list. rewrite Hev, Hold, Hresp. split; [reflexivity|exact Hargv].
Qed.

Lemma progress_past_send (script target : string) (t : thread) :
  past_send (t_pc t) -> has_sent script target t -> progress script target t.
Proof.
  unfold progress. intros Hpast Hsent.
  destruct (t_pc t); try contradiction; split; assumption.
Qed.

(** The invariant of a thread, kept by each of its steps. *)
Lemma progress_step (session : string) (window : Z) (t : thread) (st : state)
  (script : string) :
  send_script_of st = script ->
  progress script (target_of session window) t ->
  progress script (target_of session window) (fst (thread_step session window t st)).
Proof.
  intros Hscript Hprog.
  destruct (thread_step_events session window t st)
    as (evs & _ & Hev & Hresp & _ & Hevs).
  destruct (thread_step_pc session window t st) as [Hpc _].
  set (t' := fst (thread_step session window t st)) in *.
  unfold progress in Hprog.
  destruct (t_pc t) eqn:Hp.
  - subst evs. rewrite Hprog, Hscript in Hev. cbn in Hev.
    unfold progress. destruct Hpc as [-> | ->]; rewrite ?Hscript; auto.
  - destruct Hprog as [-> Hold]. apply progress_past_send; [exact Hpc|].
    exists [script; target_of session window; t_response t], [].
    rewrite Hev, Hold, Hevs, Hresp. split; [reflexivity|left; reflexivity].
  - apply progress_past_send; [exact Hpc|].
    exists (send_keys_cmd (target_of session window) (t_response t)), [].
    rewrite Hev, Hprog, Hevs, Hresp. split; [reflexivity|right; reflexivity].
  - apply progress_past_send; [exact Hpc|].
    eapply has_sent_app; [exact Hev|exact Hresp|apply Hprog].
  - apply progress_past_send; [exact Hpc|].
    eapply has_sent_app; [exact Hev|exact Hresp|apply Hprog].
  - apply progress_past_send; [exact Hpc|].
    eapply has_sent_app; [exact Hev|exact Hresp|apply Hprog].
  - apply progress_past_send; [exact Hpc|].
    eapply has_sent_app; [exact Hev|exact Hresp|apply Hprog].
  - apply progress_past_send; [rewrite Hpc; apply Hprog|].
    eapply has_sent_app; [exact Hev|exact Hresp|apply Hprog].
Qed.

Lemma thread_step_script (session : string) (window : Z) (t : thread) (st : state) :
  send_script_of (snd (thread_step session window t st)) = send_script_of st.
Proof.
  destruct (thread_step_events session window t st) as (evs & _ & _ & _ & Hdir & _).
  unfold send_script_of. rewrite Hdir. reflexivity.
Qed.

Lemma thread_step_response (session : string) (window : Z) (t : thread) (st : state) :
  t_response (fst (thread_step session window t st)) = t_response t.
Proof.
  destruct (thread_step_events session window t st) as (evs & _ & _ & Hresp & _).
  exact Hresp.
Qed.

(** Under every schedule both threads keep the invariant and their
    response, and each has at most the steps left that the schedule has
    not yet given it. *)
Lemma interleave_invariant (sched : list bool) (session : string) (window : Z)
  (t1 t2 : thread) (st : state) (script : string) :
  send_script_of st = script ->
  progress script (target_of session window) t1 ->
  progress script (target_of session window) t2 ->
  let run := interleave sched session window t1 t2 st in
  progress script (target_of session window) (fst (fst run)) /\
  progress script (target_of session window) (snd (fst run)) /\
  t_response (fst (fst run)) = t_response t1 /\
  t_response (snd (fst run)) = t_response t2 /\
  (remaining (t_pc (fst (fst run))) <= remaining (t_pc t1) - turns true sched)%nat /\
  (remaining (t_pc (snd (fst run))) <= remaining (t_pc t2) - turns false sched)%nat.
Proof.
  revert t1 t2 st. induction sched as [|[|] sched IH]; intros t1 t2 st Hscript H1 H2;
    cbn [interleave].
  - cbn. repeat split; try assumption; lia.
  - pose proof (progress_step session window t1 st script Hscript H1) as H1'.
    pose proof (thread_step_script session window t1 st) as Hscript'.
    pose proof (thread_step_response session window t1 st) as Hresp.
    destruct (thread_step_pc session window t1 st) as [_ Hleft].
    destruct (thread_step session window t1 st) as [t1' st']. cbn [fst snd] in *.
    rewrite Hscript in Hscript'.
    destruct (IH t1' t2 st' Hscript' H1' H2) as (Ha & Hb & Hc & Hd & He & Hf).
    repeat split; try assumption; try congruence.
    unfold turns in *. cbn [List.filter Bool.eqb List.length]. lia.
  - pose proof (progress_step session window t2 st script Hscript H2) as H2'.
    pose proof (thread_step_script session window t2 st) as Hscript'.
    pose proof (thread_step_response session window t2 st) as Hresp.
    destruct (thread_step_pc session window t2 st) as [_ Hleft].
    destruct (thread_step session window t2 st) as [t2' st']. cbn [fst snd] in *.
    rewrite Hscript in Hscript'.
    destruct (IH t1 t2' st' Hscript' H1 H2') as (Ha & Hb & Hc & Hd & He & Hf).
    repeat split; try assumption; try congruence.
    unfold turns in *. cbn [List.filter Bool.eqb List.length]. lia.
Qed.

Lemma remaining_finished (t : thread) :
  remaining (t_pc t) = 0%nat <-> finished t = true.
Proof.
  unfold finished. destruct (t_pc t); cbn; split; intros H; try discriminate; reflexivity.
Qed.

Lemma progress_finished (script target : string) (t : thread) :
  progress script target t -> finished t = true ->
  sent_and_done script target (t_response t) t.
Proof.
  unfold progress, finished, sent_and_done.
  destruct (t_pc t) as [| | | | | | |r]; try discriminate.
  intros [Hpast (argv & rest & Hev & Hargv)] _.
  exists argv, rest, r. repeat split; try assumption.
  destruct r as [[|]|e]; [left; reflexivity|right; left; reflexivity|].
  right. right. exists e. split; [reflexivity|exact Hpast].
Qed.


Lemma send_step_history (session : string) (window : Z) (response : string)
  (p : pc) (st : state) :
  exists evs,
    history (snd (send_step session window response p st)) = (history st ++ evs)%list.
Proof.
  destruct (thread_step_events session window
              {| t_response := response; t_pc := p; t_events := [] |} st)
    as (evs & Hhist & _).
  exists evs. unfold thread_step in Hhist. cbn [t_response t_pc] in Hhist.
  destruct (send_step session window response p st) as [p' st']. exact Hhist.
Qed.

Lemma send_steps_S (n : nat) (session : string) (window : Z) (response : string)
  (p : pc) (st : state) :
  send_steps (S n) session window response p st
    = send_steps n session window response
        (fst (send_step session window response p st))
        (snd (send_step session window response p st)).
Proof.
  cbn [send_steps]. destruct (send_step session window response p st). reflexivity.
Qed.

Lemma send_steps_history (n : nat) (session : string) (window : Z) (response : string)
  (p : pc) (st : state) :
  exists evs,
    history (snd (send_steps n session window response p st)) = (history st ++ evs)%list.
Proof.
  revert p st. induction n as [|n IH]; intros p st.
  - exists []. cbn. rewrite app_nil_r. reflexivity.
  - rewrite send_steps_S.
    destruct (send_step_history session window response p st) as (evs1 & H1).
    destruct (IH (fst (send_step session window response p st))
                 (snd (send_step session window response p st))) as (evs2 & H2).
    exists (evs1 ++ evs2)%list. rewrite H2, H1, app_assoc. reflexivity.
Qed.

(** Run alone, [send_response] looks for the script and then calls tmux:
    the script, or [send-keys] with the response. *)
Lemma send_response_calls_tmux (session : string) (window : Z) (response : string)
  (st : state) :
  exists argv rest,
    history (snd (send_response session window response st))
      = (history st ++ PathExists (send_script_of st) :: Run argv :: rest)%list /\
    (argv = [send_script_of st; target_of session window; response] \/
     argv = send_keys_cmd (target_of session window) response).
Proof.
  pose proof (send_steps_send_response session window response st) as Hlink.
  apply (f_equal snd) in Hlink. cbn [snd] in Hlink. rewrite <- Hlink.
  rewrite (send_steps_S 4), (send_steps_S 3).
  set (step1 := send_step session window response PcStart st).
  assert (history (snd step1) = (history st ++ [PathExists (send_script_of st)])%list /\
          (fst step1 = PcRunScript (send_script_of st) \/ fst step1 = PcSendKeys))
    as [Hh1 Hp1].
  { unfold step1. cbn [send_step]. unfold after, os_path_exists.
    destruct (path_exists (history st) (send_script_of st)); cbn; auto. }
  set (step2 := send_step session window response (fst step1) (snd step1)).
  assert (exists argv,
             history (snd step2) = (history (snd step1) ++ [Run argv])%list /\
             (argv = [send_script_of st; target_of session window; response] \/
              argv = send_keys_cmd (target_of session window) response))
    as (argv & Hh2 & Hargv).
  { unfold step2. destruct Hp1 as [-> | ->]; cbn [send_step]; unfold after.
    - pose proof (subprocess_run_state
                    [send_script_of st; target_of session window; response] true
                    (snd step1)) as Hrun.
      destruct (subprocess_run _ true (snd step1)) as [[out|e] st2];
        cbn [snd] in Hrun |- *; subst st2; eexists; split; auto.
    - pose proof (subprocess_run_state
                    (send_keys_cmd (target_of session window) response) false
                    (snd step1)) as Hrun.
      destruct (subprocess_run _ false (snd step1)) as [[out|e] st2];
        cbn [snd] in Hrun |- *; subst st2; eexists; split; auto. }
  destruct (send_steps_history 3 session window response (fst step2) (snd step2))
    as (rest & Hrest).
  exists argv, rest. split; [|exact Hargv].
  rewrite Hrest, Hh2, Hh1, <- !app_assoc. reflexivity.
Qed.

Lemma sent_and_done_calls (script target response : string) (t : thread) :
  sent_and_done script target response t -> adapter_calls t <> [].
Proof.
  intros (argv & rest & r & Hev & _). unfold adapter_calls. rewrite Hev.
  rewrite filter_cons_False by (cbn; auto). rewrite filter_cons_True by exact I.
  discriminate.
Qed.

(** C2, as the code has it. [send_response] has no guard and no skipped
    outcome. Under every schedule of two executions for the same session
    and window, an execution is over once it has had five steps, and an
    execution that is over has looked for the script, has made its own
    call to [subprocess.run] that sends its response to the window (the
    script, or [send-keys] with the response), and has ended with [True],
    with [False] or with an exception that is not [CalledProcessError]:
    both executions send. Run alone, the steps are the method, which
    calls tmux in the same way. *)
Theorem every_send_response_calls_tmux (sched : list bool) (session : string)
  (window : Z) (response1 response2 : string) (st st' : state) (t1 t2 : thread) :
  interleave sched session window (thread_start response1) (thread_start response2) st
    = (t1, t2, st') ->
  ((5 <= turns true sched)%nat -> finished t1 = true) /\
  ((5 <= turns false sched)%nat -> finished t2 = true) /\
  (finished t1 = true ->
   sent_and_done (send_script_of st) (target_of session window) response1 t1 /\
   adapter_calls t1 <> []) /\
  (finished t2 = true ->
   sent_and_done (send_script_of st) (target_of session window) response2 t2 /\
   adapter_calls t2 <> []) /\
  send_steps 5 session window response1 PcStart st
    = (PcDone (fst (send_response session window response1 st)),
       snd (send_response session window response1 st)) /\
  exists argv rest,
    history (snd (send_response session window response1 st))
      = (history st ++ PathExists (send_script_of st) :: Run argv :: rest)%list /\
    (argv = [send_script_of st; target_of session window; response1] \/
     argv = send_keys_cmd (target_of session window) response1).
Proof.
  intros Hrun.
  destruct (interleave_invariant sched session window
              (thread_start response1) (thread_start response2) st
              (send_script_of st) eq_refl eq_refl eq_refl)
    as (H1 & H2 & Hr1 & Hr2 & Hl1 & Hl2).
  rewrite Hrun in H1, H2, Hr1, Hr2, Hl1, Hl2.
  cbn [fst snd thread_start t_pc t_response remaining] in H1, H2, Hr1, Hr2, Hl1, Hl2.
  split; [|split; [|split; [|split; [|split]]]].
  - intros Hturns. apply remaining_finished. lia.
  - intros Hturns. apply remaining_finished. lia.
  - intros Hdone. pose proof (progress_finished _ _ _ H1 Hdone) as Hsent.
    rewrite Hr1 in Hsent. split; [exact Hsent|].
    eapply sent_and_done_calls. exact Hsent.
  - intros Hdone. pose proof (progress_finished _ _ _ H2 Hdone) as Hsent.
    rewrite Hr2 in Hsent. split; [exact Hsent|].
    eapply sent_and_done_calls. exact Hsent.
  - apply send_steps_send_response.
  - apply send_response_calls_tmux.
Qed.

End InFlight.

Lemma every_send_response_calls_tmux_witness :
  let env := one_window "Apply these changes? (yes/no)" in
  let st := state_of (preset_config "pm_orchestrator") in
  let run := interleave alternating "dev" 1 (thread_start "1") (thread_start "1") st in
  finished (fst (fst run)) = true /\
  finished (snd (fst run)) = true /\
  sent_and_done "/opt/orchestrator/send-claude-message.sh" "dev:1" "1" (fst (fst run)) /\
  sent_and_done "/opt/orchestrator/send-claude-message.sh" "dev:1" "1" (snd (fst run)).
Proof.
  intros env st run.
  destruct (@every_send_response_calls_tmux env alternating "dev" 1 "1" "1" st
              (snd run) (fst (fst run)) (snd (fst run)))
    as (Hdone1 & Hdone2 & Hsent1 & Hsent2 & _).
  - vm_compute. reflexivity.
  - assert (5 <= turns true alternating)%nat as Hturns1 by (vm_compute; lia).
    assert (5 <= turns false alternating)%nat as Hturns2 by (vm_compute; lia).
    split; [exact (Hdone1 Hturns1)|]. split; [exact (Hdone2 Hturns2)|].
    split; [apply (Hsent1 (Hdone1 Hturns1))|apply (Hsent2 (Hdone2 Hturns2))].
Defined.

(** C2, as stated, fails: two executions of [send_response] for window 1
    of the same session that take turns both finish with [True], and each
    has sent its keys; the second payload reaches tmux before the first
    [Enter]. *)
Lemma overlapping_sends_both_reach_tmux :
  let env := one_window "Apply these changes? (yes/no)" in
  let st := state_of (preset_config "pm_orchestrator") in
  let run := interleave alternating "dev" 1 (thread_start "1") (thread_start "1") st in
  t_pc (fst (fst run)) = PcDone (Ok true) /\
  t_pc (snd (fst run)) = PcDone (Ok true) /\
  adapter_calls (fst (fst run))
    = [ Run (send_keys_cmd "dev:1" "1"); Run (send_keys_cmd "dev:1" "Enter") ] /\
  adapter_calls (snd (fst run))
    = [ Run (send_keys_cmd "dev:1" "1"); Run (send_keys_cmd "dev:1" "Enter") ] /\
  filter is_Run (history (snd run))
    = [ Run (send_keys_cmd "dev:1" "1"); Run (send_keys_cmd "dev:1" "1");
        Run (send_keys_cmd "dev:1" "Enter"); Run (send_keys_cmd "dev:1" "Enter") ].
Proof.
  cbv zeta. repeat split; vm_compute; reflexivity.
Qed.

(** * Further properties *)

(** ** Loading the configuration *)

Section Loading.

Import PermissionPresets.

Lemma get_preset_config_cases (importable : bool) (preset : string) :
  (importable = true /\ str_in preset (keys PRESET_INFO) = true /\
   exists cfg, get_preset_config importable preset = Ok cfg /\
               generate_preset_config preset = Ok cfg) \/
  ((importable = false \/ str_in preset (keys PRESET_INFO) = false) /\
   get_preset_config importable preset = Ok get_default_config).
Proof.
  unfold get_preset_config. destruct importable; cbn [negb]; [|right; auto].
  destruct (str_in preset (keys PRESET_INFO)) eqn:Hknown.
  - left. destruct (generate_preset_config_known preset Hknown) as [info Hinfo].
    rewrite get_preset_generate. unfold generate_preset_config. rewrite Hinfo.
    repeat split. eexists. split; reflexivity.
  - right. destruct (generate_preset_config_unknown preset Hknown) as [msg ->]. auto.
Qed.

Lemma py_in_object (key : string) (members : list (string * json)) :
  py_in key (JObject members) = Ok (bool_decide (is_Some (assoc key members))).
Proof.
  cbn [py_in]. f_equal. unfold str_in, keys.
  induction members as [|[k v] members IH]; cbn [map fst existsb assoc]; [reflexivity|].
  rewrite String.eqb_sym. destruct (String.eqb k key); [reflexivity|exact IH].
Qed.

Lemma load_config_fallback (file : file_outcome) (importable : bool) (preset : string) :
  no_entry file preset ->
  load_config file importable preset
    = res_bind (get_preset_config importable preset) (fun cfg => Ok (FromPreset cfg)).
Proof.
  destruct file as [|msg|all_configs|e]; cbn [no_entry load_config];
    [reflexivity|reflexivity| |contradiction].
  intros [-> ->]. reflexivity.
Qed.

(** [load_config], case by case. A value of the file that is not
    iterable, and a list or a string in which the preset name occurs,
    raise [TypeError], which is not caught. Of a dictionary the entry
    under the preset name is returned as it is, whatever it is; else a
    value in which ["auto_responder"] occurs is returned itself. In every
    other case, as for a missing or unparsable file, the result is the
    built-in preset of that name, or the default configuration when the
    name is unknown or the presets cannot be imported. An exception of
    [open] other than [FileNotFoundError] is passed on. Nothing else is
    raised. *)
Theorem load_config_precedence (file : file_outcome) (importable : bool)
  (preset : string) :
  (forall all_configs,
      file = Loaded all_configs -> scalar all_configs = true ->
      load_config file importable preset = Raise (OtherException "TypeError")) /\
  (forall members v,
      file = Loaded (JObject members) -> assoc preset members = Some v ->
      load_config file importable preset = Ok (FromFile v)) /\
  (forall all_configs,
      file = Loaded all_configs ->
      (exists items, all_configs = JArray items /\ In (JString preset) items) \/
      (exists s, all_configs = JString s /\ PyStr.contains preset s = true) ->
      load_config file importable preset = Raise (OtherException "TypeError")) /\
  (forall all_configs,
      file = Loaded all_configs ->
      py_in preset all_configs = Ok false ->
      py_in "auto_responder" all_configs = Ok true ->
      load_config file importable preset = Ok (FromFile all_configs)) /\
  (no_entry file preset ->
   exists cfg,
     load_config file importable preset = Ok (FromPreset cfg) /\
     (importable = true -> str_in preset (keys PRESET_INFO) = true ->
      generate_preset_config preset = Ok cfg /\
      ar_enabled (get_auto_responder cfg) = Some true) /\
     (importable = false \/ str_in preset (keys PRESET_INFO) = false ->
      cfg = get_default_config)) /\
  (forall e, file = OpenRaises e -> load_config file importable preset = Raise e) /\
  ((exists v, load_config file importable preset = Ok v) \/
   load_config file importable preset = Raise (OtherException "TypeError") \/
   exists e, file = OpenRaises e).
Proof.
  assert (exists cfg,
             get_preset_config importable preset = Ok cfg /\
             (importable = true -> str_in preset (keys PRESET_INFO) = true ->
              generate_preset_config preset = Ok cfg /\
              ar_enabled (get_auto_responder cfg) = Some true) /\
             (importable = false \/ str_in preset (keys PRESET_INFO) = false ->
              cfg = get_default_config)) as (cfg & Hcfg & Hpreset & Hdefault).
  { destruct (get_preset_config_cases importable preset)
      as [(Himp & Hknown & cfg & Hcfg & Hgen)|[Hnot Hdefault]].
    - exists cfg. split; [exact Hcfg|]. split.
      + intros _ _. split; [exact Hgen|].
        apply generate_preset_config_Ok in Hgen as (info & _ & _ & ->). reflexivity.
      + intros [Hno|Hno]; congruence.
    - exists get_default_config. split; [exact Hdefault|]. split; [|reflexivity].
      intros Himp Hknown. destruct Hnot; congruence. }
  split; [|split; [|split; [|split; [|split; [|split]]]]].
  - intros all_configs -> Hscalar. destruct all_configs; try discriminate; reflexivity.
  - intros members v -> Hv. cbn [load_config]. rewrite py_in_object, Hv.
    rewrite bool_decide_eq_true_2 by (eexists; reflexivity).
    cbn [res_bind py_getitem]. rewrite Hv. reflexivity.
  - intros all_configs -> [(items & -> & Hin)|(s & -> & Hin)]; cbn [load_config py_in].
    + assert (existsb (fun item => match item with
                                   | JString s => String.eqb s preset
                                   | _ => false
                                   end) items = true) as ->.
      { apply existsb_exists. exists (JString preset). split; [exact Hin|].
        apply String.eqb_refl. }
      reflexivity.
    + rewrite Hin. reflexivity.
  - intros all_configs -> Hpreset' Hsingle. cbn [load_config].
    rewrite Hpreset', Hsingle. reflexivity.
  - intros Hnone. exists cfg. rewrite (load_config_fallback _ _ _ Hnone), Hcfg.
    split; [reflexivity|]. split; assumption.
  - intros e ->. reflexivity.
  - destruct file as [|msg|all_configs|e]; cbn [load_config].
    + left. rewrite Hcfg. eexists. reflexivity.
    + left. rewrite Hcfg. eexists. reflexivity.
    + destruct all_configs as [|b|q| |s|items|members];
        try (cbn [py_in res_bind]; auto; fail).
      * cbn [py_in res_bind].
        destruct (PyStr.contains preset s); cbn [py_getitem res_bind]; auto.
        destruct (PyStr.contains "auto_responder" s); [left; eexists; reflexivity|].
        left. rewrite Hcfg. eexists. reflexivity.
      * cbn [py_in res_bind].
        destruct (existsb _ items); cbn [py_getitem res_bind]; auto.
        destruct (existsb _ items); [left; eexists; reflexivity|].
        left. rewrite Hcfg. eexists. reflexivity.
      * rewrite py_in_object.
        destruct (assoc preset members) as [v|] eqn:Hv.
        -- rewrite bool_decide_eq_true_2 by (eexists; reflexivity).
           cbn [py_getitem res_bind]. rewrite Hv. left. eexists. reflexivity.
        -- rewrite bool_decide_eq_false_2 by (intros [x Hx]; discriminate).
           cbn [py_in res_bind].
           destruct (str_in "auto_responder" (keys members));
             [left; eexists; reflexivity|].
           left. rewrite Hcfg. eexists. reflexivity.
    + right. right. exists e. reflexivity.
Qed.

End Loading.

Lemma load_config_precedence_witness :
  load_config
    (Loaded (JObject [("conservative", JObject [("auto_responder", JObject [])])]))
    true "conservative"
    = Ok (FromFile (JObject [("auto_responder", JObject [])])) /\
  load_config (Loaded (JNumber 2.0%Q)) true "conservative"
    = Raise (OtherException "TypeError") /\
  load_config (Loaded (JArray [JString "conservative"])) true "conservative"
    = Raise (OtherException "TypeError") /\
  load_config (Loaded (JString "see auto_responder_config.json")) true "conservative"
    = Ok (FromFile (JString "see auto_responder_config.json")) /\
  load_config (JSONDecodeError "Expecting value") true "no_such_preset"
    = Ok (FromPreset get_default_config).
Proof.
  split; [|split; [|split; [|split]]].
  - destruct (load_config_precedence
                (Loaded (JObject [("conservative", JObject [("auto_responder", JObject [])])]))
                true "conservative") as (_ & Hentry & _).
    apply (Hentry _ _ eq_refl). reflexivity.
  - destruct (load_config_precedence (Loaded (JNumber 2.0%Q)) true "conservative")
      as (Hscalar & _).
    apply (Hscalar _ eq_refl). reflexivity.
  - destruct (load_config_precedence (Loaded (JArray [JString "conservative"])) true
                "conservative") as (_ & _ & Hitem & _).
    apply (Hitem _ eq_refl). left. eexists. split; [reflexivity|]. left. reflexivity.
  - destruct (load_config_precedence (Loaded (JString "see auto_responder_config.json"))
                true "conservative") as (_ & _ & _ & Hsingle & _).
    apply (Hsingle _ eq_refl); vm_compute; reflexivity.
  - destruct (load_config_precedence (JSONDecodeError "Expecting value") true
                "no_such_preset") as (_ & _ & _ & _ & Hfall & _).
    destruct (Hfall I) as (cfg & -> & _ & Hdefault).
    rewrite (Hdefault (or_intror eq_refl)). reflexivity.
Defined.

(** ** Starting and stopping *)

Section Lifecycle.

Context `{env : Env}.

Lemma monitor_loop_exits (fuel : nat) (session : string) (check_interval : Q)
  (st : state) :
  (running st && is_enabled st)%bool = false ->
  monitor_loop (S fuel) session check_interval st = (Ok LoopExit, st).
Proof. intros Hoff. cbn [monitor_loop]. rewrite Hoff. reflexivity. Qed.

(** The default configuration answers nothing, also once it has been
    enabled: its patterns lie under a key that the classifier does not
    read. Processing a window captures it and does nothing else: nothing
    is sent, nothing is logged. *)
Theorem default_config_answers_nothing (st : state) (session : string) (window : Z) :
  read_config st = get_default_config ->
  is_enabled st = false /\
  is_enabled (snd (enable st)) = true /\
  exists r,
    process_window session window (snd (enable st))
      = (r, after_run (capture_cmd session window 20) (snd (enable st))) /\
    check_for_confirmation_prompt session window (snd (enable st))
      = (res_bind r (fun _ => Ok None),
         after_run (capture_cmd session window 20) (snd (enable st))).
Proof.
  intros Hdefault.
  split; [unfold is_enabled; rewrite Hdefault; reflexivity|].
  split; [apply config_ref_enable|].
  set (st' := snd (enable st)).
  assert (read_config st' = set_enabled true (ensure_auto_responder get_default_config))
    as Hcfg.
  { unfold st', enable, bind. rewrite !update_config_spec.
    unfold save_config, emit, read_config. cbn. rewrite lookup_insert_eq.
    cbn. rewrite lookup_insert_eq. cbn.
    fold (read_config st). rewrite Hdefault. reflexivity. }
  destruct (capture_window_content session window 20 st') as [rc st1] eqn:Hcap.
  pose proof (capture_window_content_state _ _ _ _ _ _ Hcap) as Hst1.
  fold (after_run (capture_cmd session window 20) st') in Hst1. subst st1.
  assert (read_config (after_run (capture_cmd session window 20) st') = read_config st')
    as Hsame by reflexivity.
  unfold process_window, check_for_confirmation_prompt, bind. rewrite Hcap.
  destruct rc as [content|e].
  - exists (Ok tt). destruct (String.eqb content ""); [split; reflexivity|].
    unfold lift. rewrite Hsame, Hcfg.
    change (is_dangerous_operation _ content) with (@Ok bool false).
    cbv beta iota. rewrite Hsame, Hcfg. split; reflexivity.
  - exists (Raise e). split; reflexivity.
Qed.

(** [start_for_session] refuses a disabled configuration and leaves the
    responder as it was; with an enabled configuration it sets [running],
    and [monitor_session], which the thread it starts runs, does not end
    by itself when [time.sleep] accepts the check interval of the
    configuration: it goes on for as many ticks as one cares to run it.
    When [time.sleep] rejects the interval, the thread ends in its first
    tick with the exception of [time.sleep]. *)
Theorem start_for_session_starts_the_loop (session : string) (st : state) :
  (is_enabled st = false ->
   start_for_session session st = (Ok false, st)) /\
  (is_enabled st = true ->
   start_for_session session st = (Ok true, set_running true st) /\
   (sleep_error (get_check_interval st) = None ->
    forall fuel,
      fst (monitor_session fuel session (set_running true st)) = Ok OutOfFuel) /\
   (forall e,
       sleep_error (get_check_interval st) = Some e ->
       forall fuel,
         fst (monitor_session (S fuel) session (set_running true st)) = Raise e)).
Proof.
  unfold start_for_session. split; intros Hen; rewrite Hen; cbn [negb].
  - reflexivity.
  - split; [reflexivity|]. unfold monitor_session, bind, lift.
    change (get_check_interval (set_running true st)) with (get_check_interval st).
    split.
    + intros Hsleep fuel. apply monitor_loop_goes_on; [exact Hsleep|reflexivity|exact Hen].
    + intros e Hsleep fuel. apply monitor_loop_dies; [exact Hsleep|reflexivity|exact Hen].
Qed.

(** A responder is created stopped, with an empty log and the loaded
    configuration: until [start_for_session] is called,
    [monitor_session] returns at once, without a call to tmux. *)
Theorem new_responder_is_stopped (path preset dir : string) (file : file_outcome)
  (importable : bool) (st : state) (session : string) (fuel : nat) :
  init path preset dir file importable = Ok (Some st) ->
  running st = false /\
  response_log st = [] /\
  (exists v, load_config file importable preset = Ok v /\
             config_of v = Some (read_config st)) /\
  monitor_session (S fuel) session st = (Ok LoopExit, st).
Proof.
  unfold init. destruct (load_config file importable preset) as [v|e]; [|discriminate].
  cbn [res_bind]. destruct (config_of v) as [cfg|] eqn:Hcfg; [|discriminate].
  intros [= <-].
  split; [reflexivity|]. split; [reflexivity|].
  split; [exists v; split; [reflexivity|exact Hcfg]|].
  unfold monitor_session, bind, lift. apply monitor_loop_exits. reflexivity.
Qed.


Lemma monitor_windows_with_stop_before (w : Z) (session : string) (done : list Z)
  (rest : list Z) (st : state) :
  ~ In w done ->
  monitor_windows_with (stop_before w) session (done ++ rest) st
    = match monitor_windows session done st with
      | (Ok _, st1) => monitor_windows_with (stop_before w) session rest st1
      | (Raise e, st1) => (Raise e, st1)
      end.
Proof.
  revert st. induction done as [|x done IH]; intros st Hnotin.
  - reflexivity.
  - cbn [app monitor_windows_with monitor_windows].
    unfold stop_before at 1.
    destruct (Z.eqb_spec x w) as [->|Hne]; [exfalso; apply Hnotin; left; reflexivity|].
    unfold ret at 1.
    destruct (negb (running st)) eqn:Hrun.
    + destruct rest as [|y rest]; [reflexivity|].
      cbn [monitor_windows_with]. unfold stop_before at 1.
      destruct (Z.eqb y w).
      * unfold stop. cbn [negb running set_running]. f_equal.
        apply negb_true_iff in Hrun. destruct st. cbn in *. subst. reflexivity.
      * unfold ret at 1. rewrite Hrun. reflexivity.
    + unfold bind. destruct (process_window session x st) as [[[]|e] st0]; [|reflexivity].
      apply IH. intros Hin. apply Hnotin. right. exact Hin.
Qed.

(** [stop] during a tick: the window that the loop is about to look at
    and the windows after it are left alone, the tick ends with the state
    in which the windows before it were processed, and after the pause of
    the tick the monitor loop ends. *)
Theorem stop_ends_the_tick_at_the_next_window (w : Z) (session : string)
  (done rest : list Z) (st st1 : state) (fuel : nat) (check_interval : Q) :
  ~ In w done ->
  monitor_windows session done st = (Ok tt, st1) ->
  monitor_windows_with (stop_before w) session (done ++ w :: rest) st
    = (Ok tt, set_running false st1) /\
  history (set_running false st1) = history st1 /\
  monitor_loop (S fuel) session check_interval
               (snd (time_sleep check_interval (set_running false st1)))
    = (Ok LoopExit, snd (time_sleep check_interval (set_running false st1))).
Proof.
  intros Hnotin Hdone.
  rewrite (monitor_windows_with_stop_before w session done (w :: rest) st Hnotin), Hdone.
  cbn [monitor_windows_with]. unfold stop_before. rewrite Z.eqb_refl.
  split; [reflexivity|]. split; [reflexivity|].
  rewrite time_sleep_state. apply monitor_loop_exits. reflexivity.
Qed.

End Lifecycle.

Lemma default_config_answers_nothing_witness :
  let env := one_window "1. yes 2. no" in
  let st := state_of get_default_config in
  history (snd (process_window "dev" 1 (snd (enable st))))
    = [ Save "auto_responder_config.json" (read_config (snd (enable st)));
        Run (capture_cmd "dev" 1 20) ].
Proof.
  intros env st.
  destruct (@default_config_answers_nothing env st "dev" 1 eq_refl)
    as (_ & _ & r & Hproc & _).
  rewrite Hproc. reflexivity.
Defined.

Lemma start_for_session_starts_the_loop_witness :
  let env := dead_tmux in
  let st := set_running false (state_of (preset_config "conservative")) in
  let hasty := set_running false (state_of hasty_config) in
  fst (start_for_session "dev" st) = Ok true /\
  fst (monitor_session 3 "dev" (set_running true st)) = Ok OutOfFuel /\
  fst (start_for_session "dev" hasty) = Ok true /\
  fst (monitor_session 3 "dev" (set_running true hasty))
    = Raise (ValueError "sleep length must be non-negative").
Proof.
  intros env st hasty.
  destruct (@start_for_session_starts_the_loop env "dev" st) as [_ Hon].
  destruct (Hon eq_refl) as (-> & Hloop & _).
  destruct (@start_for_session_starts_the_loop env "dev" hasty) as [_ Hhasty].
  destruct (Hhasty eq_refl) as (-> & _ & Hdies).
  split; [reflexivity|]. split; [apply Hloop; reflexivity|].
  split; [reflexivity|]. apply (Hdies _ eq_refl).
Defined.

Lemma new_responder_is_stopped_witness :
  let file :=
    Loaded (JObject [("auto_responder",
                      JObject [("enabled", JBool true);
                               ("check_interval", JNumber 1.0%Q)])]) in
  exists st,
    init "auto_responder_config.json" "pm_orchestrator" "/opt/orchestrator" file true
      = Ok (Some st) /\
    running st = false /\
    is_enabled st = true /\
    @monitor_session dead_tmux 5 "dev" st = (Ok LoopExit, st).
Proof.
  intros file. eexists. split; [reflexivity|].
  destruct (@new_responder_is_stopped dead_tmux
              "auto_responder_config.json" "pm_orchestrator" "/opt/orchestrator"
              file true _ "dev" 4 eq_refl) as (Hrun & _ & _ & Hmon).
  split; [exact Hrun|]. split; [reflexivity|exact Hmon].
Defined.

Lemma stop_ends_the_tick_at_the_next_window_witness :
  let env := script_works in
  let st := state_of (preset_config "pm_orchestrator") in
  filter is_Run
         (history (snd (monitor_windows_with (stop_before 2) "dev" [1; 2; 3] st)))
    = [ Run (capture_cmd "dev" 1 20);
        Run ["/opt/orchestrator/send-claude-message.sh"; "dev:1"; "1"] ].
Proof.
  intros env st.
  destruct (@stop_ends_the_tick_at_the_next_window env 2 "dev" [1] [3] st
              (snd (monitor_windows "dev" [1] st)) 0 2.0%Q) as (Hstop & _).
  - intros [Heq|[]]. discriminate.
  - vm_compute. reflexivity.
  - change ([1; 2; 3]) with ([1] ++ 2 :: [3])%list. rewrite Hstop.
    vm_compute. reflexivity.
Defined.

(** ** Switching categories *)

Section Categories.

Lemma keys_set_item_enabled (c : string) (b : bool) (d : list (string * CategoryConfig)) :
  keys (set_item_enabled c b d) = keys d.
Proof.
  unfold keys. induction d as [|[k v] d IH]; [reflexivity|].
  cbn [set_item_enabled]. destruct (String.eqb k c); cbn [map fst]; [reflexivity|].
  f_equal. exact IH.
Qed.

Lemma assoc_set_item_enabled (c : string) (b : bool)
  (d : list (string * CategoryConfig)) :
  assoc c (set_item_enabled c b d) = category_with_enabled b <$> assoc c d.
Proof.
  induction d as [|[k v] d IH]; [reflexivity|].
  cbn [set_item_enabled assoc]. destruct (String.eqb k c) eqn:Hk; cbn [assoc]; rewrite Hk.
  - reflexivity.
  - exact IH.
Qed.

Lemma assoc_set_item_enabled_other (c c' : string) (b : bool)
  (d : list (string * CategoryConfig)) :
  c' <> c -> assoc c' (set_item_enabled c b d) = assoc c' d.
Proof.
  intros Hne. induction d as [|[k v] d IH]; [reflexivity|].
  cbn [set_item_enabled assoc]. destruct (String.eqb_spec k c) as [->|Hk]; cbn [assoc].
  - destruct (String.eqb_spec c c') as [?|_]; [congruence|reflexivity].
  - destruct (String.eqb k c'); [reflexivity|exact IH].
Qed.

Lemma set_item_enabled_twice (c : string) (b b' : bool)
  (d : list (string * CategoryConfig)) :
  set_item_enabled c b' (set_item_enabled c b d) = set_item_enabled c b' d.
Proof.
  induction d as [|[k v] d IH]; [reflexivity|].
  cbn [set_item_enabled]. destruct (String.eqb k c) eqn:Hk; cbn [set_item_enabled];
    rewrite Hk; [reflexivity|]. f_equal. exact IH.
Qed.

Lemma In_set_item_enabled (c : string) (b : bool) (d : list (string * CategoryConfig))
  (cc : CategoryConfig) :
  NoDup (keys d) -> In (c, cc) (set_item_enabled c b d) -> cc_enabled cc = Some b.
Proof.
  unfold keys. induction d as [|[k v] d IH]; [intros _ []|].
  cbn [map fst set_item_enabled]. intros Hnodup. apply NoDup_cons in Hnodup as [Hk Hd].
  destruct (String.eqb_spec k c) as [->|Hne].
  - intros [[= <-]|Hin]; [reflexivity|].
    exfalso. apply Hk. apply list_elem_of_In.
    apply (in_map fst) in Hin. exact Hin.
  - intros [[= Heq _]|Hin]; [congruence|]. apply IH; assumption.
Qed.

Lemma str_in_keys_assoc {V : Type} (c : string) (d : list (string * V)) :
  str_in c (keys d) = true -> exists v, assoc c d = Some v.
Proof.
  unfold keys, str_in. induction d as [|[k v] d IH]; cbn [map fst existsb assoc];
    [discriminate|].
  rewrite String.eqb_sym. destruct (String.eqb k c); [eexists; reflexivity|exact IH].
Qed.

Lemma set_category_known_controls (b : bool) (category : string) (st : state) :
  str_in category (keys (get_granular_controls (read_config st))) = true ->
  exists st',
    set_category b category st = (Ok true, st') /\
    config st' = config st /\
    running st' = running st /\
    response_log st' = response_log st /\
    read_config st'
      = set_category_enabled category b
          (ensure_granular_controls (ensure_auto_responder (read_config st))) /\
    get_granular_controls (read_config st')
      = set_item_enabled category b (get_granular_controls (read_config st)).
Proof.
  intros Hknown.
  destruct (set_category_known b category st Hknown)
    as (st' & Hset & Hconfig & Hrun & Hlog & Hstore).
  assert (read_config st'
            = set_category_enabled category b
                (ensure_granular_controls (ensure_auto_responder (read_config st))))
    as Hread by (unfold read_config at 1; rewrite Hconfig, Hstore; reflexivity).
  exists st'. repeat split; try assumption.
  rewrite Hread, get_granular_controls_set_category. f_equal.
  apply get_granular_controls_ensure.
Qed.

Lemma assoc_list_categories (c : string) (st : state) :
  assoc c (list_categories st)
    = (fun cfg => {| cs_enabled := default false (cc_enabled cfg);
                     cs_description := default "" (cc_description cfg);
                     cs_patterns_count := List.length (default [] (cc_patterns cfg)) |})
        <$> assoc c (get_granular_controls (read_config st)).
Proof. unfold list_categories. apply assoc_map. Qed.

(** After [enable_category] or [disable_category] of a category of the
    configuration, [list_categories] shows the same categories in the
    same order, the category with the new flag and its description and
    number of patterns as before, and every other category as before. *)
Theorem category_switch_shows_in_listing (b : bool) (category : string) (st : state) :
  str_in category (keys (get_granular_controls (read_config st))) = true ->
  exists st' before after,
    set_category b category st = (Ok true, st') /\
    keys (list_categories st') = keys (list_categories st) /\
    assoc category (list_categories st) = Some before /\
    assoc category (list_categories st') = Some after /\
    cs_enabled after = b /\
    cs_description after = cs_description before /\
    cs_patterns_count after = cs_patterns_count before /\
    forall other, other <> category ->
                  assoc other (list_categories st') = assoc other (list_categories st).
Proof.
  intros Hknown.
  destruct (set_category_known_controls b category st Hknown)
    as (st' & Hset & _ & _ & _ & _ & Hgc).
  destruct (str_in_keys_assoc _ _ Hknown) as [cc Hcc].
  exists st'. eexists _, _. split; [exact Hset|].
  rewrite !assoc_list_categories, Hgc, assoc_set_item_enabled, Hcc.
  unfold list_categories. rewrite Hgc.
  rewrite !(keys_map (fun cfg => {| cs_enabled := default false (cc_enabled cfg);
                                    cs_description := default "" (cc_description cfg);
                                    cs_patterns_count :=
                                      List.length (default [] (cc_patterns cfg)) |})).
  rewrite keys_set_item_enabled.
  repeat split.
  intros other Hother.
  rewrite !(assoc_map (fun cfg => {| cs_enabled := default false (cc_enabled cfg);
                                     cs_description := default "" (cc_description cfg);
                                     cs_patterns_count :=
                                       List.length (default [] (cc_patterns cfg)) |})).
  rewrite assoc_set_item_enabled_other by exact Hother. reflexivity.
Qed.

Lemma get_auto_responder_ensure (cfg : Config) :
  get_auto_responder (ensure_auto_responder cfg) = get_auto_responder cfg.
Proof. destruct cfg as [[ar|]]; reflexivity. Qed.

Lemma ensure_granular_controls_fields (cfg : Config) :
  let ar := get_auto_responder (ensure_granular_controls cfg) in
  ar_enabled ar = ar_enabled (get_auto_responder cfg) /\
  ar_check_interval ar = ar_check_interval (get_auto_responder cfg) /\
  ar_response_delay ar = ar_response_delay (get_auto_responder cfg) /\
  ar_log_responses ar = ar_log_responses (get_auto_responder cfg) /\
  ar_safety_controls ar = ar_safety_controls (get_auto_responder cfg).
Proof.
  unfold ensure_granular_controls.
  destruct (ar_granular_controls (get_auto_responder cfg)); repeat split.
Qed.

(** [enable_category] and [disable_category] of a name that is not a
    category of the configuration return [False] and save nothing; the
    categories, the safety controls and the other settings read as
    before. In memory the configuration has gained the empty
    dictionaries that the method puts in when they are missing. *)
Theorem unknown_category_is_refused (b : bool) (category : string) (st : state) :
  str_in category (keys (get_granular_controls (read_config st))) = false ->
  exists st',
    set_category b category st = (Ok false, st') /\
    history st' = history st /\
    response_log st' = response_log st /\
    running st' = running st /\
    config st' = config st /\
    read_config st' = ensure_granular_controls (ensure_auto_responder (read_config st)) /\
    get_granular_controls (read_config st') = get_granular_controls (read_config st) /\
    get_safety_controls (read_config st') = get_safety_controls (read_config st) /\
    is_enabled st' = is_enabled st /\
    logging st' = logging st.
Proof.
  intros Hunknown. unfold set_category, bind.
  rewrite update_config_spec.
  set (st1 := set_store _ st).
  assert (read_config st1 = ensure_auto_responder (read_config st)) as Hr1.
  { apply (read_config_update ensure_auto_responder st). }
  rewrite update_config_spec.
  set (st2 := set_store _ st1).
  assert (read_config st2 = ensure_granular_controls (ensure_auto_responder (read_config st)))
    as Hr2.
  { rewrite <- Hr1. apply (read_config_update ensure_granular_controls st1). }
  unfold lift. rewrite Hr2, get_granular_controls_ensure, Hunknown.
  exists st2. split; [reflexivity|].
  split; [reflexivity|]. split; [reflexivity|]. split; [reflexivity|].
  split; [reflexivity|]. split; [exact Hr2|].
  split; [rewrite Hr2; apply get_granular_controls_ensure|].
  destruct (ensure_granular_controls_fields (ensure_auto_responder (read_config st)))
    as (Hen & _ & _ & Hlog & Hsafe).
  rewrite get_auto_responder_ensure in Hen, Hlog, Hsafe.
  unfold get_safety_controls, is_enabled, logging. rewrite Hr2.
  rewrite Hen, Hlog, Hsafe. repeat split.
Qed.

Lemma set_enabled_fields (b : bool) (cfg : Config) :
  let ar := get_auto_responder (set_enabled b (ensure_auto_responder cfg)) in
  ar_enabled ar = Some b /\
  ar_check_interval ar = ar_check_interval (get_auto_responder cfg) /\
  ar_response_delay ar = ar_response_delay (get_auto_responder cfg) /\
  ar_log_responses ar = ar_log_responses (get_auto_responder cfg) /\
  ar_granular_controls ar = ar_granular_controls (get_auto_responder cfg) /\
  ar_safety_controls ar = ar_safety_controls (get_auto_responder cfg).
Proof. destruct cfg as [[ar|]]; repeat split. Qed.

Lemma read_config_enable (st : state) :
  read_config (snd (enable st)) = set_enabled true (ensure_auto_responder (read_config st)).
Proof.
  unfold enable, bind. rewrite !update_config_spec.
  unfold save_config, emit, read_config. cbn. rewrite !lookup_insert_eq. reflexivity.
Qed.

Lemma read_config_disable (st : state) :
  read_config (snd (disable st)) = set_enabled false (ensure_auto_responder (read_config st)).
Proof.
  unfold disable, bind. rewrite !update_config_spec.
  unfold save_config, emit, stop, read_config. cbn. rewrite !lookup_insert_eq. reflexivity.
Qed.

(** [enable] and [disable] change the flag ["enabled"] and nothing else
    of the configuration: the categories with their flags, the safety
    controls, the intervals and the logging flag are as before, and so is
    the log. [enable] leaves [running] as it is. *)
Theorem enable_changes_only_the_flag (st : state) (st' : state) :
  st' = snd (enable st) \/ st' = snd (disable st) ->
  get_granular_controls (read_config st') = get_granular_controls (read_config st) /\
  get_safety_controls (read_config st') = get_safety_controls (read_config st) /\
  get_check_interval st' = get_check_interval st /\
  get_response_delay st' = get_response_delay st /\
  logging st' = logging st /\
  response_log st' = response_log st /\
  (st' = snd (enable st) -> running st' = running st).
Proof.
  intros Hst'.
  assert (exists b, read_config st' = set_enabled b (ensure_auto_responder (read_config st)))
    as [b Hread].
  { destruct Hst' as [-> | ->]; eexists;
      [apply read_config_enable|apply read_config_disable]. }
  destruct (set_enabled_fields b (read_config st)) as (_ & Hci & Hrd & Hlog & Hgc & Hsafe).
  unfold get_granular_controls, get_safety_controls, get_check_interval,
    get_response_delay, logging.
  rewrite Hread, Hci, Hrd, Hlog, Hgc, Hsafe.
  repeat split.
  - destruct Hst' as [-> | ->]; reflexivity.
  - intros ->. reflexivity.
Qed.

(** What [enable], [disable], [enable_category] and [disable_category]
    save is the configuration as it is in memory after the change, in the
    file of the responder; it is their only effect outside. *)
Theorem changes_are_saved (st : state) (b : bool) (category : string) :
  history (snd (enable st))
    = (history st ++ [Save (config_path st) (read_config (snd (enable st)))])%list /\
  history (snd (disable st))
    = (history st ++ [Save (config_path st) (read_config (snd (disable st)))])%list /\
  (str_in category (keys (get_granular_controls (read_config st))) = true ->
   history (snd (set_category b category st))
     = (history st
          ++ [Save (config_path st) (read_config (snd (set_category b category st)))])%list).
Proof.
  split; [|split].
  - unfold enable, bind. rewrite !update_config_spec. reflexivity.
  - unfold disable, bind. rewrite !update_config_spec. reflexivity.
  - intros Hknown. unfold set_category, bind.
    rewrite update_config_spec.
    set (st1 := set_store _ st).
    assert (read_config st1 = ensure_auto_responder (read_config st)) as Hr1.
    { apply (read_config_update ensure_auto_responder st). }
    rewrite update_config_spec.
    set (st2 := set_store _ st1).
    assert (read_config st2
              = ensure_granular_controls (ensure_auto_responder (read_config st))) as Hr2.
    { rewrite <- Hr1. apply (read_config_update ensure_granular_controls st1). }
    unfold lift. rewrite Hr2, get_granular_controls_ensure, Hknown.
    rewrite update_config_spec. reflexivity.
Qed.

End Categories.

Section DisabledCategory.

Context `{env : Env}.

(** With unique category names, a category that has been disabled with
    [disable_category] is never answered for, whatever a window shows; and
    of two switches of the same category the last one counts. *)
Theorem disabled_category_is_never_answered (category : string) (st : state) :
  str_in category (keys (get_granular_controls (read_config st))) = true ->
  NoDup (keys (get_granular_controls (read_config st))) ->
  exists st',
    disable_category category st = (Ok true, st') /\
    (forall session window info st2,
        check_for_confirmation_prompt session window st' = (Ok (Some info), st2) ->
        p_category info <> category) /\
    (forall b,
        get_granular_controls (read_config (snd (set_category b category st')))
          = set_item_enabled category b (get_granular_controls (read_config st))).
Proof.
  intros Hknown Hnodup.
  destruct (set_category_known_controls false category st Hknown)
    as (st' & Hset & _ & _ & _ & _ & Hgc).
  exists st'. split; [exact Hset|]. split.
  - intros session window info st2 Hcheck Hcat.
    unfold check_for_confirmation_prompt, bind in Hcheck.
    destruct (capture_window_content session window 20 st') as [[content|e] st1] eqn:Hcap;
      [|discriminate].
    pose proof (capture_window_content_state _ _ _ _ _ _ Hcap) as Hst1.
    assert (read_config st1 = read_config st') as Hsame by (rewrite Hst1; reflexivity).
    destruct (String.eqb content ""); [discriminate|].
    unfold lift in Hcheck. rewrite Hsame in Hcheck.
    destruct (is_dangerous_operation (read_config st') content) as [[|]|e]; [| |discriminate].
    + destruct (log_response _ _ _ _ _ _ st1) as [[[]|e] st3]; discriminate.
    + injection Hcheck as Hcheck _. rewrite Hsame, Hgc in Hcheck.
      apply check_categories_Some in Hcheck
        as (before & cc & after & Hsplit & _ & Hen & _).
      assert (In (category, cc)
                 (set_item_enabled category false (get_granular_controls (read_config st))))
        as Hin.
      { rewrite Hsplit, Hcat. apply in_or_app. right. left. reflexivity. }
      apply In_set_item_enabled in Hin; [|exact Hnodup].
      rewrite Hin in Hen. discriminate.
  - intros b.
    assert (str_in category (keys (get_granular_controls (read_config st'))) = true)
      as Hknown' by (rewrite Hgc, keys_set_item_enabled; exact Hknown).
    destruct (set_category_known_controls b category st' Hknown')
      as (st'' & Hset' & _ & _ & _ & _ & Hgc').
    rewrite Hset'. cbn [snd]. rewrite Hgc', Hgc. apply set_item_enabled_twice.
Qed.

End DisabledCategory.

Lemma category_switch_shows_in_listing_witness :
  let st := state_of (preset_config "conservative") in
  cs_enabled <$> assoc "git_operations"
                   (list_categories (snd (enable_category "git_operations" st)))
    = Some true.
Proof.
  intros st.
  destruct (category_switch_shows_in_listing true "git_operations" st eq_refl)
    as (st' & before & after & Hset & _ & _ & Hafter & Hflag & _).
  unfold enable_category. rewrite Hset. cbn [snd]. rewrite Hafter. cbn. rewrite Hflag.
  reflexivity.
Defined.

Lemma unknown_category_is_refused_witness :
  let st := state_of (preset_config "conservative") in
  fst (enable_category "deployments" st) = Ok false /\
  history (snd (enable_category "deployments" st)) = [].
Proof.
  intros st.
  destruct (unknown_category_is_refused true "deployments" st eq_refl)
    as (st' & Hset & Hhist & _).
  unfold enable_category. rewrite Hset. split; [reflexivity|exact Hhist].
Defined.

Lemma disabled_category_is_never_answered_witness :
  let env := one_window "Apply these changes? (yes/no)" in
  let st := state_of (preset_config "pm_orchestrator") in
  exists st',
    disable_category "file_operations" st = (Ok true, st') /\
    fst (check_for_confirmation_prompt "dev" 1 st') = Ok None.
Proof.
  intros env st.
  destruct (@disabled_category_is_never_answered env "file_operations" st eq_refl)
    as (st' & Hset & Hnever & _).
  - vm_compute. repeat constructor; intros Hin;
      repeat (apply elem_of_cons in Hin as [Hin|Hin]; [discriminate|]);
      apply elem_of_nil in Hin; exact Hin.
  - exists st'. split; [exact Hset|].
    vm_compute in Hset. injection Hset as <-. vm_compute. reflexivity.
Defined.

Lemma enable_changes_only_the_flag_witness :
  let st := state_of (preset_config "autonomous_agent") in
  get_granular_controls (read_config (snd (disable st)))
    = get_granular_controls (read_config st).
Proof.
  intros st.
  apply (enable_changes_only_the_flag st (snd (disable st))).
  right. reflexivity.
Defined.

Lemma changes_are_saved_witness :
  let st := state_of (preset_config "conservative") in
  exists cfg,
    history (snd (enable_category "git_operations" st))
      = [Save "auto_responder_config.json" cfg] /\
    cc_enabled <$> assoc "git_operations" (get_granular_controls cfg) = Some (Some true).
Proof.
  intros st.
  destruct (changes_are_saved st true "git_operations") as (_ & _ & Hsaved).
  eexists. split; [apply (Hsaved eq_refl)|]. vm_compute. reflexivity.
Defined.

(** ** Sending and logging *)

Section Sending.

Context `{env : Env}.

Lemma log_response_on (session : string) (window : Z)
  (response status category description : string) (st : state) :
  logging st = true ->
  log_response session window response status category description st
    = (Ok tt,
       set_response_log
         (response_log st
            ++ [log_entry_of st session window response status category description]) st).
Proof. apply log_response_appends. Qed.

(** Without [send-claude-message.sh], [send_response] sends the response
    with [send-keys], pauses, and sends [Enter]. The two commands are run
    without [check], so that their exit status plays no part: when
    [time.sleep] accepts the delay of the configuration, the method
    returns [True] whatever tmux answers, and the log says "Success via
    direct tmux". When [time.sleep] rejects the delay, its exception
    leaves the method after the response has been sent: [Enter] is not
    sent and nothing is logged. *)
Theorem direct_send_reports_success (session : string) (window : Z) (response : string)
  (st : state) :
  path_exists (history st) (send_script_of st) = false ->
  (exists rc out,
      run_process (history st ++ [PathExists (send_script_of st)])
                  (send_keys_cmd (target_of session window) response)
        = Exited rc out) ->
  (sleep_error (get_response_delay st) = None ->
   (exists rc out,
       run_process (history st ++
                    [ PathExists (send_script_of st);
                      Run (send_keys_cmd (target_of session window) response);
                      Sleep (get_response_delay st) ])
                   (send_keys_cmd (target_of session window) "Enter")
         = Exited rc out) ->
   exists st',
     send_response session window response st = (Ok true, st') /\
     history st'
       = (history st ++
          [ PathExists (send_script_of st);
            Run (send_keys_cmd (target_of session window) response);
            Sleep (get_response_delay st);
            Run (send_keys_cmd (target_of session window) "Enter") ])%list /\
     (logging st = true ->
      exists entry,
        response_log st' = (response_log st ++ [entry])%list /\
        le_status entry = "Success via direct tmux" /\
        le_response entry = response /\
        le_window entry = window)) /\
  (forall e,
      sleep_error (get_response_delay st) = Some e ->
      is_CalledProcessError e = false ->
      send_response session window response st
        = (Raise e,
           set_history (history st ++
                        [ PathExists (send_script_of st);
                          Run (send_keys_cmd (target_of session window) response);
                          Sleep (get_response_delay st) ]) st)).
Proof.
  intros Hnoscript (rc & out & Hrun).
  split; [intros Hsleep (rc' & out' & Hrun')|intros e Hsleep Hother];
    unfold send_response, bind, lift, try_except, os_path_exists; rewrite Hnoscript;
    unfold subprocess_run at 1; cbn [history set_history]; rewrite Hrun;
    cbn [andb]; unfold time_sleep; cbn [history set_history];
    change (get_response_delay (set_history ?h ?s)) with (get_response_delay s);
    change (get_response_delay (set_history ?h ?s)) with (get_response_delay s).
  - rewrite Hsleep.
    unfold subprocess_run at 1. cbn [history set_history].
    rewrite <- !app_assoc. cbn [app]. rewrite Hrun'.
    cbn [andb]. unfold ret at 1.
    match goal with |- context [log_response ?s ?w ?r ?u ?c ?d ?x] =>
      set (st4 := x);
      destruct (logging st) eqn:Hlog;
        [rewrite (log_response_on s w r u c d st4 Hlog)
        |rewrite (log_response_off s w r u c d st4 Hlog)] end.
    + eexists. split; [reflexivity|]. split; [reflexivity|].
      intros _. eexists. split; [reflexivity|]. repeat split.
    + eexists. split; [reflexivity|]. split; [reflexivity|]. discriminate.
  - rewrite Hsleep, Hother.
    rewrite <- !app_assoc. reflexivity.
Qed.

(** What a call of [send_response] leaves in the log, while logging is
    on: one record when it returns, "Success via ..." with [True] and
    "Error: ..." with [False]; nothing when it raises. *)
Lemma send_response_log (session : string) (window : Z) (response : string)
  (st st' : state) (r : res bool) :
  logging st = true ->
  send_response session window response st = (r, st') ->
  match r with
  | Ok true =>
      exists entry method,
        response_log st' = (response_log st ++ [entry])%list /\
        le_status entry = "Success via " +:+ method /\
        (method = "send-claude-message.sh" \/ method = "direct tmux") /\
        le_response entry = response /\ le_category entry = ""
  | Ok false =>
      exists entry e,
        response_log st' = (response_log st ++ [entry])%list /\
        le_status entry = "Error: " +:+ str_exn e /\
        le_response entry = response /\ le_category entry = ""
  | Raise _ => response_log st' = response_log st
  end.
Proof.
  intros Hlog.
  assert (forall s w x u c d (h : list event),
             log_response s w x u c d (set_history h st)
               = (Ok tt,
                  set_response_log
                    (response_log st ++ [log_entry_of (set_history h st) s w x u c d])
                    (set_history h st))) as Hon.
  { intros. exact (log_response_on _ _ _ _ _ _ (set_history h st) Hlog). }
  unfold send_response, bind, lift, try_except, os_path_exists.
  destruct (path_exists (history st) (send_script_of st)).
  - unfold subprocess_run at 1. cbn [history set_history].
    destruct (run_process _ _) as [rc out|e].
    + cbn [andb]. destruct (negb (Z.eqb rc 0)).
      * cbn [is_CalledProcessError]. change (set_history ?h (set_history ?h' st))
          with (set_history h st). rewrite Hon. unfold ret.
        intros [= <- <-]. eexists _, _. split; [reflexivity|]. repeat split.
      * unfold ret at 1. change (set_history ?h (set_history ?h' st))
          with (set_history h st). rewrite Hon. unfold ret.
        intros [= <- <-]. eexists _, _. split; [reflexivity|]. split; [reflexivity|].
        split; [left; reflexivity|]. split; reflexivity.
    + destruct (is_CalledProcessError e).
      * change (set_history ?h (set_history ?h' st)) with (set_history h st).
        rewrite Hon. unfold ret.
        intros [= <- <-]. eexists _, _. split; [reflexivity|]. repeat split.
      * intros [= <- <-]. reflexivity.
  - unfold subprocess_run at 1. cbn [history set_history].
    destruct (run_process _ _) as [rc out|e].
    + cbn [andb]. unfold time_sleep. cbn [history set_history].
      destruct (sleep_error _) as [e|].
      { destruct (is_CalledProcessError e).
        - change (set_history ?h (set_history ?h' (set_history ?h'' st)))
            with (set_history h st).
          rewrite Hon. unfold ret.
          intros [= <- <-]. eexists _, _. split; [reflexivity|]. repeat split.
        - intros [= <- <-]. reflexivity. }
      unfold subprocess_run at 1. cbn [history set_history].
      destruct (run_process _ _) as [rc' out'|e].
      * cbn [andb]. unfold ret at 1.
        change (set_history ?h (set_history ?h' (set_history ?h'' (set_history ?h''' st))))
          with (set_history h st).
        rewrite Hon. unfold ret.
        intros [= <- <-]. eexists _, _. split; [reflexivity|]. split; [reflexivity|].
        split; [right; reflexivity|]. split; reflexivity.
      * destruct (is_CalledProcessError e).
        -- change (set_history ?h (set_history ?h' (set_history ?h'' (set_history ?h''' st))))
             with (set_history h st).
           rewrite Hon. unfold ret.
           intros [= <- <-]. eexists _, _. split; [reflexivity|]. repeat split.
        -- intros [= <- <-]. reflexivity.
    + destruct (is_CalledProcessError e).
      * change (set_history ?h (set_history ?h' st)) with (set_history h st).
        rewrite Hon. unfold ret.
        intros [= <- <-]. eexists _, _. split; [reflexivity|]. repeat split.
      * intros [= <- <-]. reflexivity.
Qed.

Lemma check_for_confirmation_prompt_Some (session : string) (window : Z)
  (st st1 : state) (info : PromptInfo) :
  check_for_confirmation_prompt session window st = (Ok (Some info), st1) ->
  st1 = after_run (capture_cmd session window 20) st /\
  exists content,
    capture_window_content session window 20 st = (Ok content, st1) /\
    content <> "" /\
    is_dangerous_operation (read_config st) content = Ok false /\
    check_categories (get_granular_controls (read_config st)) content = Ok (Some info).
Proof.
  unfold check_for_confirmation_prompt, bind. intros Hcheck.
  destruct (capture_window_content session window 20 st) as [[content|e] st0] eqn:Hcap;
    [|discriminate].
  pose proof (capture_window_content_state _ _ _ _ _ _ Hcap) as Hst0.
  assert (read_config st0 = read_config st) as Hsame by (rewrite Hst0; reflexivity).
  destruct (String.eqb_spec content "") as [?|Hfull]; [discriminate|].
  unfold lift in Hcheck. rewrite Hsame in Hcheck.
  destruct (is_dangerous_operation (read_config st) content) as [[|]|e] eqn:Hd;
    [| |discriminate].
  - destruct (log_response _ _ _ _ _ _ st0) as [[[]|e] st3]; discriminate.
  - injection Hcheck as Hcheck <-. rewrite Hsame in Hcheck.
    split; [exact Hst0|]. exists content. repeat split; assumption || reflexivity.
Qed.

(** The audit trail of an answer, while logging is on: a prompt that is
    answered leaves two records, the one of the send ("Success via ...")
    and "Auto-approved" with the category and its description; when the
    send fails with [False], only the record of the error is left and
    nothing says "Auto-approved". Finding the prompt logs nothing. *)
Theorem answer_is_logged_twice (session : string) (window : Z) (info : PromptInfo)
  (st st1 st2 : state) (sent : bool) :
  logging st = true ->
  check_for_confirmation_prompt session window st = (Ok (Some info), st1) ->
  send_response session window (p_response info) st1 = (Ok sent, st2) ->
  response_log st1 = response_log st /\
  exists st3 first,
    process_window session window st = (Ok tt, st3) /\
    le_response first = p_response info /\
    history st3 = history st2 /\
    if sent
    then response_log st3
         = (response_log st ++
            [first;
             log_entry_of st2 session window (p_response info) "Auto-approved"
                          (p_category info) (p_description info)])%list /\
         exists method, le_status first = "Success via " +:+ method
    else response_log st3 = (response_log st ++ [first])%list /\
         exists e, le_status first = "Error: " +:+ str_exn e.
Proof.
  intros Hlog Hcheck Hsend.
  destruct (check_for_confirmation_prompt_Some _ _ _ _ _ Hcheck) as [Hst1 _].
  assert (logging st1 = true) as Hlog1 by (rewrite Hst1; exact Hlog).
  assert (response_log st1 = response_log st) as Hsame by (rewrite Hst1; reflexivity).
  split; [exact Hsame|].
  pose proof (send_response_log _ _ _ _ _ _ Hlog1 Hsend) as Hsent.
  pose proof (extending_send_response session window (p_response info) st1) as Hext.
  rewrite Hsend in Hext. cbn [snd] in Hext.
  assert (logging st2 = true) as Hlog2.
  { unfold logging. rewrite (extends_read_config _ _ Hext). exact Hlog1. }
  unfold process_window, bind. rewrite Hcheck, Hsend.
  destruct sent.
  - destruct Hsent as (entry & method & Hl & Hstatus & _ & Hresp & _).
    rewrite (log_response_on _ _ _ _ _ _ _ Hlog2).
    eexists _, entry. split; [reflexivity|]. split; [exact Hresp|].
    split; [reflexivity|]. split; [|exists method; exact Hstatus].
    cbn. rewrite Hl, Hsame, <- app_assoc. reflexivity.
  - destruct Hsent as (entry & e & Hl & Hstatus & Hresp & _).
    eexists _, entry. split; [reflexivity|]. split; [exact Hresp|].
    split; [reflexivity|]. split; [|exists e; exact Hstatus].
    rewrite Hl, Hsame. reflexivity.
Qed.

(** When [send-claude-message.sh] is there and exits with an error
    status, [send_response] returns [False] after that single call: tmux
    is not tried directly. *)
Theorem failed_script_is_not_retried (session : string) (window : Z) (response : string)
  (st : state) :
  path_exists (history st) (send_script_of st) = true ->
  exit_failure
    (run_process (history st ++ [PathExists (send_script_of st)])
                 [send_script_of st; target_of session window; response]) ->
  exists st',
    send_response session window response st = (Ok false, st') /\
    history st'
      = (history st ++
         [ PathExists (send_script_of st);
           Run [send_script_of st; target_of session window; response] ])%list.
Proof.
  intros Hscript (rc & out & Hrun & Hrc).
  unfold send_response, bind, lift, try_except, os_path_exists. rewrite Hscript.
  unfold subprocess_run at 1. cbn [history set_history]. rewrite Hrun.
  apply Z.eqb_neq in Hrc. rewrite Hrc. cbn [andb negb is_CalledProcessError].
  match goal with |- context [log_response ?s ?w ?r ?u ?c ?d ?x] =>
    destruct (log_response_Ok s w r u c d x) as (st2 & -> & Hh & _) end.
  eexists. split; [reflexivity|]. cbn [snd ret]. rewrite Hh. cbn.
  rewrite <- app_assoc. reflexivity.
Qed.

End Sending.

Lemma direct_send_reports_success_witness :
  let env := dead_tmux in
  let st := state_of (preset_config "pm_orchestrator") in
  let hasty := state_of hasty_config in
  fst (send_response "dev" 1 "1" st) = Ok true /\
  map le_status (response_log (snd (send_response "dev" 1 "1" st)))
    = ["Success via direct tmux"] /\
  fst (send_response "dev" 1 "1" hasty)
    = Raise (ValueError "sleep length must be non-negative") /\
  history (snd (send_response "dev" 1 "1" hasty))
    = [ PathExists "/opt/orchestrator/send-claude-message.sh";
        Run (send_keys_cmd "dev:1" "1");
        Sleep (-0.5)%Q ].
Proof.
  intros env st hasty.
  destruct (@direct_send_reports_success env "dev" 1 "1" st eq_refl) as [Hsent _].
  { exists 1, "no server running". reflexivity. }
  destruct (@direct_send_reports_success env "dev" 1 "1" hasty eq_refl) as [_ Hraised].
  { exists 1, "no server running". reflexivity. }
  destruct (Hsent eq_refl) as (st' & Hsend & _ & Hlog).
  { exists 1, "no server running". reflexivity. }
  rewrite Hsend. cbn [fst snd]. split; [reflexivity|].
  split.
  - destruct (Hlog eq_refl) as (entry & -> & Hstatus & _). cbn. rewrite Hstatus.
    reflexivity.
  - rewrite (Hraised (ValueError "sleep length must be non-negative") eq_refl eq_refl).
    split; reflexivity.
Defined.

Lemma answer_is_logged_twice_witness :
  let env := one_window "Apply these changes? (yes/no)" in
  let st := state_of (preset_config "pm_orchestrator") in
  map le_response (response_log (snd (process_window "dev" 1 st))) = ["1"; "1"].
Proof.
  intros env st.
  destruct (@answer_is_logged_twice env "dev" 1
              {| p_response := "1"; p_category := "file_operations";
                 p_description := "File creation, editing, saving";
                 p_pattern_matched := "Apply these changes\?" |}
              st (snd (check_for_confirmation_prompt "dev" 1 st))
              (snd (send_response "dev" 1 "1"
                      (snd (check_for_confirmation_prompt "dev" 1 st))))
              true)
    as (_ & st3 & first & Hproc & Hfirst & _ & Hlog & _).
  - reflexivity.
  - vm_compute. reflexivity.
  - vm_compute. reflexivity.
  - rewrite Hproc. cbn [snd]. rewrite Hlog. cbn. rewrite Hfirst. reflexivity.
Defined.

Lemma failed_script_is_not_retried_witness :
  let env := env_of (fun _ argv =>
                       match argv with
                       | "tmux" :: _ => Exited 0 ""
                       | _ => Exited 2 "cannot reach the pane"
                       end)
                    (fun _ _ => true) in
  let st := state_of (preset_config "pm_orchestrator") in
  fst (send_response "dev" 1 "1" st) = Ok false /\
  filter is_Run (history (snd (send_response "dev" 1 "1" st)))
    = [Run ["/opt/orchestrator/send-claude-message.sh"; "dev:1"; "1"]].
Proof.
  intros env st.
  destruct (@failed_script_is_not_retried env "dev" 1 "1" st eq_refl)
    as (st' & Hsend & Hhist).
  - exists 2, "cannot reach the pane". split; [reflexivity|discriminate].
  - rewrite Hsend. split; [reflexivity|]. cbn [snd]. rewrite Hhist. reflexivity.
Defined.

(** ** The shape of a tick *)

Section Ticks.

Context `{env : Env}.

Lemma get_session_windows_state (session : string) (st : state) :
  snd (get_session_windows session st) = after_run (list_windows_cmd session) st.
Proof.
  unfold get_session_windows, try_except, bind.
  pose proof (subprocess_run_state (list_windows_cmd session) true st) as Hrun.
  destruct (subprocess_run (list_windows_cmd session) true st) as [[out|e] st0];
    cbn [snd] in Hrun; subst st0.
  - unfold lift. destruct (ints_of _) as [ws|e]; [reflexivity|].
    destruct (is_CalledProcessError e); reflexivity.
  - destruct (is_CalledProcessError e); reflexivity.
Qed.

(** Every tick, whatever happens in it, starts with the listing of the
    windows of the session, and the last thing it does is to call
    [time.sleep] with the check interval, also after an exception: the
    loop never spins without pausing. The tick returns normally exactly
    when [time.sleep] accepts the interval; else it raises what
    [time.sleep] raises. *)
Theorem every_tick_lists_and_sleeps (session : string) (check_interval : Q) (st : state) :
  exists st' between,
    monitor_tick session check_interval st
      = (match sleep_error check_interval with
         | None => Ok tt
         | Some e => Raise e
         end, st') /\
    history st'
      = (history st ++ Run (list_windows_cmd session) :: between
           ++ [Sleep check_interval])%list.
Proof.
  pose proof (monitor_tick_result session check_interval st) as Hres.
  destruct (monitor_tick session check_interval st) as [r st'] eqn:Htick.
  cbn [fst] in Hres. subst r. exists st'.
  assert (st' = snd (monitor_tick session check_interval st)) as ->
    by (rewrite Htick; reflexivity).
  clear Htick.
  assert (forall st0 evs,
             history st0 = (history st ++ Run (list_windows_cmd session) :: evs)%list ->
             history (snd (time_sleep check_interval st0))
               = (history st ++ Run (list_windows_cmd session) :: evs
                    ++ [Sleep check_interval])%list) as Hsleep.
  { intros st0 evs Hst0. rewrite time_sleep_state. cbn. rewrite Hst0, <- app_assoc.
    reflexivity. }
  unfold monitor_tick, try_except, bind.
  pose proof (get_session_windows_state session st) as Hst0.
  destruct (get_session_windows session st) as [[windows|e] st0]; cbn [snd] in Hst0.
  - pose proof (extending_monitor_windows session windows st0) as Hext.
    destruct (monitor_windows session windows st0) as [[[]|e] st1]; cbn [snd] in Hext;
      destruct Hext as (_ & _ & _ & _ & _ & _ & [k Hk]);
      rewrite Hst0 in Hk; cbn in Hk; rewrite <- app_assoc in Hk; cbn [app] in Hk.
    + pose proof (Hsleep st1 k Hk) as Hlast.
      destruct (time_sleep check_interval st1) as [[[]|e] st2] eqn:Hs; cbn [snd] in Hlast.
      * exists k. split; [reflexivity|exact Hlast].
      * exists (k ++ [Sleep check_interval])%list. split; [reflexivity|].
        unfold is_Exception. apply Hsleep. exact Hlast.
    + exists k. split; [reflexivity|]. unfold is_Exception. apply Hsleep. exact Hk.
  - exists []. split; [reflexivity|]. unfold is_Exception. apply Hsleep.
    rewrite Hst0. reflexivity.
Qed.


Lemma send_response_events (session : string) (window : Z) (response : string)
  (st : state) :
  exists evs,
    history (snd (send_response session window response st)) = (history st ++ evs)%list /\
    send_events (send_script_of st) (target_of session window) response evs.
Proof.
  assert (forall s w x u c d (st0 : state),
             history (snd (log_response s w x u c d st0)) = history st0) as Hlog.
  { intros. destruct (log_response_Ok s w x u c d st0) as (st2 & -> & Hh & _). exact Hh. }
  assert (forall s w x u c d (st0 : state),
             fst (log_response s w x u c d st0) = Ok tt) as Hok.
  { intros. destruct (log_response_Ok s w x u c d st0) as (st2 & -> & _). reflexivity. }
  unfold send_response, bind, lift, try_except, os_path_exists, send_events.
  destruct (path_exists (history st) (send_script_of st)).
  - unfold subprocess_run at 1. cbn [history set_history].
    destruct (run_process _ _) as [rc out|e].
    + cbn [andb]. destruct (negb (Z.eqb rc 0)); cbn [is_CalledProcessError]; unfold ret;
        match goal with |- context [log_response ?s ?w ?x ?u ?c ?d ?st0] =>
          specialize (Hlog s w x u c d st0); specialize (Hok s w x u c d st0);
          destruct (log_response s w x u c d st0) as [[[]|e] st2]; cbn in Hlog, Hok;
          [|discriminate] end;
        eexists; (split; [cbn; rewrite Hlog, <- app_assoc; reflexivity|]); auto.
    + destruct (is_CalledProcessError e); unfold ret;
        [match goal with |- context [log_response ?s ?w ?x ?u ?c ?d ?st0] =>
           specialize (Hlog s w x u c d st0); specialize (Hok s w x u c d st0);
           destruct (log_response s w x u c d st0) as [[[]|e'] st2]; cbn in Hlog, Hok;
           [|discriminate] end;
         eexists; (split; [cbn; rewrite Hlog, <- app_assoc; reflexivity|]); auto
        |eexists; (split; [cbn; rewrite <- app_assoc; reflexivity|]); auto].
  - unfold subprocess_run at 1. cbn [history set_history].
    destruct (run_process _ _) as [rc out|e].
    + cbn [andb]. unfold time_sleep. cbn [history set_history].
      destruct (sleep_error _) as [e|].
      { destruct (is_CalledProcessError e); unfold ret;
          [match goal with |- context [log_response ?s ?w ?x ?u ?c ?d ?st0] =>
             specialize (Hlog s w x u c d st0); specialize (Hok s w x u c d st0);
             destruct (log_response s w x u c d st0) as [[[]|e'] st2]; cbn in Hlog, Hok;
             [|discriminate] end;
           eexists; (split; [cbn; rewrite Hlog, <- !app_assoc; reflexivity|])
          |eexists; (split; [cbn; rewrite <- !app_assoc; reflexivity|])];
          right; right; eexists; left; reflexivity. }
      unfold subprocess_run at 1. cbn [history set_history].
      destruct (run_process _ _) as [rc' out'|e].
      * cbn [andb]. unfold ret.
        match goal with |- context [log_response ?s ?w ?x ?u ?c ?d ?st0] =>
          specialize (Hlog s w x u c d st0); specialize (Hok s w x u c d st0);
          destruct (log_response s w x u c d st0) as [[[]|e'] st2]; cbn in Hlog, Hok;
          [|discriminate] end.
        eexists. split; [cbn; rewrite Hlog, <- !app_assoc; reflexivity|].
        right. right. eexists. right. reflexivity.
      * destruct (is_CalledProcessError e); unfold ret;
          [match goal with |- context [log_response ?s ?w ?x ?u ?c ?d ?st0] =>
             specialize (Hlog s w x u c d st0); specialize (Hok s w x u c d st0);
             destruct (log_response s w x u c d st0) as [[[]|e'] st2]; cbn in Hlog, Hok;
             [|discriminate] end;
           eexists; (split; [cbn; rewrite Hlog, <- !app_assoc; reflexivity|])
          |eexists; (split; [cbn; rewrite <- !app_assoc; reflexivity|])];
          right; right; eexists; right; reflexivity.
    + destruct (is_CalledProcessError e); unfold ret;
        [match goal with |- context [log_response ?s ?w ?x ?u ?c ?d ?st0] =>
           specialize (Hlog s w x u c d st0); specialize (Hok s w x u c d st0);
           destruct (log_response s w x u c d st0) as [[[]|e'] st2]; cbn in Hlog, Hok;
           [|discriminate] end;
         eexists; (split; [cbn; rewrite Hlog, <- app_assoc; reflexivity|]); auto
        |eexists; (split; [cbn; rewrite <- app_assoc; reflexivity|]); auto].
Qed.

Lemma no_capture_send_events (script target response : string) (evs : list event) :
  send_events script target response evs -> no_capture evs.
Proof.
  unfold send_events, no_capture, capture_cmd, send_keys_cmd.
  intros [->|[->|[delay [->| ->]]]] session window lines Hin; cbn in Hin;
    repeat (destruct Hin as [Hin|Hin]; [discriminate Hin|]); exact Hin.
Qed.

Lemma check_for_confirmation_prompt_history (session : string) (window : Z) (st : state) :
  history (snd (check_for_confirmation_prompt session window st))
    = (history st ++ [Run (capture_cmd session window 20)])%list.
Proof.
  unfold check_for_confirmation_prompt, bind.
  destruct (capture_window_content session window 20 st) as [[content|e] st0] eqn:Hcap;
    rewrite (capture_window_content_state _ _ _ _ _ _ Hcap); [|reflexivity].
  destruct (String.eqb content ""); [reflexivity|].
  unfold lift. destruct (is_dangerous_operation _ content) as [[|]|e]; try reflexivity.
  match goal with |- context [log_response ?s ?w ?x ?u ?c ?d ?st1] =>
    destruct (log_response_Ok s w x u c d st1) as (st2 & -> & Hh & _) end.
  cbn [snd ret]. exact Hh.
Qed.

Lemma process_window_events (session : string) (window : Z) (st : state) :
  exists answer,
    history (snd (process_window session window st))
      = (history st ++ Run (capture_cmd session window 20) :: answer)%list /\
    no_capture answer /\
    (answer = [] \/
     exists info st1,
       check_for_confirmation_prompt session window st = (Ok (Some info), st1) /\
       send_events (send_script_of st) (target_of session window) (p_response info)
                   answer).
Proof.
  pose proof (check_for_confirmation_prompt_history session window st) as Hcheck.
  unfold process_window, bind.
  destruct (check_for_confirmation_prompt session window st) as [[[info|]|e] st1] eqn:Hc;
    cbn [snd] in Hcheck.
  - destruct (send_response_events session window (p_response info) st1)
      as (evs & Hevs & Hshape).
    assert (send_script_of st1 = send_script_of st) as Hscript.
    { destruct (check_for_confirmation_prompt_Some _ _ _ _ _ Hc) as [-> _]. reflexivity. }
    rewrite Hscript in Hshape.
    exists evs. split; [|split; [eapply no_capture_send_events; exact Hshape|]].
    + destruct (send_response session window (p_response info) st1) as [[[|]|e] st2];
        cbn [snd] in Hevs |- *.
      * match goal with |- context [log_response ?s ?w ?x ?u ?c ?d ?st0] =>
          destruct (log_response_Ok s w x u c d st0) as (st3 & -> & Hh & _) end.
        cbn [snd]. rewrite Hh, Hevs, Hcheck, <- app_assoc. reflexivity.
      * unfold ret. cbn [snd]. rewrite Hevs, Hcheck, <- app_assoc. reflexivity.
      * rewrite Hevs, Hcheck, <- app_assoc. reflexivity.
    + right. exists info, st1. split; [reflexivity|exact Hshape].
  - exists []. unfold ret. cbn [snd]. rewrite Hcheck. split; [reflexivity|].
    split; [intros s w l []|left; reflexivity].
  - exists []. cbn [snd]. rewrite Hcheck. split; [reflexivity|].
    split; [intros s w l []|left; reflexivity].
Qed.


(** Whatever [process_window] sends goes to the window it has captured,
    and is the response of an enabled category of the configuration: to
    the history it adds the capture of the window and then nothing, or
    the events of one [send_response] for that window with that
    response, which end with the script, with the response, with the
    pause when [time.sleep] raises, or with [Enter]. *)
Theorem answers_go_to_the_captured_window (session : string) (window : Z) (st : state) :
  exists answer,
    history (snd (process_window session window st))
      = (history st ++ Run (capture_cmd session window 20) :: answer)%list /\
    no_capture answer /\
    (answer = [] \/
     exists info st1 entry,
       check_for_confirmation_prompt session window st = (Ok (Some info), st1) /\
       send_events (send_script_of st) (target_of session window) (p_response info)
                   answer /\
       In (p_category info, entry) (get_granular_controls (read_config st)) /\
       default false (cc_enabled entry) = true /\
       p_response info = default "1" (cc_response entry)).
Proof.
  destruct (process_window_events session window st)
    as (answer & Hhist & Hnone & [->|(info & st1 & Hcheck & Hshape)]).
  - exists []. split; [exact Hhist|]. split; [exact Hnone|left; reflexivity].
  - exists answer. split; [exact Hhist|]. split; [exact Hnone|]. right.
    destruct (check_for_confirmation_prompt_Some _ _ _ _ _ Hcheck)
      as (_ & content & _ & _ & _ & Hcat).
    apply check_categories_Some in Hcat
      as (before & entry & after & Hsplit & _ & Hen & _ & Hresp & _).
    exists info, st1, entry. repeat split; try assumption.
    rewrite Hsplit. apply in_or_app. right. left. reflexivity.
Qed.

(** A tick that runs to its end while the responder is running looks at
    the windows in the order tmux lists them, each one once: the history
    of the loop over the windows is one stretch for each window, its
    capture followed by what answering it took. *)
Theorem windows_are_captured_in_order (session : string) (windows : list Z)
  (st st' : state) :
  running st = true ->
  monitor_windows session windows st = (Ok tt, st') ->
  exists evs,
    history st' = (history st ++ evs)%list /\
    captured_in_order session windows evs.
Proof.
  revert st. induction windows as [|w windows IH]; intros st Hrun Hloop.
  - cbn in Hloop. injection Hloop as <-. exists []. rewrite app_nil_r. split; reflexivity.
  - cbn [monitor_windows] in Hloop. rewrite Hrun in Hloop. cbn [negb] in Hloop.
    unfold bind in Hloop.
    destruct (process_window_events session w st) as (answer & Hhist & Hnone & _).
    pose proof (extending_process_window session w st) as Hext.
    destruct (process_window session w st) as [[[]|e] st1]; [|discriminate].
    cbn [snd] in Hhist, Hext.
    destruct (IH st1) as (evs & Hevs & Horder); [|exact Hloop|].
    { destruct Hext as (_ & _ & _ & -> & _). exact Hrun. }
    exists (Run (capture_cmd session w 20) :: answer ++ evs)%list. split.
    + rewrite Hevs, Hhist, <- app_assoc. reflexivity.
    + cbn [captured_in_order]. exists answer, evs. repeat split; assumption.
Qed.

End Ticks.


Lemma answers_go_to_the_captured_window_witness :
  let env := one_window "Apply these changes? (yes/no)" in
  let hasty := state_of hasty_config in
  exists answer,
    history (snd (process_window "dev" 1 hasty))
      = Run (capture_cmd "dev" 1 20) :: answer /\
    no_capture answer /\
    answer = [ PathExists "/opt/orchestrator/send-claude-message.sh";
               Run (send_keys_cmd "dev:1" "1");
               Sleep (-0.5)%Q ].
Proof.
  intros env hasty.
  destruct (@answers_go_to_the_captured_window env "dev" 1 hasty)
    as (answer & Hhist & Hnone & _).
  exists answer. split; [exact Hhist|]. split; [exact Hnone|].
  vm_compute in Hhist. injection Hhist as <-. reflexivity.
Defined.

Lemma windows_are_captured_in_order_witness :
  let env := script_works in
  let st := state_of (preset_config "pm_orchestrator") in
  exists evs,
    history (snd (monitor_windows "dev" [1; 2] st)) = evs /\
    captured_in_order "dev" [1; 2] evs.
Proof.
  intros env st.
  destruct (@windows_are_captured_in_order env "dev" [1; 2] st
              (snd (monitor_windows "dev" [1; 2] st)) eq_refl)
    as (evs & Hevs & Horder).
  - vm_compute. reflexivity.
  - exists evs. split; [exact Hevs|exact Horder].
Defined.

(** ** Logging switched off *)

Section Silence.

Context `{env : Env}.

Lemma silent_ret {A : Type} (a : A) : silent (ret a).
Proof. intros st _. reflexivity. Qed.

Lemma silent_lift {A : Type} (f : state -> res A) : silent (lift f).
Proof. intros st _. reflexivity. Qed.

Lemma silent_time_sleep (secs : Q) : silent (time_sleep secs).
Proof. intros st _. rewrite time_sleep_state. reflexivity. Qed.

Lemma silent_subprocess_run (argv : list string) (check : bool) :
  silent (subprocess_run argv check).
Proof. intros st _. rewrite subprocess_run_state. reflexivity. Qed.

Lemma silent_os_path_exists (path : string) : silent (os_path_exists path).
Proof. intros st _. reflexivity. Qed.

Lemma silent_log_response (session : string) (window : Z)
  (response status category description : string) :
  silent (log_response session window response status category description).
Proof. intros st Hoff. rewrite (log_response_off _ _ _ _ _ _ _ Hoff). reflexivity. Qed.

Lemma extends_logging (st st' : state) : extends st st' -> logging st' = logging st.
Proof. intros Hext. unfold logging. rewrite (extends_read_config _ _ Hext). reflexivity. Qed.

Lemma silent_bind {A B : Type} (m : M A) (k : A -> M B) :
  extending m -> silent m -> (forall a, silent (k a)) -> silent (bind m k).
Proof.
  intros Hext Hm Hk st Hoff. specialize (Hext st). specialize (Hm st Hoff).
  unfold bind. destruct (m st) as [[a|e] st1]; cbn [snd] in *; [|exact Hm].
  rewrite (Hk a st1); [exact Hm|]. rewrite (extends_logging _ _ Hext). exact Hoff.
Qed.

Lemma silent_try_except {A : Type} (body : M A) (catches : exn -> bool)
  (handler : exn -> M A) :
  extending body -> silent body -> (forall e, silent (handler e)) ->
  silent (try_except body catches handler).
Proof.
  intros Hext Hbody Hhandler st Hoff. specialize (Hext st). specialize (Hbody st Hoff).
  unfold try_except. destruct (body st) as [[a|e] st1]; cbn [snd] in *; [exact Hbody|].
  destruct (catches e); [|exact Hbody].
  rewrite (Hhandler e st1); [exact Hbody|]. rewrite (extends_logging _ _ Hext). exact Hoff.
Qed.

Lemma silent_process_window (session : string) (window : Z) :
  silent (process_window session window).
Proof.
  apply silent_bind; [apply extending_check_for_confirmation_prompt| |].
  - apply silent_bind; [apply extending_capture_window_content| |].
    + apply silent_try_except;
        [apply extending_subprocess_run|apply silent_subprocess_run|].
      intros e. apply silent_ret.
    + intros content. destruct (String.eqb content ""); [apply silent_ret|].
      apply silent_bind; [apply extending_lift|apply silent_lift|].
      intros [|]; [|apply silent_lift].
      apply silent_bind; [apply extending_log_response|apply silent_log_response|].
      intros _. apply silent_ret.
  - intros [info|]; [|apply silent_ret].
    apply silent_bind; [apply extending_send_response| |].
    + apply silent_bind; [apply extending_lift|apply silent_lift|]. intros send_script.
      apply silent_try_except.
      * apply extending_bind; [apply extending_os_path_exists|]. intros script.
        apply extending_bind.
        -- destruct script.
           ++ apply extending_bind; [apply extending_subprocess_run|].
              intros _. apply extending_ret.
           ++ apply extending_bind; [apply extending_subprocess_run|]. intros _.
              apply extending_bind; [apply extending_lift|]. intros delay.
              apply extending_bind; [apply extending_time_sleep|]. intros _.
              apply extending_bind; [apply extending_subprocess_run|]. intros _.
              apply extending_ret.
        -- intros method. apply extending_bind; [apply extending_log_response|].
           intros _. apply extending_ret.
      * apply silent_bind; [apply extending_os_path_exists|apply silent_os_path_exists|].
        intros script. apply silent_bind.
        -- destruct script.
           ++ apply extending_bind; [apply extending_subprocess_run|].
              intros _. apply extending_ret.
           ++ apply extending_bind; [apply extending_subprocess_run|]. intros _.
              apply extending_bind; [apply extending_lift|]. intros delay.
              apply extending_bind; [apply extending_time_sleep|]. intros _.
              apply extending_bind; [apply extending_subprocess_run|]. intros _.
              apply extending_ret.
        -- destruct script.
           ++ apply silent_bind;
                [apply extending_subprocess_run|apply silent_subprocess_run|].
              intros _. apply silent_ret.
           ++ apply silent_bind;
                [apply extending_subprocess_run|apply silent_subprocess_run|]. intros _.
              apply silent_bind; [apply extending_lift|apply silent_lift|]. intros delay.
              apply silent_bind; [apply extending_time_sleep|apply silent_time_sleep|].
              intros _.
              apply silent_bind;
                [apply extending_subprocess_run|apply silent_subprocess_run|]. intros _.
              apply silent_ret.
        -- intros method.
           apply silent_bind; [apply extending_log_response|apply silent_log_response|].
           intros _. apply silent_ret.
      * intros e.
        apply silent_bind; [apply extending_log_response|apply silent_log_response|].
        intros _. apply silent_ret.
    + intros [|]; [apply silent_log_response|apply silent_ret].
Qed.

Lemma silent_monitor_windows (session : string) (windows : list Z) :
  silent (monitor_windows session windows).
Proof.
  induction windows as [|w windows IH]; cbn [monitor_windows]; [apply silent_ret|].
  intros st Hoff. destruct (negb (running st)); [reflexivity|].
  revert st Hoff.
  apply (silent_bind (process_window session w) (fun _ => monitor_windows session windows)).
  - apply extending_process_window.
  - apply silent_process_window.
  - intros _. exact IH.
Qed.

Lemma silent_monitor_tick (session : string) (check_interval : Q) :
  silent (monitor_tick session check_interval).
Proof.
  apply silent_try_except.
  - apply extending_bind; [apply extending_get_session_windows|]. intros windows.
    apply extending_bind; [apply extending_monitor_windows|]. intros _.
    apply extending_time_sleep.
  - apply silent_bind; [apply extending_get_session_windows| |].
    + apply silent_try_except.
      * apply extending_bind; [apply extending_subprocess_run|].
        intros out. apply extending_lift.
      * apply silent_bind;
          [apply extending_subprocess_run|apply silent_subprocess_run|].
        intros out. apply silent_lift.
      * intros e. apply silent_ret.
    + intros windows.
      apply silent_bind; [apply extending_monitor_windows|apply silent_monitor_windows|].
      intros _. apply silent_time_sleep.
  - intros e. apply silent_time_sleep.
Qed.

(** With ["log_responses"] false the monitor records nothing at all: not
    the answers, not the failed sends, not the skipped dangerous
    operations. After any number of ticks the log is what it was. *)
Theorem nothing_is_logged_when_logging_is_off (fuel : nat) (session : string)
  (check_interval : Q) (st : state) :
  logging st = false ->
  response_log (snd (monitor_loop fuel session check_interval st)) = response_log st /\
  s_recent_responses (get_status (snd (monitor_loop fuel session check_interval st)))
    = s_recent_responses (get_status st).
Proof.
  intros Hoff.
  assert (response_log (snd (monitor_loop fuel session check_interval st))
            = response_log st) as Hlog.
  { revert st Hoff. induction fuel as [|fuel IH]; intros st Hoff; [reflexivity|].
    cbn [monitor_loop]. destruct (running st && is_enabled st)%bool; [|reflexivity].
    revert st Hoff.
    apply (silent_bind (monitor_tick session check_interval)
                       (fun _ => monitor_loop fuel session check_interval)).
    - apply extending_monitor_tick.
    - apply silent_monitor_tick.
    - intros _ st Hoff. apply IH. exact Hoff. }
  split; [exact Hlog|]. cbn [get_status s_recent_responses]. rewrite Hlog. reflexivity.
Qed.

End Silence.

Lemma nothing_is_logged_when_logging_is_off_witness :
  let env := one_window "rm -rf /data? (yes/no)" in
  let st :=
    state_of {| auto_responder :=
                  Some {| ar_enabled := Some true;
                          ar_check_interval := None;
                          ar_response_delay := None;
                          ar_log_responses := Some false;
                          ar_granular_controls := None;
                          ar_safety_controls :=
                            Some PermissionPresets.SAFETY_CONTROLS |} |} in
  response_log (snd (monitor_loop 3 "dev" 2.0%Q st)) = [].
Proof.
  intros env st.
  apply (@nothing_is_logged_when_logging_is_off env 3 "dev" 2.0%Q st eq_refl).
Defined.

(** ** The presets, continued *)

Section PresetsMore.

Import PermissionPresets.

(** [get_preset] knows the four names of [PRESET_INFO] and no other: for
    every other name it raises [ValueError] with a message that names the
    preset asked for and lists the four. *)
Theorem get_preset_unknown_name (name : string) :
  (str_in name (keys PRESET_INFO) = true ->
   exists cfg, get_preset name = Ok cfg /\ generate_preset_config name = Ok cfg) /\
  (str_in name (keys PRESET_INFO) = false ->
   get_preset name
     = Raise (ValueError
                ("Unknown preset '" +:+ name +:+
                 "'. Available: pm_orchestrator, safe_development, conservative, autonomous_agent")) /\
   get_preset_config true name = Ok get_default_config).
Proof.
  split; intros Hname.
  - destruct (generate_preset_config_known name Hname) as [info Hinfo].
    rewrite get_preset_generate. unfold generate_preset_config. rewrite Hinfo.
    eexists. split; reflexivity.
  - assert (assoc name PRESET_INFO = None) as Hnone.
    { destruct (assoc name PRESET_INFO) as [info|] eqn:Hinfo; [|reflexivity].
      apply assoc_In in Hinfo. apply (in_map fst) in Hinfo. cbn [fst] in Hinfo.
      apply str_in_true in Hinfo. unfold keys in Hname. congruence. }
    assert (get_preset name
              = Raise (ValueError
                         ("Unknown preset '" +:+ name +:+
                          "'. Available: pm_orchestrator, safe_development, conservative, autonomous_agent")))
      as Hraise.
    { rewrite get_preset_generate. unfold generate_preset_config. rewrite Hnone.
      reflexivity. }
    split; [exact Hraise|].
    unfold get_preset_config. cbn [negb]. rewrite Hraise. reflexivity.
Qed.

Lemma enabled_controls_generated (name : string) (table : list (string * Control)) :
  map fst (filter (fun entry => str_in name (enabled_in (snd entry))) table)
    = map fst (filter (fun entry => default false (cc_enabled (snd entry)))
                      (map (fun '(c, ctl) => (c, preset_control name ctl)) table)).
Proof.
  induction table as [|[c ctl] table IH]; [reflexivity|].
  cbn [map]. rewrite !filter_cons. cbn [snd preset_control cc_enabled].
  change (default false (Some ?b)) with b.
  destruct (decide (str_in name (enabled_in ctl))) as [Hin|Hout];
    cbn [map fst]; rewrite IH; reflexivity.
Qed.

(** What [list_presets] prints as enabled for a preset is what the
    configuration generated for that preset enables: the names, in the
    order of the table, of the categories whose flag is set; the line is
    among the lines printed. *)
Theorem listing_agrees_with_presets (name : string) (cfg : Config) :
  generate_preset_config name = Ok cfg ->
  Listing.enabled_controls name
    = map fst (filter (fun entry => default false (cc_enabled (snd entry)))
                      (get_granular_controls cfg)) /\
  In (match Listing.enabled_controls name with
      | [] => "   ✅ Enabled: general_confirmations only"
      | enabled => "   ✅ Enabled: " +:+ join ", " enabled
      end)
     Listing.list_presets.
Proof.
  intros Hcfg.
  apply generate_preset_config_Ok in Hcfg as (info & Hinfo & Hgc & _).
  split.
  - rewrite Hgc. apply enabled_controls_generated.
  - unfold Listing.list_presets. right. right.
    apply in_concat. exists (Listing.preset_lines name info). split.
    + apply in_map_iff. exists (name, info). split; [reflexivity|].
      apply assoc_In. exact Hinfo.
    + unfold Listing.preset_lines. do 4 right. left. reflexivity.
Qed.

End PresetsMore.

Lemma get_preset_unknown_name_witness :
  exists msg, PermissionPresets.get_preset "production" = Raise (ValueError msg).
Proof.
  destruct (get_preset_unknown_name "production") as [_ Hunknown].
  destruct (Hunknown eq_refl) as [-> _]. eexists. reflexivity.
Defined.

Lemma listing_agrees_with_presets_witness :
  In "   ✅ Enabled: general_confirmations" Listing.list_presets.
Proof.
  destruct (listing_agrees_with_presets "conservative" (preset_config "conservative")
              eq_refl) as [_ Hline].
  exact Hline.
Defined.

Section PresetSafety.

Context `{env : Env}.

Import PermissionPresets.

(** Under each of the four presets, a captured text that one of the
    dangerous patterns or one of the manual-approval patterns of
    [SAFETY_CONTROLS] matches is never answered, and nothing is sent for
    it, whatever categories the preset enables. *)
Theorem presets_skip_unsafe_texts (name : string) (session : string) (window : Z)
  (st st1 : state) (content : string) :
  generate_preset_config name = Ok (read_config st) ->
  capture_window_content session window 20 st = (Ok content, st1) ->
  List.Exists (fun q => re_search I_flags q content = Ok true)
              (default [] (dangerous_patterns SAFETY_CONTROLS)
                 ++ default [] (require_manual_approval SAFETY_CONTROLS)) ->
  exists r st2,
    check_for_confirmation_prompt session window st = (r, st2) /\
    (forall info, r <> Ok (Some info)) /\
    process_window session window st = (res_bind r (fun _ => Ok tt), st2) /\
    history st2 = (history st ++ [Run (capture_cmd session window 20)])%list.
Proof.
  intros Hcfg Hcap Hex.
  pose proof (capture_window_content_state _ _ _ _ _ _ Hcap) as Hst1.
  assert (read_config st1 = read_config st) as Hsame by (rewrite Hst1; reflexivity).
  apply generate_preset_config_Ok in Hcfg as (info & _ & _ & Har).
  assert (get_safety_controls (read_config st1) = SAFETY_CONTROLS) as Hsafe.
  { unfold get_safety_controls. rewrite Hsame, Har. reflexivity. }
  assert (is_dangerous_operation (read_config st1) content <> Ok false) as Hdanger.
  { apply Exists_app in Hex as [Hd|Hm].
    - apply is_dangerous_operation_dangerous; rewrite Hsafe; [reflexivity|exact Hd].
    - apply is_dangerous_operation_manual; rewrite Hsafe; [reflexivity|exact Hm]. }
  destruct (safety_hit_skips session window st st1 content Hcap Hdanger)
    as (r & st2 & Hcheck & Hnone & Hproc & Hhist & _).
  exists r, st2. repeat split; assumption.
Qed.

End PresetSafety.

Lemma presets_skip_unsafe_texts_witness :
  let env := one_window "Push to the live site? 1. yes 2. no" in
  let st := state_of (preset_config "autonomous_agent") in
  exists r st2,
    check_for_confirmation_prompt "dev" 1 st = (r, st2) /\
    (forall info, r <> Ok (Some info)).
Proof.
  intros env st.
  destruct (@presets_skip_unsafe_texts env "autonomous_agent" "dev" 1 st
              (snd (capture_window_content "dev" 1 20 st))
              "Push to the live site? 1. yes 2. no")
    as (r & st2 & Hcheck & Hnone & _).
  - reflexivity.
  - vm_compute. reflexivity.
  - apply Exists_exists. exists "live". split; [|vm_compute; reflexivity].
    cbn. repeat (first [left; reflexivity | right]).
  - exists r, st2. split; assumption.
Defined.
